(** * Email Lead Monitor: a shallow embedding of [src/index.js]

    The agent polls a mailbox, classifies every unseen message with a
    language-model call, drafts a reply, files the message under a label and
    remembers the ids it has handled.  This file embeds the JavaScript of
    [src/index.js] function by function and proves (or refutes) the
    properties its specification states.

    Layout:
    - [JS]: the part of the JavaScript runtime the program touches
      (JSON values, [JSON.parse], truthiness, [ToNumber], [ToString],
      exceptions, base64 of a [Buffer]);
    - [Gmail], [OpenAI]: the shapes of the gateway replies, with every
      field the client libraries declare optional as an [option];
    - the agent: the program state, the effect monad and the functions of
      [src/index.js] under their own names;
    - the vocabulary of the statements and scripted environments;
    - the theorems. *)

From Stdlib Require Import ZArith List String Ascii Floats Bool Lia DecimalString.
From stdpp Require Import base gmap sets strings.

Set Warnings "-inexact-float,-register-all".

Open Scope string_scope.
Open Scope Z_scope.

(* ===================================================================== *)
(** * The JavaScript runtime *)
(* ===================================================================== *)

Module JS.

(** ** Strings

    A JavaScript string is kept as the bytes of its UTF-8 encoding (an
    unpaired surrogate, which only a [\uXXXX] escape of [JSON.parse] can
    produce here, as the three bytes of its generalised encoding). *)

Definition chr (n : nat) : string := String (ascii_of_nat n) EmptyString.

(** The double quote, U+0022. *)
Definition dq : string := chr 34.
(** Carriage return, line feed. *)
Definition CRLF : string := chr 13 ++ chr 10.

Definition code (c : ascii) : Z := Z.of_nat (nat_of_ascii c).

(** [Array.prototype.join] over strings. *)
Fixpoint join (sep : string) (l : list string) : string :=
  match l with
  | [] => ""
  | [s] => s
  | s :: r => s ++ sep ++ join sep r
  end.

Definition is_digit (c : ascii) : bool := (48 <=? code c) && (code c <=? 57).

Definition digit_val (c : ascii) : Z := code c - 48.

(** Decimal rendering of a non-negative integer. *)
Definition string_of_Z (z : Z) : string :=
  NilZero.string_of_uint (N.to_uint (Z.to_N z)).

Definition string_of_nat (n : nat) : string := string_of_Z (Z.of_nat n).

(** ** Numbers: IEEE 754 binary64

    A JavaScript Number is a binary64 float, the kernel's primitive [float].
    [float_of_decimal m e] is the Number value of the real [m * 10^e]
    (for [0 <= m]): the nearest float, ties to even.  The quotient by a
    power of ten is taken with 64 extra bits and a sticky bit, so that the
    single rounding of [binary_normalize] is the rounding of the exact
    value. *)

Definition nan : float := PrimFloat.nan.

Definition is_nan (x : float) : bool := negb (PrimFloat.eqb x x).

Fixpoint count_digits_aux (fuel : nat) (m : Z) (acc : Z) : Z :=
  match fuel with
  | O => acc
  | S f => if m <? 10 then acc else count_digits_aux f (m / 10) (acc + 1)
  end.

(** Number of decimal digits of [m] ([1] for [0 <= m < 10]). *)
Definition count_digits (m : Z) : Z :=
  count_digits_aux (Z.to_nat (Z.log2 m) + 1) m 1.

Definition float_of_decimal (m e : Z) : float :=
  if m <=? 0 then 0%float
  else
    let magnitude := count_digits m + e in
    if 310 <? magnitude then PrimFloat.infinity
    else if magnitude <? -330 then 0%float
    else if 0 <=? e then SF2Prim (binary_normalize prec emax (m * 10 ^ e) 0 false)
    else
      let d := 10 ^ (- e) in
      let s := 64 + Z.log2 d + 1 in
      let q := (m * 2 ^ s) / d in
      let sticky := if (m * 2 ^ s) mod d =? 0 then 0 else 1 in
      SF2Prim (binary_normalize prec emax (2 * q + sticky) (- (s + 1)) false).

Definition signed (neg : bool) (x : float) : float :=
  if neg then PrimFloat.opp x else x.

(** ** Number::toString (ECMA-262 6.1.6.1.20)

    For a finite positive [x = num/den] the shortest digit string [s] of
    length [k] and the exponent [n] with [s * 10^(n-k)] reading back as [x];
    among the candidates of that length the closest one, the even one on a
    tie. *)

(** [magnitude num den] is the [n] with [10^(n-1) <= num/den < 10^n]. *)
Definition magnitude (num den : Z) : Z :=
  if den <=? num then count_digits (num / den)
  else
    let c := count_digits (den / num) in
    if num * 10 ^ (c - 1) =? den then 2 - c else 1 - c.

Definition reads_back (x : float) (s n k : Z) : bool :=
  PrimFloat.eqb (float_of_decimal s (n - k)) x.

(** The candidates of length [k]: the [k]-digit numbers just below and just
    above [x / 10^(n-k)]; the upper one may be [10^k], which is the digit
    [1] one decade up. *)
Definition shortest_at (x : float) (num den n k : Z) : option (Z * Z) :=
  let a := if n <=? k then num * 10 ^ (k - n) else num in
  let b := if n <=? k then den else den * 10 ^ (n - k) in
  let lo := a / b in
  let r := a mod b in
  let hi := lo + 1 in
  let hi_s := if hi =? 10 ^ k then 10 ^ (k - 1) else hi in
  let hi_n := if hi =? 10 ^ k then n + 1 else n in
  let ok_lo := reads_back x lo n k in
  let ok_hi := reads_back x hi_s hi_n k in
  if r =? 0 then (if ok_lo then Some (lo, n) else None)
  else if ok_lo && ok_hi then
    (if 2 * r <? b then Some (lo, n)
     else if b <? 2 * r then Some (hi_s, hi_n)
     else if Z.even lo then Some (lo, n) else Some (hi_s, hi_n))
  else if ok_lo then Some (lo, n)
  else if ok_hi then Some (hi_s, hi_n)
  else None.

Fixpoint shortest_from (fuel : nat) (x : float) (num den n k : Z) : Z * Z * Z :=
  match fuel with
  | O => (num * 10 ^ (k - n) / den, n, k)
  | S f =>
      match shortest_at x num den n k with
      | Some (s, n') => (s, n', k)
      | None => shortest_from f x num den n (k + 1)
      end
  end.

Fixpoint zeros (n : nat) : string :=
  match n with
  | O => ""
  | S m => "0" ++ zeros m
  end.

Definition take (n : Z) (s : string) : string := substring 0 (Z.to_nat n) s.
Definition drop (n : Z) (s : string) : string :=
  substring (Z.to_nat n) (String.length s - Z.to_nat n) s.

Definition format_digits (ds : string) (n k : Z) : string :=
  if (k <=? n) && (n <=? 21) then ds ++ zeros (Z.to_nat (n - k))
  else if (0 <? n) && (n <=? 21) then take n ds ++ "." ++ drop n ds
  else if (-6 <? n) && (n <=? 0) then "0." ++ zeros (Z.to_nat (- n)) ++ ds
  else
    let e := n - 1 in
    let sign := if e <? 0 then "-" else "+" in
    let mant := if k =? 1 then ds else take 1 ds ++ "." ++ drop 1 ds in
    mant ++ "e" ++ sign ++ string_of_Z (Z.abs e).

Definition Number_toString_pos (x : float) : string :=
  match Prim2SF x with
  | S754_finite _ m e =>
      let num := if 0 <=? e then Zpos m * 2 ^ e else Zpos m in
      let den := if 0 <=? e then 1 else 2 ^ (- e) in
      let '(s, n, k) := shortest_from 17 x num den (magnitude num den) 1 in
      format_digits (string_of_Z s) n k
  | S754_infinity _ => "Infinity"
  | S754_zero _ => "0"
  | S754_nan => "NaN"
  end.

Definition Number_toString (x : float) : string :=
  if is_nan x then "NaN"
  else if PrimFloat.ltb x 0 then "-" ++ Number_toString_pos (PrimFloat.opp x)
  else Number_toString_pos x.

(** ** StringToNumber (ECMA-262 7.1.4.1.1)

    White space and line terminators, in UTF-8: TAB, LF, VT, FF, CR, SP,
    U+00A0, U+1680, U+2000..U+200A, U+2028, U+2029, U+202F, U+205F,
    U+3000 and U+FEFF. *)

Definition ws_prefix (s : string) : option string :=
  match s with
  | String c r =>
      let b := code c in
      if (b =? 9) || (b =? 10) || (b =? 11) || (b =? 12) || (b =? 13) || (b =? 32)
      then Some r
      else
        match r with
        | String c2 r2 =>
            let b2 := code c2 in
            if (b =? 194) && (b2 =? 160) then Some r2
            else
              match r2 with
              | String c3 r3 =>
                  let b3 := code c3 in
                  if (b =? 225) && (b2 =? 154) && (b3 =? 128) then Some r3
                  else if (b =? 226) && (b2 =? 128)
                          && (((128 <=? b3) && (b3 <=? 138)) || (b3 =? 168)
                              || (b3 =? 169) || (b3 =? 175)) then Some r3
                  else if (b =? 226) && (b2 =? 129) && (b3 =? 159) then Some r3
                  else if (b =? 227) && (b2 =? 128) && (b3 =? 128) then Some r3
                  else if (b =? 239) && (b2 =? 187) && (b3 =? 191) then Some r3
                  else None
              | EmptyString => None
              end
        | EmptyString => None
        end
  | EmptyString => None
  end.

Fixpoint strip_ws (fuel : nat) (s : string) : string :=
  match fuel with
  | O => s
  | S f => match ws_prefix s with
           | Some r => strip_ws f r
           | None => s
           end
  end.

Definition trim_start (s : string) : string := strip_ws (String.length s) s.

Definition all_ws (s : string) : bool :=
  match trim_start s with
  | EmptyString => true
  | _ => false
  end.

(** [scan_digits s acc n]: the value and the number of the leading decimal
    digits of [s], and what follows them. *)
Fixpoint scan_digits (s : string) (acc n : Z) : Z * Z * string :=
  match s with
  | String c r =>
      if is_digit c then scan_digits r (10 * acc + digit_val c) (n + 1)
      else (acc, n, s)
  | EmptyString => (acc, n, s)
  end.

(** An optional exponent part [e[+-]digits]; [None] when an [e] is not
    followed by digits. *)
Definition scan_exponent (s : string) : option (Z * string) :=
  match s with
  | String c r =>
      if (code c =? 101) || (code c =? 69) then
        let '(neg, r1) :=
          match r with
          | String sg r' =>
              if code sg =? 45 then (true, r')
              else if code sg =? 43 then (false, r')
              else (false, r)
          | EmptyString => (false, r)
          end in
        let '(v, n, rest) := scan_digits r1 0 0 in
        if n =? 0 then None else Some (if neg then - v else v, rest)
      else Some (0, s)
  | EmptyString => Some (0, s)
  end.

Definition hex_val (c : ascii) : option Z :=
  let b := code c in
  if (48 <=? b) && (b <=? 57) then Some (b - 48)
  else if (97 <=? b) && (b <=? 102) then Some (b - 87)
  else if (65 <=? b) && (b <=? 70) then Some (b - 55)
  else None.

(** Digits of a radix 2, 8 or 16 literal, white space allowed after them. *)
Fixpoint scan_radix (radix : Z) (s : string) (acc : Z) (n : Z) : option Z :=
  match s with
  | String c r =>
      match hex_val c with
      | Some d => if d <? radix then scan_radix radix r (radix * acc + d) (n + 1)
                  else None
      | None => if (0 <? n) && all_ws s then Some acc else None
      end
  | EmptyString => if 0 <? n then Some acc else None
  end.

Definition float_of_Z (z : Z) : float :=
  SF2Prim (binary_normalize prec emax z 0 false).

Definition unsigned_decimal (s : string) : float :=
  if String.prefix "Infinity" s then
    (if all_ws (drop 8 s) then PrimFloat.infinity else nan)
  else
    let '(i, ni, r1) := scan_digits s 0 0 in
    let '(f, nf, r2) :=
      match r1 with
      | String c r' => if code c =? 46 then scan_digits r' i 0 else (i, 0, r1)
      | EmptyString => (i, 0, r1)
      end in
    if (ni =? 0) && (nf =? 0) then nan
    else
      match scan_exponent r2 with
      | Some (e, rest) => if all_ws rest then float_of_decimal f (e - nf) else nan
      | None => nan
      end.

Definition StringToNumber (str : string) : float :=
  match trim_start str with
  | EmptyString => 0%float
  | String c r as s =>
      if code c =? 45 then signed true (unsigned_decimal r)
      else if code c =? 43 then unsigned_decimal r
      else if code c =? 48 then
        match r with
        | String x r' =>
            let radix :=
              if (code x =? 120) || (code x =? 88) then 16
              else if (code x =? 111) || (code x =? 79) then 8
              else if (code x =? 98) || (code x =? 66) then 2
              else 0 in
            if radix =? 0 then unsigned_decimal s
            else match scan_radix radix r' 0 0 with
                 | Some z => float_of_Z z
                 | None => nan
                 end
        | EmptyString => 0%float
        end
      else unsigned_decimal s
  end.

(** ** Values

    What [JSON.parse] can return, and [undefined].  An object keeps its
    members in insertion order; a repeated key overwrites in place. *)

Inductive value : Type :=
| JUndefined
| JNull
| JBool (b : bool)
| JNum (n : float)
| JStr (s : string)
| JArr (elements : list value)
| JObj (members : list (string * value)).

(** ** Exceptions and completions

    Everything this program can see thrown is an [Error] object (of the
    runtime or of a client library): a name and a message. *)

Record exn : Type := mkExn { name : string; message : string }.

Inductive completion (A : Type) : Type :=
| Return (a : A)
| Throw (e : exn).

Arguments Return {A} a.
Arguments Throw {A} e.

(** A [TypeError] for reading property [prop] of [undefined] or [null],
    worded as V8 words it. *)
Definition TypeError_read (base prop : string) : exn :=
  mkExn "TypeError"
        ("Cannot read properties of " ++ base ++ " (reading '" ++ prop ++ "')").

(** The [TypeError] of an object that has no primitive value, worded as V8
    words it. *)
Definition TypeError_primitive : exn :=
  mkExn "TypeError" "Cannot convert object to primitive value".

(** The message of a [SyntaxError] of [JSON.parse] is engine-defined; this
    text stands for it. *)
Definition SyntaxError_JSON : exn :=
  mkExn "SyntaxError" "Unexpected token in JSON".

(** ** Property reads, truthiness, coercions *)

Fixpoint lookup_member (k : string) (members : list (string * value)) : option value :=
  match members with
  | [] => None
  | (k', v) :: r => if String.eqb k k' then Some v else lookup_member k r
  end.

(** [Get v k] is [v.k] for a key [k] that no prototype defines (the program
    reads [isLead], [confidence] and [reason] only). *)
Definition Get (v : value) (k : string) : completion value :=
  match v with
  | JUndefined => Throw (TypeError_read "undefined" k)
  | JNull => Throw (TypeError_read "null" k)
  | JObj members => Return (match lookup_member k members with
                            | Some x => x
                            | None => JUndefined
                            end)
  | _ => Return JUndefined
  end.

(** ToBoolean. *)
Definition truthy (v : value) : bool :=
  match v with
  | JUndefined | JNull => false
  | JBool b => b
  | JNum n => negb (is_nan n) && negb (PrimFloat.eqb n 0)
  | JStr s => negb (String.eqb s "")
  | JArr _ | JObj _ => true
  end.

(** ToString, as a template literal applies it.  An array is joined with
    commas, its elements converted from left to right ([undefined] and
    [null] give the empty string).  An object goes through ToPrimitive: the
    members a parsed object owns are never callable, so an own [toString]
    hides [Object.prototype.toString] and leaves [Object.prototype.valueOf],
    which returns the object itself: a [TypeError].  Without an own
    [toString] the inherited one answers, whatever [valueOf] is. *)
Fixpoint ToString (v : value) : completion string :=
  match v with
  | JUndefined => Return "undefined"
  | JNull => Return "null"
  | JBool true => Return "true"
  | JBool false => Return "false"
  | JNum n => Return (Number_toString n)
  | JStr s => Return s
  | JArr elements =>
      match (fix each (l : list value) : completion (list string) :=
               match l with
               | [] => Return []
               | x :: r =>
                   match (match x with
                          | JUndefined | JNull => Return ""
                          | _ => ToString x
                          end) with
                   | Throw e => Throw e
                   | Return t =>
                       match each r with
                       | Throw e => Throw e
                       | Return ts => Return (t :: ts)
                       end
                   end
               end) elements with
      | Throw e => Throw e
      | Return parts => Return (join "," parts)
      end
  | JObj members =>
      match lookup_member "toString" members with
      | Some _ => Throw TypeError_primitive
      | None => Return "[object Object]"
      end
  end.

(** ToNumber.  An array or object goes through ToPrimitive with the hint
    [number]: [valueOf] first, which never gives a primitive here, then
    [toString] as above. *)
Definition ToNumber (v : value) : completion float :=
  match v with
  | JUndefined => Return nan
  | JNull => Return 0%float
  | JBool true => Return 1%float
  | JBool false => Return 0%float
  | JNum n => Return n
  | JStr s => Return (StringToNumber s)
  | JArr _ | JObj _ =>
      match ToString v with
      | Throw e => Throw e
      | Return t => Return (StringToNumber t)
      end
  end.

(** [v > c] for a Number [c]: false when [ToNumber v] is NaN. *)
Definition greater_than (v : value) (c : float) : completion bool :=
  match ToNumber v with
  | Throw e => Throw e
  | Return x => Return (PrimFloat.ltb c x)
  end.

(** ** JSON.parse (ECMA-262 25.5.1, ECMA-404) *)

Definition utf8 (cp : Z) : string :=
  let b (z : Z) := chr (Z.to_nat z) in
  if cp <? 128 then b cp
  else if cp <? 2048 then b (192 + cp / 64) ++ b (128 + cp mod 64)
  else if cp <? 65536 then
    b (224 + cp / 4096) ++ b (128 + (cp / 64) mod 64) ++ b (128 + cp mod 64)
  else
    b (240 + cp / 262144) ++ b (128 + (cp / 4096) mod 64)
      ++ b (128 + (cp / 64) mod 64) ++ b (128 + cp mod 64).

(** Four hexadecimal digits. *)
Definition hex4 (s : string) : option (Z * string) :=
  match s with
  | String a (String b (String c (String d r))) =>
      match hex_val a, hex_val b, hex_val c, hex_val d with
      | Some x, Some y, Some z, Some w => Some (((x * 16 + y) * 16 + z) * 16 + w, r)
      | _, _, _, _ => None
      end
  | _ => None
  end.

(** The characters of a string literal after its opening quote. *)
Fixpoint parse_chars (fuel : nat) (s : string) : option (string * string) :=
  match fuel with
  | O => None
  | S f =>
      match s with
      | EmptyString => None
      | String c r =>
          if code c =? 34 then Some ("", r)
          else if code c <? 32 then None
          else if code c =? 92 then
            match r with
            | EmptyString => None
            | String e r' =>
                let simple (x : Z) :=
                  match parse_chars f r' with
                  | Some (t, rest) => Some (chr (Z.to_nat x) ++ t, rest)
                  | None => None
                  end in
                let k := code e in
                if k =? 34 then simple 34
                else if k =? 92 then simple 92
                else if k =? 47 then simple 47
                else if k =? 98 then simple 8
                else if k =? 102 then simple 12
                else if k =? 110 then simple 10
                else if k =? 114 then simple 13
                else if k =? 116 then simple 9
                else if k =? 117 then
                  match hex4 r' with
                  | None => None
                  | Some (u, r1) =>
                      let single :=
                        match parse_chars f r1 with
                        | Some (t, rest) => Some (utf8 u ++ t, rest)
                        | None => None
                        end in
                      if (55296 <=? u) && (u <=? 56319) then
                        match r1 with
                        | String b1 (String b2 r2) =>
                            if (code b1 =? 92) && (code b2 =? 117) then
                              match hex4 r2 with
                              | Some (lo, r3) =>
                                  if (56320 <=? lo) && (lo <=? 57343) then
                                    match parse_chars f r3 with
                                    | Some (t, rest) =>
                                        Some (utf8 (65536 + (u - 55296) * 1024 + (lo - 56320)) ++ t,
                                              rest)
                                    | None => None
                                    end
                                  else single
                              | None => single
                              end
                            else single
                        | _ => single
                        end
                      else single
                  end
                else None
            end
          else
            match parse_chars f r with
            | Some (t, rest) => Some (String c t, rest)
            | None => None
            end
      end
  end.

Fixpoint skip_ws (s : string) : string :=
  match s with
  | String c r =>
      if (code c =? 32) || (code c =? 9) || (code c =? 10) || (code c =? 13)
      then skip_ws r else s
  | EmptyString => s
  end.

(** A JSON number: an optional minus, an integer part ([0], or a non-zero
    digit and more digits), an optional fraction (a point and one digit or
    more) and an optional exponent. *)
Definition parse_number (s : string) : option (float * string) :=
  let '(neg, s1) :=
    match s with
    | String c r => if code c =? 45 then (true, r) else (false, s)
    | EmptyString => (false, s)
    end in
  let int_part :=
    match s1 with
    | String c r =>
        if code c =? 48 then Some (0, 1, r)
        else if is_digit c then Some (scan_digits s1 0 0)
        else None
    | EmptyString => None
    end in
  match int_part with
  | None => None
  | Some (i, _, r1) =>
      let frac :=
        match r1 with
        | String c r' =>
            if code c =? 46 then
              let '(f, nf, r2) := scan_digits r' i 0 in
              if nf =? 0 then None else Some (f, nf, r2)
            else Some (i, 0, r1)
        | EmptyString => Some (i, 0, r1)
        end in
      match frac with
      | None => None
      | Some (f, nf, r2) =>
          match scan_exponent r2 with
          | Some (e, rest) => Some (signed neg (float_of_decimal f (e - nf)), rest)
          | None => None
          end
      end
  end.

(** [o[k] = v] while an object is built: a repeated key overwrites. *)
Fixpoint set_member (k : string) (v : value) (members : list (string * value))
  : list (string * value) :=
  match members with
  | [] => [(k, v)]
  | (k', v') :: r =>
      if String.eqb k k' then (k, v) :: r else (k', v') :: set_member k v r
  end.

Fixpoint parse_value (fuel : nat) (s : string) : option (value * string) :=
  match fuel with
  | O => None
  | S f =>
      match skip_ws s with
      | EmptyString => None
      | String c r as s' =>
          let k := code c in
          if k =? 123 then
            match skip_ws r with
            | String c' r' =>
                if code c' =? 125 then Some (JObj [], r')
                else parse_members f (skip_ws r) []
            | EmptyString => None
            end
          else if k =? 91 then
            match skip_ws r with
            | String c' r' =>
                if code c' =? 93 then Some (JArr [], r')
                else match parse_elements f (skip_ws r) with
                     | Some (l, rest) => Some (JArr l, rest)
                     | None => None
                     end
            | EmptyString => None
            end
          else if k =? 34 then
            match parse_chars (String.length r) r with
            | Some (t, rest) => Some (JStr t, rest)
            | None => None
            end
          else if String.prefix "true" s' then Some (JBool true, drop 4 s')
          else if String.prefix "false" s' then Some (JBool false, drop 5 s')
          else if String.prefix "null" s' then Some (JNull, drop 4 s')
          else match parse_number s' with
               | Some (n, rest) => Some (JNum n, rest)
               | None => None
               end
      end
  end

with parse_elements (fuel : nat) (s : string) : option (list value * string) :=
  match fuel with
  | O => None
  | S f =>
      match parse_value f s with
      | None => None
      | Some (v, r) =>
          match skip_ws r with
          | String c r' =>
              if code c =? 44 then
                match parse_elements f r' with
                | Some (l, rest) => Some (v :: l, rest)
                | None => None
                end
              else if code c =? 93 then Some ([v], r')
              else None
          | EmptyString => None
          end
      end
  end

with parse_members (fuel : nat) (s : string) (acc : list (string * value))
  : option (value * string) :=
  match fuel with
  | O => None
  | S f =>
      match skip_ws s with
      | String q r =>
          if code q =? 34 then
            match parse_chars (String.length r) r with
            | None => None
            | Some (key, r1) =>
                match skip_ws r1 with
                | String colon r2 =>
                    if code colon =? 58 then
                      match parse_value f r2 with
                      | None => None
                      | Some (v, r3) =>
                          let acc' := set_member key v acc in
                          match skip_ws r3 with
                          | String c r4 =>
                              if code c =? 44 then parse_members f r4 acc'
                              else if code c =? 125 then Some (JObj acc', r4)
                              else None
                          | EmptyString => None
                          end
                      end
                    else None
                | EmptyString => None
                end
            end
          else None
      | EmptyString => None
      end
  end.

(** [JSON.parse(text)]: one value, white space around it, nothing else.
    Every nesting level and every element consumes a character, so the
    length of the text is fuel enough. *)
Definition JSON_parse (text : string) : completion value :=
  match parse_value (S (String.length text)) text with
  | Some (v, rest) =>
      match skip_ws rest with
      | EmptyString => Return v
      | _ => Throw SyntaxError_JSON
      end
  | None => Throw SyntaxError_JSON
  end.

(** ** Buffer: UTF-8 and base64

    [Buffer.from(s)]: the UTF-8 bytes of [s].  A high surrogate followed by
    a low surrogate is one code point, written with four bytes; any other
    surrogate is written as U+FFFD, the bytes [EF BF BD]. *)

Definition continuation (c : ascii) : bool := (128 <=? code c) && (code c <=? 191).

(** The surrogate code unit that the three bytes [a b c] keep, if they keep
    one: [ED], then [A0] to [BF], then a continuation byte. *)
Definition surrogate (a b c : ascii) : option Z :=
  if (code a =? 237) && (160 <=? code b) && (code b <=? 191) && continuation c
  then Some (53248 + (code b - 128) * 64 + (code c - 128))
  else None.

Definition replacement_character : string := chr 239 ++ chr 191 ++ chr 189.

Fixpoint Buffer_from (s : string) : string :=
  match s with
  | EmptyString => ""
  | String a t =>
      match t with
      | String b (String c r) =>
          match surrogate a b c with
          | None => String a (Buffer_from t)
          | Some hi =>
              if hi <? 56320 then
                match r with
                | String a' (String b' (String c' r')) =>
                    match surrogate a' b' c' with
                    | Some lo =>
                        if 56320 <=? lo then
                          utf8 (65536 + (hi - 55296) * 1024 + (lo - 56320))
                            ++ Buffer_from r'
                        else replacement_character ++ Buffer_from r
                    | None => replacement_character ++ Buffer_from r
                    end
                | _ => replacement_character ++ Buffer_from r
                end
              else replacement_character ++ Buffer_from r
          end
      | _ => String a (Buffer_from t)
      end
  end.

(** [buffer.toString('base64')]: RFC 4648 with padding, over the bytes of
    the buffer. *)

Definition base64_alphabet : string :=
  "ABCDEFGHIJKLMNOPQRSTUVWXYZabcdefghijklmnopqrstuvwxyz0123456789+/".

Definition sextet (z : Z) : string :=
  match String.get (Z.to_nat z) base64_alphabet with
  | Some c => String c EmptyString
  | None => ""
  end.

Fixpoint base64_encode_fuel (fuel : nat) (s : string) : string :=
  match fuel with
  | O => ""
  | S f =>
      match s with
      | EmptyString => ""
      | String a EmptyString =>
          let x := code a in
          sextet (x / 4) ++ sextet ((x mod 4) * 16) ++ "=="
      | String a (String b EmptyString) =>
          let x := code a in
          let y := code b in
          sextet (x / 4) ++ sextet ((x mod 4) * 16 + y / 16)
            ++ sextet ((y mod 16) * 4) ++ "="
      | String a (String b (String c r)) =>
          let x := code a in
          let y := code b in
          let z := code c in
          sextet (x / 4) ++ sextet ((x mod 4) * 16 + y / 16)
            ++ sextet ((y mod 16) * 4 + z / 64) ++ sextet (z mod 64)
            ++ base64_encode_fuel f r
      end
  end.

(** [Buffer.from(s).toString('base64')]. *)
Definition base64_encode (s : string) : string :=
  let bytes := Buffer_from s in
  base64_encode_fuel (S (String.length bytes)) bytes.

(** [str.replace(/\+/g, '-').replace(/\//g, '_')]. *)
Fixpoint url_safe (s : string) : string :=
  match s with
  | EmptyString => ""
  | String c r =>
      (if code c =? 43 then "-" else if code c =? 47 then "_"
       else String c EmptyString) ++ url_safe r
  end.

(** A base64 decoder for concrete runs: both alphabets, characters outside
    them skipped, decoding stopped at [=].  [Buffer.from(d, 'base64')
    .toString()] agrees with it on well-formed base64 of well-formed
    UTF-8; the program itself takes the decoder from its environment. *)
Definition unbase64 (c : ascii) : option Z :=
  let b := code c in
  if (65 <=? b) && (b <=? 90) then Some (b - 65)
  else if (97 <=? b) && (b <=? 122) then Some (b - 71)
  else if (48 <=? b) && (b <=? 57) then Some (b + 4)
  else if (b =? 43) || (b =? 45) then Some 62
  else if (b =? 47) || (b =? 95) then Some 63
  else None.

Fixpoint sextets (s : string) : list Z :=
  match s with
  | EmptyString => []
  | String c r =>
      if code c =? 61 then []
      else match unbase64 c with
           | Some v => v :: sextets r
           | None => sextets r
           end
  end.

Fixpoint octets (fuel : nat) (l : list Z) : string :=
  match fuel with
  | O => ""
  | S f =>
      match l with
      | a :: b :: c :: d :: r =>
          chr (Z.to_nat (a * 4 + b / 16))
            ++ chr (Z.to_nat ((b mod 16) * 16 + c / 4))
            ++ chr (Z.to_nat ((c mod 4) * 64 + d)) ++ octets f r
      | [a; b; c] =>
          chr (Z.to_nat (a * 4 + b / 16)) ++ chr (Z.to_nat ((b mod 16) * 16 + c / 4))
      | [a; b] => chr (Z.to_nat (a * 4 + b / 16))
      | _ => ""
      end
  end.

Definition base64_decode (s : string) : string :=
  let l := sextets s in octets (S (List.length l)) l.

End JS.

(* ===================================================================== *)
(** * The gateways *)
(* ===================================================================== *)

(** The replies of the mailbox service, as [googleapis] types them: every
    field is optional there, and an absent field reads as [undefined]
    ([None] here).  Only the fields the program reads are kept. *)

Module Gmail.

Module Header.
Record t : Type := mk { name : option string; value : option string }.
End Header.

Module Body.
Record t : Type := mk { data : option string }.
End Body.

(** A sub-part of a payload. *)
Module Part.
Record t : Type := mk { mimeType : option string; body : option Body.t }.
End Part.

Module Payload.
Record t : Type := mk {
  headers : option (list Header.t);
  body : option Body.t;
  parts : option (list Part.t)
}.
End Payload.

(** A message: the stubs of a listing carry [id] and [threadId], a fetched
    message its [payload] too. *)
Module Message.
Record t : Type := mk {
  id : option string;
  threadId : option string;
  payload : option Payload.t
}.
End Message.

Module Label.
Record t : Type := mk { id : option string; name : option string }.
End Label.

Module Draft.
Record t : Type := mk { id : option string }.
End Draft.

End Gmail.

(** The reply of the inference service to [chat.completions.create]:
    [choices[i].message.content] is a string or [null] ([None]). *)

Module OpenAI.

Module Message.
Record t : Type := mk { content : option string }.
End Message.

Module Choice.
Record t : Type := mk { message : Message.t }.
End Choice.

Module ChatCompletion.
Record t : Type := mk { choices : list Choice.t }.
End ChatCompletion.

End OpenAI.

Import Gmail.

(* ===================================================================== *)
(** * The agent *)
(* ===================================================================== *)

(** ** Events, the environment, the state *)

(** What the program asks of the outside, in the order it asks ([userId]
    is ['me'] in every mailbox call and is left out). *)
Inductive Event : Type :=
| console_log (entry : string)
| messages_list (q : string) (maxResults : Z)
| messages_get (id : option string) (format : string)
| drafts_create (threadId : option string) (raw : string)
| labels_list
| labels_create (name labelListVisibility messageListVisibility : string)
| messages_modify (id : option string) (addLabelIds : list (option string))
| chat_completions_create (model content : string) (temperature : float)
                          (max_tokens : option Z)
| setTimeout (ms : Z).

(** The environment: the clock, the [Buffer] decoder and the two remote
    services.  A service answers the history of events so far, the request
    being its last event, so a reply may depend on everything that
    happened before (a label created earlier is listed later). *)
Record World : Type := mkWorld {
  Date_toISOString : list Event -> string;
  Buffer_base64_toString : string -> string;
  messages_list_reply : list Event -> JS.completion (option (list Message.t));
  messages_get_reply : list Event -> JS.completion Message.t;
  drafts_create_reply : list Event -> JS.completion Draft.t;
  labels_list_reply : list Event -> JS.completion (option (list Label.t));
  labels_create_reply : list Event -> JS.completion Label.t;
  messages_modify_reply : list Event -> JS.completion unit;
  chat_completions_reply : list Event -> JS.completion OpenAI.ChatCompletion.t
}.

(** The module-level variables [processedEmails] and [logs], and the
    history of events. *)
Record State : Type := mkState {
  processedEmails : gset (option string);
  logs : list string;
  trace : list Event
}.

Definition initial : State := mkState ∅ [] [].

(** ** The effect monad: state and exceptions *)

Import JS.

Definition M (A : Type) : Type := State -> completion A * State.

Definition ret {A} (a : A) : M A := fun st => (Return a, st).

Definition throw {A} (e : exn) : M A := fun st => (Throw e, st).

Definition bind {A B} (c : M A) (k : A -> M B) : M B :=
  fun st =>
    match c st with
    | (Return a, st') => k a st'
    | (Throw e, st') => (Throw e, st')
    end.

(** [try { c } catch (error) { h error }]. *)
Definition try_catch {A} (c : M A) (h : exn -> M A) : M A :=
  fun st =>
    match c st with
    | (Return a, st') => (Return a, st')
    | (Throw e, st') => h e st'
    end.

(** A pure computation that may throw. *)
Definition lift {A} (c : completion A) : M A := fun st => (c, st).

Declare Scope js_scope.
Delimit Scope js_scope with js.
Notation "x <- c ;; k" := (bind c (fun x => k))
  (at level 100, c at next level, right associativity) : js_scope.
Notation "c ;; k" := (bind c (fun _ => k))
  (at level 100, right associativity) : js_scope.
Open Scope js_scope.

Definition record (e : Event) (st : State) : State :=
  mkState (processedEmails st) (logs st) (trace st ++ [e]).

(** An event with no answer. *)
Definition emit (e : Event) : M unit := fun st => (Return tt, record e st).

(** [await] of a request: the event is recorded and the service answers
    the history. *)
Definition request {A} (e : Event) (reply : list Event -> completion A) : M A :=
  fun st => (reply (trace st ++ [e])%list, record e st).

Definition get_state : M State := fun st => (Return st, st).

(** ** [log] (lines 22-28) *)

(** [logs.push(logEntry); if (logs.length > 100) logs.shift()]. *)
Definition push_log (logEntry : string) (l : list string) : list string :=
  let l' := (l ++ [logEntry])%list in
  if (100 <? List.length l')%nat then List.tl l' else l'.

Definition logged (w : World) (message : string) (st : State) : State :=
  let timestamp := Date_toISOString w (trace st) in
  let logEntry := "[" ++ timestamp ++ "] " ++ message in
  mkState (processedEmails st) (push_log logEntry (logs st))
          (trace st ++ [console_log logEntry]).

Definition log (w : World) (message : string) : M unit :=
  fun st => (Return tt, logged w message st).

(** ** [analyzeEmailContent] (lines 31-69) *)

Definition analysis_prompt (subject body : string) : string :=
  "Analyze this email to determine if the sender is inquiring about business services, products, or is a potential lead.

Subject: " ++ subject ++ "
Body: " ++ body ++ "

Respond with a JSON object containing:
- " ++ dq ++ "isLead" ++ dq ++ ": boolean (true if this appears to be a service inquiry or potential business lead)
- " ++ dq ++ "confidence" ++ dq ++ ": number (0-1, how confident you are)
- " ++ dq ++ "reason" ++ dq ++ ": string (brief explanation of why this is/isn't a lead)
- " ++ dq ++ "keywords" ++ dq ++ ": array of relevant keywords found

Consider these as potential lead indicators:
- Asking about services, products, pricing
- Requesting quotes or information
- Business inquiries
- Partnership opportunities
- Questions about capabilities

Exclude:
- Personal emails
- Spam/promotional emails
- Newsletters
- Social notifications
- Internal communications".

(** [response.choices[0].message.content]. *)
Definition first_content (response : OpenAI.ChatCompletion.t)
  : completion (option string) :=
  match OpenAI.ChatCompletion.choices response with
  | [] => Throw (TypeError_read "undefined" "message")
  | choice :: _ => Return (OpenAI.Message.content (OpenAI.Choice.message choice))
  end.

(** ToString of a [string | null] argument. *)
Definition text_of (content : option string) : string :=
  match content with
  | Some s => s
  | None => "null"
  end.

(** The verdict returned when the classification fails (line 67). *)
Definition fallback_verdict : value :=
  JObj [("isLead", JBool false); ("confidence", JNum 0);
        ("reason", JStr "Analysis failed"); ("keywords", JArr [])].

Definition analyzeEmailContent (w : World) (subject body : string) : M value :=
  try_catch
    (let prompt := analysis_prompt subject body in
     response <- request (chat_completions_create "gpt-3.5-turbo" prompt 0.3 None)
                         (chat_completions_reply w) ;;
     content <- lift (first_content response) ;;
     lift (JSON_parse (text_of content)))
    (fun error =>
       log w ("Error analyzing email content: " ++ message error) ;;
       ret fallback_verdict).

(** ** [generateDraftResponse] (lines 72-116) *)

Record InboundMessage : Type := mkInbound {
  subject : string;
  from : string;
  to : string;
  body : string
}.

Definition lead_prompt (originalEmail : InboundMessage) : string :=
  "Generate a professional, friendly draft response to this potential business lead inquiry:

Original Email Subject: " ++ subject originalEmail ++ "
Original Email: " ++ body originalEmail ++ "
Sender: " ++ from originalEmail ++ "

Create a response that:
- Thanks them for their interest
- Acknowledges their specific inquiry
- Provides helpful information about your services
- Includes a call to action (meeting, call, more info)
- Maintains a professional but warm tone
- Is concise but informative

Do not include placeholder company information - keep it generic but professional.".

Definition other_prompt (originalEmail : InboundMessage) : string :=
  "Generate a brief, polite response to this email:

Original Email Subject: " ++ subject originalEmail ++ "
Original Email: " ++ body originalEmail ++ "
Sender: " ++ from originalEmail ++ "

Create a short, courteous response that:
- Acknowledges their message
- Is helpful and professional
- Keeps it brief since this isn't a business inquiry".

Definition lead_fallback : string :=
  "Thank you for your inquiry about our services. I'll get back to you shortly with more information.".

Definition other_fallback : string :=
  "Thank you for your email. I'll review it and get back to you if needed.".

(** The draft is what the completion carries, a string or [null]. *)
Definition generateDraftResponse (w : World) (originalEmail : InboundMessage)
           (isLead : value) (analysis : value) : M (option string) :=
  try_catch
    (let prompt := if truthy isLead then lead_prompt originalEmail
                   else other_prompt originalEmail in
     response <- request (chat_completions_create "gpt-3.5-turbo" prompt 0.7 (Some 300))
                         (chat_completions_reply w) ;;
     lift (first_content response))
    (fun error =>
       log w ("Error generating draft response: " ++ message error) ;;
       ret (Some (if truthy isLead then lead_fallback else other_fallback))).

(** ** [createDraftResponse] (lines 119-145) *)

(** ToString of a [string | undefined] in a template literal. *)
Definition show (x : option string) : string :=
  match x with
  | Some s => s
  | None => "undefined"
  end.

(** An element of an array under [join]: [null] and [undefined] give the
    empty string. *)
Definition joined (x : option string) : string :=
  match x with
  | Some s => s
  | None => ""
  end.

Definition envelope (originalMessageId : option string) (to subject : string)
           (body : option string) : string :=
  join CRLF [ "To: " ++ to;
              "Subject: Re: " ++ subject;
              "In-Reply-To: " ++ show originalMessageId;
              "References: " ++ show originalMessageId;
              "";
              joined body ].

Definition createDraftResponse (w : World) (originalMessageId : option string)
           (to subject : string) (body : option string) (threadId : option string)
  : M Draft.t :=
  try_catch
    (let raw := url_safe (base64_encode (envelope originalMessageId to subject body)) in
     request (drafts_create threadId raw) (drafts_create_reply w))
    (fun error =>
       log w ("Error creating draft response: " ++ message error) ;;
       throw error).

(** ** [addLabelToEmail] (lines 148-187) *)

Definition find_label (labelName : string) (labels : list Label.t) : option Label.t :=
  List.find (fun label => match Label.name label with
                          | Some n => String.eqb n labelName
                          | None => false
                          end) labels.

(** [labels.data.labels.find(...)]. *)
Definition existing_label (labelName : string) (labels : option (list Label.t))
  : completion (option Label.t) :=
  match labels with
  | None => Throw (TypeError_read "undefined" "find")
  | Some l => Return (find_label labelName l)
  end.

Definition addLabelToEmail (w : World) (messageId : option string) (labelName : string)
  : M unit :=
  try_catch
    (resolved <-
       try_catch
         (labels <- request labels_list (labels_list_reply w) ;;
          existingLabel <- lift (existing_label labelName labels) ;;
          match existingLabel with
          | Some label => ret (Some (Label.id label))
          | None =>
              newLabel <- request (labels_create labelName "labelShow" "show")
                                  (labels_create_reply w) ;;
              ret (Some (Label.id newLabel))
          end)
         (fun error =>
            log w ("Error managing label: " ++ message error) ;;
            ret None) ;;
     match resolved with
     | None => ret tt
     | Some labelId =>
         request (messages_modify messageId [labelId]) (messages_modify_reply w) ;;
         log w ("Added label " ++ dq ++ labelName ++ dq ++ " to message "
                  ++ show messageId)
     end)
    (fun error => log w ("Error adding label to email: " ++ message error)).

(** ** [processEmail] (lines 190-258) *)

(** The message decoder, lines 198-212. *)

(** [headers.find(h => h.name === n)?.value || '']. *)
Definition header (n : string) (headers : list Header.t) : string :=
  match List.find (fun h => match Header.name h with
                            | Some x => String.eqb x n
                            | None => false
                            end) headers with
  | Some h => match Header.value h with
              | Some v => v
              | None => ""
              end
  | None => ""
  end.

(** A [data] field that is present and not the empty string. *)
Definition truthy_data (data : option string) : option string :=
  match data with
  | Some d => if String.eqb d "" then None else Some d
  | None => None
  end.

Definition is_text_plain (part : Part.t) : bool :=
  match Part.mimeType part with
  | Some m => String.eqb m "text/plain"
  | None => false
  end.

Definition decode (w : World) (fullMessage : Message.t) : completion InboundMessage :=
  match Message.payload fullMessage with
  | None => Throw (TypeError_read "undefined" "headers")
  | Some payload =>
      match Payload.headers payload with
      | None => Throw (TypeError_read "undefined" "find")
      | Some headers =>
          let subject := header "Subject" headers in
          let from := header "From" headers in
          let to := header "To" headers in
          match Payload.body payload with
          | None => Throw (TypeError_read "undefined" "data")
          | Some b =>
              match truthy_data (Body.data b) with
              | Some d =>
                  Return (mkInbound subject from to (Buffer_base64_toString w d))
              | None =>
                  match Payload.parts payload with
                  | Some parts =>
                      match List.find is_text_plain parts with
                      | None => Return (mkInbound subject from to "")
                      | Some textPart =>
                          match Part.body textPart with
                          | None => Throw (TypeError_read "undefined" "data")
                          | Some tb =>
                              match truthy_data (Body.data tb) with
                              | Some d =>
                                  Return (mkInbound subject from to
                                                    (Buffer_base64_toString w d))
                              | None => Return (mkInbound subject from to "")
                              end
                          end
                      end
                  | None => Return (mkInbound subject from to "")
                  end
              end
          end
      end
  end.

(** Line 218: [analysis.isLead && analysis.confidence > 0.6].  The value of
    [a && b] is [a] itself when [a] is falsy. *)
Definition effective_lead (analysis : value) : completion value :=
  match Get analysis "isLead" with
  | Throw e => Throw e
  | Return l =>
      if truthy l then
        match Get analysis "confidence" with
        | Throw e => Throw e
        | Return c =>
            match greater_than c 0.6 with
            | Throw e => Throw e
            | Return b => Return (JBool b)
            end
        end
      else Return l
  end.

(** [{ success: true, ... }] or [{ success: false, error }]. *)
Inductive ProcessingResult : Type :=
| Success (messageId : option string) (from subject : string)
          (isLead confidence : value) (label : string)
| Failure (error : string).

Definition success (r : ProcessingResult) : bool :=
  match r with
  | Success _ _ _ _ _ _ => true
  | Failure _ => false
  end.

(** The template literal of line 220. *)
Definition analysis_line (isLead confidence reason : value) : completion string :=
  match ToString isLead with
  | Throw e => Throw e
  | Return l =>
      match ToString confidence with
      | Throw e => Throw e
      | Return c =>
          match ToString reason with
          | Throw e => Throw e
          | Return r =>
              Return ("Email analysis - Lead: " ++ l ++ ", Confidence: " ++ c
                        ++ ", Reason: " ++ r)
          end
      end
  end.

(** The [try] block of [processEmail]. *)
Definition processEmail_try (w : World) (message : Message.t) : M ProcessingResult :=
  fullMessage <- request (messages_get (Message.id message) "full")
                         (messages_get_reply w) ;;
  email <- lift (decode w fullMessage) ;;
  log w ("Processing email from " ++ from email ++ ": " ++ subject email) ;;
  analysis <- analyzeEmailContent w (subject email) (body email) ;;
  isLead <- lift (effective_lead analysis) ;;
  confidence <- lift (Get analysis "confidence") ;;
  reason <- lift (Get analysis "reason") ;;
  line <- lift (analysis_line isLead confidence reason) ;;
  log w line ;;
  draftBody <- generateDraftResponse w email isLead analysis ;;
  createDraftResponse w (Message.id message) (from email) (subject email) draftBody
                      (Message.threadId fullMessage) ;;
  let labelName := if truthy isLead then "lead" else "other" in
  addLabelToEmail w (Message.id message) labelName ;;
  log w ("Successfully processed email " ++ show (Message.id message)
           ++ " - Created draft and added " ++ dq ++ labelName ++ dq ++ " label") ;;
  ret (Success (Message.id message) (from email) (subject email) isLead confidence
               labelName).

Definition processEmail (w : World) (message : Message.t) : M ProcessingResult :=
  try_catch
    (processEmail_try w message)
    (fun error =>
       log w ("Error processing email " ++ show (Message.id message) ++ ": "
                ++ JS.message error) ;;
       ret (Failure (JS.message error))).

(** ** [monitorEmails] (lines 261-301) *)

Record CycleReport : Type := mkReport {
  processed : nat;
  results : list ProcessingResult
}.

(** [response.data.messages.filter(msg => !processedEmails.has(msg.id))]. *)
Definition unprocessed (ledger : gset (option string)) (messages : list Message.t)
  : list Message.t :=
  List.filter (fun msg => negb (bool_decide (Message.id msg ∈ ledger))) messages.

Definition add_processed (id : option string) : M unit :=
  fun st => (Return tt,
             mkState ({[ id ]} ∪ processedEmails st) (logs st) (trace st)).

(** The [for (const email of newEmails)] loop; [results] is the array
    built so far. *)
Fixpoint process_each (w : World) (newEmails : list Message.t)
         (results : list ProcessingResult) : M (list ProcessingResult) :=
  match newEmails with
  | [] => ret results
  | email :: rest =>
      result <- processEmail w email ;;
      let results := (results ++ [result])%list in
      add_processed (Message.id email) ;;
      emit (setTimeout 1000) ;;
      process_each w rest results
  end.

Definition monitorEmails (w : World) : M CycleReport :=
  try_catch
    (log w "Checking for new emails..." ;;
     messages <- request (messages_list "is:unread" 10) (messages_list_reply w) ;;
     match messages with
     | None =>
         log w "No new emails found" ;;
         ret (mkReport 0 [])
     | Some messages =>
         st <- get_state ;;
         let newEmails := unprocessed (processedEmails st) messages in
         match newEmails with
         | [] =>
             log w "No new unprocessed emails found" ;;
             ret (mkReport 0 [])
         | _ :: _ =>
             log w ("Found " ++ string_of_nat (List.length newEmails)
                      ++ " new emails to process") ;;
             results <- process_each w newEmails [] ;;
             ret (mkReport (List.length newEmails) results)
         end
     end)
    (fun error =>
       log w ("Error monitoring emails: " ++ message error) ;;
       throw error).

(** ** The HTTP surface *)

(** [logs.slice(-n)]: the last [n] elements, all of them when there are
    fewer. *)
Definition slice_last {A} (n : nat) (l : list A) : list A :=
  List.skipn (List.length l - n) l.

Record LogsResponse : Type := mkLogsResponse {
  logs_field : list string;
  total : nat
}.

(** [GET /logs] (lines 331-336). *)
Definition GET_logs (st : State) : LogsResponse :=
  mkLogsResponse (slice_last 50 (logs st)) (List.length (logs st)).

(** The [stats] of [GET /] (lines 316-319) and [GET /health]. *)
Definition stats (st : State) : nat * nat :=
  (size (processedEmails st), List.length (logs st)).

(* ===================================================================== *)
(** * Vocabulary of the statements *)
(* ===================================================================== *)

Close Scope Z_scope.

(** The entries written to the console, oldest first: every entry ever
    logged, whether the [logs] array still holds it or not. *)
Fixpoint console_entries (tr : list Event) : list string :=
  match tr with
  | [] => []
  | console_log entry :: r => entry :: console_entries r
  | _ :: r => console_entries r
  end.

Definition is_console (e : Event) : bool :=
  match e with
  | console_log _ => true
  | _ => false
  end.

(** The [logs] array holds at most 100 entries. *)
Definition bounded (st : State) : Prop := List.length (logs st) <= 100.

(** The [logs] array holds the last 100 entries ever logged. *)
Definition consistent (st : State) : Prop :=
  logs st = slice_last 100 (console_entries (trace st)).

(** [Step P st st']: from [st] to [st'] the ledger is untouched, the trace
    grew by events that satisfy [P], and the two properties of the log store
    are kept. *)
Record Step (P : Event -> Prop) (st st' : State) : Prop := mkStep {
  step_ledger : processedEmails st' = processedEmails st;
  step_trace : exists evs, trace st' = (trace st ++ evs)%list /\ Forall P evs;
  step_bounded : bounded st -> bounded st';
  step_consistent : consistent st -> consistent st'
}.

(** [keeps R c]: running [c] relates the state before to the state after,
    whether [c] returns or throws. *)
Definition keeps {A} (R : State -> State -> Prop) (c : M A) : Prop :=
  forall st, R st (snd (c st)).

(** [never_throws c]: [c] returns normally from every state. *)
Definition never_throws {A} (c : M A) : Prop :=
  forall st, exists a, fst (c st) = Return a.

(** Events of the inference gateway and the console. *)
Definition inference_event (e : Event) : Prop :=
  match e with
  | console_log _ | chat_completions_create _ _ _ _ => True
  | _ => False
  end.

(** Events of labelling message [i]. *)
Definition label_event (i : option string) (e : Event) : Prop :=
  match e with
  | console_log _ | labels_list | labels_create _ _ _ => True
  | messages_modify i' _ => i' = i
  | _ => False
  end.

(** What [processEmail] may do for candidate [i] after fetching it: talk to
    the inference gateway, create a draft in reply to [i], label [i]. *)
Definition tail_event (i : option string) (e : Event) : Prop :=
  match e with
  | console_log _ | chat_completions_create _ _ _ _
  | labels_list | labels_create _ _ _ => True
  | drafts_create _ raw =>
      exists to subject body,
        raw = url_safe (base64_encode (envelope i to subject body))
  | messages_modify i' _ => i' = i
  | _ => False
  end.

(** The events of the [for] loop over [candidates]: for each of them, in
    order, its fetch, then events on its behalf, then the pacing timer. *)
Inductive cycle_trace : list Message.t -> list Event -> Prop :=
| cycle_done : cycle_trace [] []
| cycle_next m ms evs rest :
    Forall (tail_event (Message.id m)) evs ->
    cycle_trace ms rest ->
    cycle_trace (m :: ms)
                (messages_get (Message.id m) "full" :: evs ++ setTimeout 1000 :: rest).

(** The events before the loop: the listing and the console. *)
Definition header_event (e : Event) : Prop :=
  match e with
  | console_log _ | messages_list _ _ => True
  | _ => False
  end.

Definition fetched (evs : list Event) : list (option string) :=
  flat_map (fun e => match e with
                     | messages_get i _ => [i]
                     | _ => []
                     end) evs.

Definition ids (ms : list Message.t) : list (option string) := List.map Message.id ms.

(** An event that names a message by id names one of [candidates]; no
    event is a listing. *)
Definition addressed_to (candidates : list (option string)) (e : Event) : Prop :=
  match e with
  | messages_get i _ | messages_modify i _ => In i candidates
  | drafts_create _ raw =>
      exists i to subject body,
        In i candidates
        /\ raw = url_safe (base64_encode (envelope i to subject body))
  | messages_list _ _ => False
  | _ => True
  end.

(** The state in which the listing of a cycle is answered. *)
Definition listing_state (w : World) (st : State) : State :=
  record (messages_list "is:unread" 10) (logged w "Checking for new emails..." st).

Definition is_draft (e : Event) : bool :=
  match e with
  | drafts_create _ _ => true
  | _ => false
  end.

Definition no_draft (e : Event) : Prop := is_draft e = false.

(** The event fetches message [i] or labels it. *)
Definition mentions (i : option string) (e : Event) : Prop :=
  match e with
  | messages_get i' _ | messages_modify i' _ => i' = i
  | _ => False
  end.

(** ** The runs of [processEmail]

    [processEmail_outcome w message st result st']: the six ways a run of
    [processEmail] from [st] ends, by the step that failed, each with the
    result it returns and the state it leaves. *)

Definition fetch (message : Message.t) : Event :=
  messages_get (Message.id message) "full".

(** The state after the [catch] block of [processEmail]. *)
Definition caught (w : World) (message : Message.t) (e : exn) (st : State) : State :=
  logged w ("Error processing email " ++ show (Message.id message) ++ ": "
              ++ JS.message e) st.

Definition announced (w : World) (email : InboundMessage) (st : State) : State :=
  logged w ("Processing email from " ++ from email ++ ": " ++ subject email) st.

(** The state after the log of line 220, [line] being its text. *)
Definition analysed (w : World) (line : string) (st : State) : State :=
  logged w line st.

Definition draft_request (message fullMessage : Message.t) (email : InboundMessage)
           (draftBody : option string) : Event :=
  drafts_create (Message.threadId fullMessage)
                (url_safe (base64_encode
                             (envelope (Message.id message) (from email)
                                       (subject email) draftBody))).

Definition label_of (isLead : value) : string :=
  if truthy isLead then "lead" else "other".

Inductive processEmail_outcome (w : World) (message : Message.t) (st : State)
  : ProcessingResult -> State -> Prop :=
| fetch_failed e :
    messages_get_reply w (trace (record (fetch message) st)) = Throw e ->
    processEmail_outcome w message st (Failure (JS.message e))
                         (caught w message e (record (fetch message) st))
| decode_failed fullMessage e :
    messages_get_reply w (trace (record (fetch message) st)) = Return fullMessage ->
    decode w fullMessage = Throw e ->
    processEmail_outcome w message st (Failure (JS.message e))
                         (caught w message e (record (fetch message) st))
| verdict_failed fullMessage email analysis st3 e :
    messages_get_reply w (trace (record (fetch message) st)) = Return fullMessage ->
    decode w fullMessage = Return email ->
    analyzeEmailContent w (subject email) (body email)
                        (announced w email (record (fetch message) st))
    = (Return analysis, st3) ->
    effective_lead analysis = Throw e ->
    processEmail_outcome w message st (Failure (JS.message e)) (caught w message e st3)
| report_failed fullMessage email analysis st3 isLead confidence reason e :
    messages_get_reply w (trace (record (fetch message) st)) = Return fullMessage ->
    decode w fullMessage = Return email ->
    analyzeEmailContent w (subject email) (body email)
                        (announced w email (record (fetch message) st))
    = (Return analysis, st3) ->
    effective_lead analysis = Return isLead ->
    Get analysis "confidence" = Return confidence ->
    Get analysis "reason" = Return reason ->
    analysis_line isLead confidence reason = Throw e ->
    processEmail_outcome w message st (Failure (JS.message e)) (caught w message e st3)
| draft_failed fullMessage email analysis st3 isLead confidence reason line draftBody st5 e :
    messages_get_reply w (trace (record (fetch message) st)) = Return fullMessage ->
    decode w fullMessage = Return email ->
    analyzeEmailContent w (subject email) (body email)
                        (announced w email (record (fetch message) st))
    = (Return analysis, st3) ->
    effective_lead analysis = Return isLead ->
    Get analysis "confidence" = Return confidence ->
    Get analysis "reason" = Return reason ->
    analysis_line isLead confidence reason = Return line ->
    generateDraftResponse w email isLead analysis (analysed w line st3)
    = (Return draftBody, st5) ->
    drafts_create_reply
      w (trace (record (draft_request message fullMessage email draftBody) st5))
    = Throw e ->
    processEmail_outcome
      w message st (Failure (JS.message e))
      (caught w message e
              (logged w ("Error creating draft response: " ++ JS.message e)
                      (record (draft_request message fullMessage email draftBody) st5)))
| dispatched fullMessage email analysis st3 isLead confidence reason line draftBody st5 d st7 :
    messages_get_reply w (trace (record (fetch message) st)) = Return fullMessage ->
    decode w fullMessage = Return email ->
    analyzeEmailContent w (subject email) (body email)
                        (announced w email (record (fetch message) st))
    = (Return analysis, st3) ->
    effective_lead analysis = Return isLead ->
    Get analysis "confidence" = Return confidence ->
    Get analysis "reason" = Return reason ->
    analysis_line isLead confidence reason = Return line ->
    generateDraftResponse w email isLead analysis (analysed w line st3)
    = (Return draftBody, st5) ->
    drafts_create_reply
      w (trace (record (draft_request message fullMessage email draftBody) st5))
    = Return d ->
    addLabelToEmail w (Message.id message) (label_of isLead)
                    (record (draft_request message fullMessage email draftBody) st5)
    = (Return tt, st7) ->
    processEmail_outcome
      w message st
      (Success (Message.id message) (from email) (subject email) isLead confidence
               (label_of isLead))
      (logged w ("Successfully processed email " ++ show (Message.id message)
                   ++ " - Created draft and added " ++ dq ++ label_of isLead ++ dq
                   ++ " label") st7).

(** ** The decoder's policy, in the specification's words

    Body: the inline payload if there is one; else the first sub-part whose
    content type is exactly [text/plain]; else the empty string. *)
Definition selected_body (w : World) (b : Body.t) (parts : option (list Part.t)) : string :=
  match truthy_data (Body.data b) with
  | Some d => Buffer_base64_toString w d
  | None =>
      match parts with
      | None => ""
      | Some l =>
          match List.find is_text_plain l with
          | None => ""
          | Some p =>
              match Part.body p with
              | None => ""
              | Some pb =>
                  match truthy_data (Body.data pb) with
                  | Some d => Buffer_base64_toString w d
                  | None => ""
                  end
              end
          end
      end
  end.

(** The payload carries the two containers the decoder reads without a
    guard, [headers] and [body], and so does the text part when the body is
    taken from it. *)
Definition well_shaped (hs : option (list Header.t)) (b : option Body.t)
           (parts : option (list Part.t)) : Prop :=
  hs <> None /\ b <> None
  /\ forall b0 l p,
       b = Some b0 -> truthy_data (Body.data b0) = None ->
       parts = Some l -> List.find is_text_plain l = Some p ->
       Part.body p <> None.

(** [LogStep st st']: the two properties of the log store are kept. *)
Definition LogStep (st st' : State) : Prop :=
  (bounded st -> bounded st') /\ (consistent st -> consistent st').

(** ** Concrete environments

    A scripted environment answers every request of a kind the same way;
    the two calls of the inference gateway are told apart by [max_tokens],
    which only the drafting call sets. *)

Record Script : Type := mkScript {
  listing : completion (option (list Message.t));
  fetching : option string -> completion Message.t;
  classifying : completion OpenAI.ChatCompletion.t;
  drafting : completion OpenAI.ChatCompletion.t;
  draft_creating : completion Draft.t;
  label_listing : completion (option (list Label.t));
  label_creating : completion Label.t;
  modifying : completion unit
}.

Definition scripted (s : Script) : World :=
  mkWorld
    (fun tr => "t" ++ string_of_nat (List.length tr))
    base64_decode
    (fun _ => listing s)
    (fun tr => match last tr with
               | Some (messages_get i _) => fetching s i
               | _ => Throw (mkExn "Error" "unexpected request")
               end)
    (fun _ => draft_creating s)
    (fun _ => label_listing s)
    (fun _ => label_creating s)
    (fun _ => modifying s)
    (fun tr => match last tr with
               | Some (chat_completions_create _ _ _ None) => classifying s
               | _ => drafting s
               end).

Definition completes (content : option string) : completion OpenAI.ChatCompletion.t :=
  Return (OpenAI.ChatCompletion.mk
            [OpenAI.Choice.mk (OpenAI.Message.mk content)]).

Definition quoted (s : string) : string := dq ++ s ++ dq.

(** [{"isLead":true,"confidence":c,"reason":"asks for a quote","keywords":[]}]
    with the text [c] for the confidence. *)
Definition verdict_text (c : string) : string :=
  "{" ++ quoted "isLead" ++ ":true," ++ quoted "confidence" ++ ":" ++ c ++ ","
      ++ quoted "reason" ++ ":" ++ quoted "asks for a quote" ++ ","
      ++ quoted "keywords" ++ ":[]}".

Definition sample_headers : list Header.t :=
  [ Header.mk (Some "From") (Some "ann@example.com");
    Header.mk (Some "To") (Some "me@example.com");
    Header.mk (Some "Subject") (Some "Pricing") ].

(** A multipart message: no inline body, an HTML part, then a plain-text
    part whose data is the base64 of [Hello]. *)
Definition sample_message (i : option string) : Message.t :=
  Message.mk i (Some "thread-1")
    (Some (Payload.mk (Some sample_headers) (Some (Body.mk None))
             (Some [ Part.mk (Some "text/html") (Some (Body.mk (Some "PGI+SGk8L2I+")));
                     Part.mk (Some "text/plain") (Some (Body.mk (Some "SGVsbG8="))) ]))).

Definition stub (i : string) : Message.t := Message.mk (Some i) None None.

(** Everything succeeds: three unread messages, a confident verdict, a
    draft, the label already there. *)
Definition happy : Script :=
  mkScript
    (Return (Some [stub "a"; stub "b"; stub "c"]))
    (fun i => Return (sample_message i))
    (completes (Some (verdict_text "0.9")))
    (completes (Some "Thank you for reaching out."))
    (Return (Draft.mk (Some "draft-1")))
    (Return (Some [Label.mk (Some "Label_1") (Some "lead")]))
    (Return (Label.mk (Some "Label_2") (Some "other")))
    (Return tt).

Definition with_classifying (c : completion OpenAI.ChatCompletion.t) (s : Script)
  : Script :=
  mkScript (listing s) (fetching s) c (drafting s) (draft_creating s)
           (label_listing s) (label_creating s) (modifying s).

Definition with_drafting (c : completion OpenAI.ChatCompletion.t) (s : Script)
  : Script :=
  mkScript (listing s) (fetching s) (classifying s) c (draft_creating s)
           (label_listing s) (label_creating s) (modifying s).

Definition with_label_listing (c : completion (option (list Label.t))) (s : Script)
  : Script :=
  mkScript (listing s) (fetching s) (classifying s) (drafting s) (draft_creating s)
           c (label_creating s) (modifying s).

Definition with_fetching (f : option string -> completion Message.t) (s : Script)
  : Script :=
  mkScript (listing s) f (classifying s) (drafting s) (draft_creating s)
           (label_listing s) (label_creating s) (modifying s).

(** The fetch of message [b] fails; the label listing fails. *)
Definition fetch_fails_for_b : Script :=
  with_fetching (fun i => match i with
                          | Some "b" => Throw (mkExn "Error" "Requested entity was not found.")
                          | _ => Return (sample_message i)
                          end) happy.

Definition labels_unavailable : Script :=
  with_label_listing (Throw (mkExn "Error" "Backend Error")) happy.

(** No label exists yet and the mailbox refuses to create one. *)
Definition label_creation_refused : Script :=
  mkScript (listing happy) (fetching happy) (classifying happy) (drafting happy)
           (draft_creating happy) (Return (Some []))
           (Throw (mkExn "Error" "Quota exceeded")) (modifying happy).

(** [n] entries logged one after the other. *)
Fixpoint log_many (w : World) (n : nat) (st : State) : State :=
  match n with
  | O => st
  | S k => logged w ("entry " ++ string_of_nat k) (log_many w k st)
  end.

(* ===================================================================== *)
(** * The HTTP surface and the scheduler (lines 304-387) *)
(* ===================================================================== *)

(** [new Date().toISOString()]. *)
Definition now (w : World) : M string :=
  fun st => (Return (Date_toISOString w (trace st)), st).

(** [GET /] (lines 304-321). *)
Record RootResponse : Type := mkRoot {
  root_status : string;
  service : string;
  description : string;
  endpoints : list (string * string);
  root_stats : nat * nat
}.

Definition GET_root (st : State) : RootResponse :=
  mkRoot "running" "Email Lead Monitor"
         "Monitors emails 24/7, identifies leads, creates draft responses, and adds labels"
         [ ("GET /", "Service status and endpoints");
           ("GET /health", "Health check");
           ("GET /logs", "View recent logs");
           ("POST /test", "Test email monitoring manually");
           ("POST /monitor", "Run email monitoring cycle") ]
         (stats st).

(** [GET /health] (lines 323-329). *)
Record HealthResponse : Type := mkHealth {
  health_status : string;
  health_timestamp : string;
  health_processedEmails : nat
}.

Definition GET_health (w : World) (st : State) : HealthResponse :=
  mkHealth "healthy" (Date_toISOString w (trace st)) (size (processedEmails st)).

(** What [POST /test] and [POST /monitor] answer: status 200 with
    [{success: true, timestamp, processed, results}], or status 500 with
    [{success: false, error, timestamp}]. *)
Inductive PostResponse : Type :=
| Completed (timestamp : string) (processed : nat) (results : list ProcessingResult)
| Failed (error : string) (timestamp : string).

Definition http_status (r : PostResponse) : nat :=
  match r with
  | Completed _ _ _ => 200
  | Failed _ _ => 500
  end.

(** [POST /test] (lines 338-354). *)
Definition POST_test (w : World) : M PostResponse :=
  try_catch
    (log w "Manual test triggered" ;;
     result <- monitorEmails w ;;
     timestamp <- now w ;;
     ret (Completed timestamp (processed result) (results result)))
    (fun error =>
       timestamp <- now w ;;
       ret (Failed (message error) timestamp)).

(** [POST /monitor] (lines 356-372). *)
Definition POST_monitor (w : World) : M PostResponse :=
  try_catch
    (result <- monitorEmails w ;;
     timestamp <- now w ;;
     ret (Completed timestamp (processed result) (results result)))
    (fun error =>
       log w ("Monitor endpoint error: " ++ message error) ;;
       timestamp <- now w ;;
       ret (Failed (message error) timestamp)).

(** The callback of [setInterval], every two minutes (lines 375-381). *)
Definition interval_tick (w : World) : M unit :=
  try_catch
    (monitorEmails w ;; ret tt)
    (fun error => log w ("Scheduled monitoring error: " ++ message error)).

(** [process.env.PORT || 3000], as the template literal shows it. *)
Definition PORT (env_PORT : option string) : string :=
  match env_PORT with
  | Some p => if String.eqb p "" then "3000" else p
  | None => "3000"
  end.

(** The callback of [app.listen] (lines 384-387). *)
Definition on_listen (w : World) (env_PORT : option string) : M unit :=
  log w ("Email Lead Monitor agent started on port " ++ PORT env_PORT) ;;
  log w "Monitoring emails every 2 minutes...".

(** The states of a running service whose cycles do not overlap: the
    start, then timer ticks and the two POST handlers, one after the
    other.  (The GET handlers leave the state as it is.) *)
Inductive running (w : World) (env_PORT : option string) : State -> Prop :=
| started : running w env_PORT (snd (on_listen w env_PORT initial))
| ticked st : running w env_PORT st -> running w env_PORT (snd (interval_tick w st))
| tested st : running w env_PORT st -> running w env_PORT (snd (POST_test w st))
| monitored st : running w env_PORT st -> running w env_PORT (snd (POST_monitor w st)).

(** ** More vocabulary *)

(** What the classifier gets out of the gateway's answer to the history
    [tr]: the parsed reply, or the error of the call, of the missing
    choice or of the parse. *)
Definition classification (w : World) (tr : list Event) : completion value :=
  match chat_completions_reply w tr with
  | Throw e => Throw e
  | Return response =>
      match first_content response with
      | Throw e => Throw e
      | Return content => JSON_parse (text_of content)
      end
  end.

Definition analysis_request (email : InboundMessage) : Event :=
  chat_completions_create "gpt-3.5-turbo"
                          (analysis_prompt (subject email) (body email)) 0.3 None.

Definition drafting_request (email : InboundMessage) (isLead : value) : Event :=
  chat_completions_create "gpt-3.5-turbo"
                          (if truthy isLead then lead_prompt email else other_prompt email)
                          0.7 (Some 300%Z).

(** The kinds of request, the console left out. *)
Inductive Call : Type :=
| Listing | Fetch | Inference | DraftCreate | LabelList | LabelCreate | LabelApply | Timer.

Definition call_of (e : Event) : option Call :=
  match e with
  | console_log _ => None
  | messages_list _ _ => Some Listing
  | messages_get _ _ => Some Fetch
  | drafts_create _ _ => Some DraftCreate
  | labels_list => Some LabelList
  | labels_create _ _ _ => Some LabelCreate
  | messages_modify _ _ => Some LabelApply
  | chat_completions_create _ _ _ _ => Some Inference
  | setTimeout _ => Some Timer
  end.

(** The requests of a stretch of the trace, in order. *)
Fixpoint calls (evs : list Event) : list Call :=
  match evs with
  | [] => []
  | e :: r => match call_of e with
              | Some c => c :: calls r
              | None => calls r
              end
  end.

Definition Call_eqb (a b : Call) : bool :=
  match a, b with
  | Listing, Listing | Fetch, Fetch | Inference, Inference
  | DraftCreate, DraftCreate | LabelList, LabelList | LabelCreate, LabelCreate
  | LabelApply, LabelApply | Timer, Timer => true
  | _, _ => false
  end.

(** How many requests of kind [c] a list of requests holds. *)
Definition tally (c : Call) (l : list Call) : nat :=
  List.length (List.filter (Call_eqb c) l).

(** The request sequences of one message: the pipeline stops at the step
    that failed; labelling stops where it failed and creates the label
    only when it is missing. *)
Definition message_calls : list (list Call) :=
  [ [Fetch];
    [Fetch; Inference];
    [Fetch; Inference; Inference; DraftCreate];
    [Fetch; Inference; Inference; DraftCreate; LabelList];
    [Fetch; Inference; Inference; DraftCreate; LabelList; LabelApply];
    [Fetch; Inference; Inference; DraftCreate; LabelList; LabelCreate];
    [Fetch; Inference; Inference; DraftCreate; LabelList; LabelCreate; LabelApply] ].

Definition is_labelling (e : Event) : bool :=
  match e with
  | labels_list | labels_create _ _ _ | messages_modify _ _ => true
  | _ => false
  end.

(** The ledger holds exactly the ids fetched so far, each fetched once. *)
Definition ledger_exact (st : State) : Prop :=
  processedEmails st = list_to_set (fetched (trace st))
  /\ NoDup (fetched (trace st)).

(** No listing of the mailbox repeats an id. *)
Definition listings_distinct (w : World) : Prop :=
  forall tr messages,
    messages_list_reply w tr = Return (Some messages) -> NoDup (ids messages).

(** The surrogate that [s] starts with, if it starts with one. *)
Definition surrogate_at (s : string) : option Z :=
  match s with
  | String a (String b (String c _)) => surrogate a b c
  | _ => None
  end.

(** No surrogate is kept anywhere in [s]. *)
Fixpoint no_surrogate (s : string) : bool :=
  match s with
  | EmptyString => true
  | String _ t =>
      match surrogate_at s with
      | Some _ => false
      | None => no_surrogate t
      end
  end.

(** Every character is a letter, a digit, [-], [_] or [=]. *)
Fixpoint url_safe_text (s : string) : bool :=
  match s with
  | EmptyString => true
  | String c r =>
      let b := code c in
      (((65 <=? b) && (b <=? 90)) || ((97 <=? b) && (b <=? 122))
       || ((48 <=? b) && (b <=? 57)) || (b =? 45) || (b =? 95) || (b =? 61))%Z
      && url_safe_text r
  end.

(** The first two lines on the console. *)
Definition started_with (w : World) (env_PORT : option string) (st : State) : Prop :=
  exists rest,
    console_entries (trace st)
    = ("[" ++ Date_toISOString w [] ++ "] Email Lead Monitor agent started on port "
           ++ PORT env_PORT)
        :: ("[" ++ Date_toISOString
                     w (trace (logged w ("Email Lead Monitor agent started on port "
                                           ++ PORT env_PORT) initial))
                ++ "] Monitoring emails every 2 minutes...") :: rest.

(** The requests of the loop: one sequence per candidate, each followed by
    the pacing timer. *)
Definition paced (ks : list (list Call)) : list Call :=
  List.concat (List.map (fun k => k ++ [Timer])%list ks).

(** ** More concrete environments *)

Definition with_draft_creating (c : completion Draft.t) (s : Script) : Script :=
  mkScript (listing s) (fetching s) (classifying s) (drafting s) c
           (label_listing s) (label_creating s) (modifying s).

(** The mailbox refuses drafts; the classifier is out of reach. *)
Definition drafts_unavailable : Script :=
  with_draft_creating (Throw (mkExn "Error" "Insufficient Permission")) happy.

Definition classifier_down : Script :=
  with_classifying (Throw (mkExn "Error" "429 Rate limit reached")) happy.

(** The decoded form of [sample_message]. *)
Definition sample_email : InboundMessage :=
  mkInbound "Pricing" "ann@example.com" "me@example.com" "Hello".

(** The service after start-up and one tick of the timer. *)
Definition after_one_tick (w : World) : State :=
  snd (interval_tick w (snd (on_listen w None initial))).

(* ===================================================================== *)
(** * Theorems *)
(* ===================================================================== *)

Set Warnings "-clear-no-such-hyp".

(* ===================================================================== *)
(** * The runtime at work *)
(* ===================================================================== *)

(** The decimal reader agrees with the literals of the kernel, the tie at
    [0.6] included. *)
Example float_of_decimal_examples :
  float_of_decimal 6 (-1) = 0.6%float
  /\ float_of_decimal 15 (-1) = 1.5%float
  /\ float_of_decimal 60000000000000001 (-17) = 0.6%float
  /\ float_of_decimal 1 23 = 1e23%float
  /\ float_of_decimal 5 (-324) = 5e-324%float.
Proof. repeat split; vm_compute; reflexivity. Qed.

Example Number_toString_examples :
  List.map Number_toString [0.9; 1.5; 0.6; 100; 1e21; 1e-7; 0.000001; 1e23]%float
  = ["0.9"; "1.5"; "0.6"; "100"; "1e+21"; "1e-7"; "0.000001"; "1e+23"].
Proof. vm_compute. reflexivity. Qed.

Example StringToNumber_examples :
  List.map StringToNumber ["0.9"; " 12 "; ""; "0x1F"; "1e3"; ".5"]
  = [0.9; 12; 0; 31; 1000; 0.5]%float
  /\ List.map (fun s => is_nan (StringToNumber s)) ["abc"; "1e"; "1,2"; "12px"]
     = [true; true; true; true].
Proof. split; vm_compute; reflexivity. Qed.

Example JSON_parse_verdict :
  JSON_parse (verdict_text "0.9")
  = Return (JObj [("isLead", JBool true); ("confidence", JNum 0.9);
                  ("reason", JStr "asks for a quote"); ("keywords", JArr [])]).
Proof. vm_compute. reflexivity. Qed.

Example JSON_parse_rejects :
  List.map JSON_parse ["Sure, this looks like a lead."; ""; "[1,]"; "01"; "{lead: true}"]
  = List.repeat (Throw SyntaxError_JSON) 5.
Proof. vm_compute. reflexivity. Qed.

Example envelope_example :
  envelope (Some "m1") "ann@example.com" "Pricing" (Some "Thanks.")
  = "To: ann@example.com" ++ CRLF ++ "Subject: Re: Pricing" ++ CRLF
      ++ "In-Reply-To: m1" ++ CRLF ++ "References: m1" ++ CRLF ++ CRLF ++ "Thanks."
  /\ base64_decode (url_safe (base64_encode
                                (envelope (Some "m1") "ann@example.com" "Pricing"
                                          (Some "Thanks."))))
     = envelope (Some "m1") "ann@example.com" "Pricing" (Some "Thanks.").
Proof. split; vm_compute; reflexivity. Qed.

(** A whole cycle in the scripted environment where everything succeeds,
    with [a] already in the ledger. *)
Example happy_cycle :
  let run := monitorEmails (scripted happy) (mkState {[ Some "a" ]} [] []) in
  fst run
  = Return (mkReport 2 [ Success (Some "b") "ann@example.com" "Pricing"
                                 (JBool true) (JNum 0.9) "lead";
                         Success (Some "c") "ann@example.com" "Pricing"
                                 (JBool true) (JNum 0.9) "lead" ])
  /\ fetched (trace (snd run)) = [Some "b"; Some "c"]
  /\ List.firstn 4 (logs (snd run))
     = [ "[t0] Checking for new emails...";
         "[t2] Found 2 new emails to process";
         "[t4] Processing email from ann@example.com: Pricing";
         "[t6] Email analysis - Lead: true, Confidence: 0.9, Reason: asks for a quote" ].
Proof. cbv zeta. repeat split; vm_compute; reflexivity. Qed.
(* ===================================================================== *)
(** * The log store *)
(* ===================================================================== *)

Section LogStore.

Lemma slice_last_short {A} (n : nat) (l : list A) :
  List.length l <= n -> slice_last n l = l.
Proof.
  intros H. unfold slice_last.
  replace (List.length l - n) with 0 by lia. reflexivity.
Qed.

Lemma length_slice_last {A} (n : nat) (l : list A) :
  List.length (slice_last n l) = Nat.min n (List.length l).
Proof. unfold slice_last. rewrite List.length_skipn. lia. Qed.

Lemma tl_skipn {A} (k : nat) (l : list A) : List.tl (List.skipn k l) = List.skipn (S k) l.
Proof.
  revert l. induction k as [|k IH]; intros [|x l]; simpl; try reflexivity.
  apply IH.
Qed.

(** Pushing onto the last 100 of a history gives the last 100 of the
    longer history. *)
Lemma push_log_slice_last (entry : string) (es : list string) :
  push_log entry (slice_last 100 es) = slice_last 100 (es ++ [entry])%list.
Proof.
  unfold push_log.
  destruct (Nat.leb_spec 100 (List.length es)) as [Hge | Hlt].
  - assert (Hlen : List.length (slice_last 100 es ++ [entry])%list = 101).
    { rewrite List.length_app, length_slice_last. cbn [List.length]. lia. }
    rewrite Hlen. change (100 <? 101)%nat with true. cbv iota.
    unfold slice_last. rewrite List.length_app. cbn [List.length].
    rewrite List.skipn_app.
    replace (List.length es + 1 - 100 - List.length es) with 0 by lia.
    replace (List.length es + 1 - 100) with (S (List.length es - 100)) by lia.
    rewrite <- tl_skipn. cbn [List.skipn].
    destruct (List.skipn (List.length es - 100) es) eqn:E; [| reflexivity].
    apply (f_equal (@List.length _)) in E. rewrite List.length_skipn in E.
    simpl in E. lia.
  - rewrite (slice_last_short 100 es) by lia.
    assert (Hlen : List.length (es ++ [entry])%list <= 100).
    { rewrite List.length_app. simpl. lia. }
    destruct (Nat.ltb_spec 100 (List.length (es ++ [entry])%list)); [lia |].
    symmetry. apply slice_last_short. exact Hlen.
Qed.

Lemma push_log_below (entry : string) (l : list string) :
  List.length l < 100 -> push_log entry l = (l ++ [entry])%list.
Proof.
  intros H. unfold push_log.
  destruct (Nat.ltb_spec 100 (List.length (l ++ [entry])%list)) as [Hgt | _];
    [| reflexivity].
  rewrite List.length_app in Hgt. simpl in Hgt. lia.
Qed.

Lemma push_log_full (entry : string) (l : list string) :
  List.length l = 100 -> push_log entry l = (List.tl l ++ [entry])%list.
Proof.
  intros H. unfold push_log.
  destruct (Nat.ltb_spec 100 (List.length (l ++ [entry])%list)) as [_ | Hle].
  - destruct l; [discriminate | reflexivity].
  - rewrite List.length_app in Hle. simpl in Hle. lia.
Qed.

Lemma push_log_bounded (entry : string) (l : list string) :
  List.length l <= 100 -> List.length (push_log entry l) <= 100.
Proof.
  intros H. destruct (Nat.eq_dec (List.length l) 100) as [Heq | Hne].
  - rewrite push_log_full by exact Heq. rewrite List.length_app. simpl.
    destruct l; simpl in *; lia.
  - rewrite push_log_below by lia. rewrite List.length_app. simpl. lia.
Qed.

Lemma console_entries_app (a b : list Event) :
  console_entries (a ++ b) = (console_entries a ++ console_entries b)%list.
Proof.
  induction a as [|e a IH]; [reflexivity |].
  destruct e; simpl; rewrite IH; reflexivity.
Qed.

End LogStore.

(* ===================================================================== *)
(** * Steps of the state *)
(* ===================================================================== *)

Section Steps.

Variable w : World.

Lemma Step_refl (P : Event -> Prop) (st : State) : Step P st st.
Proof.
  split; auto.
  exists []. split; [symmetry; apply List.app_nil_r | constructor].
Qed.

Lemma Step_trans (P : Event -> Prop) (a b c : State) :
  Step P a b -> Step P b c -> Step P a c.
Proof.
  intros [L1 [e1 [T1 F1]] B1 C1] [L2 [e2 [T2 F2]] B2 C2].
  split; [congruence | | auto | auto].
  exists (e1 ++ e2)%list. split.
  - rewrite T2, T1. symmetry. apply List.app_assoc.
  - apply Forall_app. split; assumption.
Qed.

Lemma Step_weaken (P Q : Event -> Prop) (a b : State) :
  (forall e, P e -> Q e) -> Step P a b -> Step Q a b.
Proof.
  intros H [L [evs [T F]] B C]. split; auto.
  exists evs. split; [exact T |].
  eapply List.Forall_impl; [| exact F]. exact H.
Qed.

Lemma Step_record (P : Event -> Prop) (e : Event) (st : State) :
  P e -> is_console e = false -> Step P st (record e st).
Proof.
  intros HP Hc. split; try reflexivity.
  - exists [e]. split; [reflexivity | repeat constructor; exact HP].
  - auto.
  - unfold consistent. simpl. intros H. rewrite console_entries_app.
    destruct e; try discriminate; simpl; rewrite List.app_nil_r; exact H.
Qed.

Lemma Step_logged (P : Event -> Prop) (message : string) (st : State) :
  (forall entry, P (console_log entry)) -> Step P st (logged w message st).
Proof.
  intros HP. split; try reflexivity.
  - eexists [_]. split; [reflexivity | repeat constructor; apply HP].
  - unfold bounded. simpl. apply push_log_bounded.
  - unfold consistent. simpl. intros H. rewrite H, console_entries_app. simpl.
    apply push_log_slice_last.
Qed.

(** ** The rules of [keeps] and [never_throws] *)

Lemma keeps_run {A} (R : State -> State -> Prop) (c : M A) (st st' : State)
      (r : completion A) :
  keeps R c -> c st = (r, st') -> R st st'.
Proof. intros H E. specialize (H st). rewrite E in H. exact H. Qed.


Section Rules.

Variable R : State -> State -> Prop.
Hypothesis R_refl : forall st, R st st.
Hypothesis R_trans : forall a b c, R a b -> R b c -> R a c.

Lemma keeps_ret {A} (a : A) : keeps R (ret a).
Proof. intros st. apply R_refl. Qed.

Lemma keeps_throw {A} (e : exn) : keeps R (@throw A e).
Proof. intros st. apply R_refl. Qed.

Lemma keeps_lift {A} (c : completion A) : keeps R (lift c).
Proof. intros st. apply R_refl. Qed.

Lemma keeps_get_state : keeps R get_state.
Proof. intros st. apply R_refl. Qed.

Lemma keeps_bind {A B} (c : M A) (k : A -> M B) :
  keeps R c -> (forall a, keeps R (k a)) -> keeps R (bind c k).
Proof.
  intros Hc Hk st. unfold bind. specialize (Hc st).
  destruct (c st) as [[a | e] st1]; simpl in *.
  - eapply R_trans; [exact Hc | apply Hk].
  - exact Hc.
Qed.

Lemma keeps_try_catch {A} (c : M A) (h : exn -> M A) :
  keeps R c -> (forall e, keeps R (h e)) -> keeps R (try_catch c h).
Proof.
  intros Hc Hh st. unfold try_catch. specialize (Hc st).
  destruct (c st) as [[a | e] st1]; simpl in *.
  - exact Hc.
  - eapply R_trans; [exact Hc | apply Hh].
Qed.

End Rules.

Section StepRules.

Variable P : Event -> Prop.

Lemma Step_ret {A} (a : A) : keeps (Step P) (ret a).
Proof. apply keeps_ret, Step_refl. Qed.

Lemma Step_throw {A} (e : exn) : keeps (Step P) (@throw A e).
Proof. apply keeps_throw, Step_refl. Qed.

Lemma Step_lift {A} (c : completion A) : keeps (Step P) (lift c).
Proof. apply keeps_lift, Step_refl. Qed.

Lemma Step_bind {A B} (c : M A) (k : A -> M B) :
  keeps (Step P) c -> (forall a, keeps (Step P) (k a)) -> keeps (Step P) (bind c k).
Proof. apply keeps_bind, Step_trans. Qed.

Lemma Step_try_catch {A} (c : M A) (h : exn -> M A) :
  keeps (Step P) c -> (forall e, keeps (Step P) (h e)) ->
  keeps (Step P) (try_catch c h).
Proof. apply keeps_try_catch, Step_trans. Qed.

Lemma Step_request {A} (e : Event) (reply : list Event -> completion A) :
  P e -> is_console e = false -> keeps (Step P) (request e reply).
Proof. intros HP Hc st. apply Step_record; assumption. Qed.

Lemma Step_emit (e : Event) :
  P e -> is_console e = false -> keeps (Step P) (emit e).
Proof. intros HP Hc st. apply Step_record; assumption. Qed.

Lemma Step_log (message : string) :
  (forall entry, P (console_log entry)) -> keeps (Step P) (log w message).
Proof. intros HP st. apply Step_logged. exact HP. Qed.

End StepRules.

Lemma never_throws_ret {A} (a : A) : never_throws (ret a).
Proof. intros st. exists a. reflexivity. Qed.

Lemma never_throws_log (message : string) : never_throws (log w message).
Proof. intros st. exists tt. reflexivity. Qed.

Lemma never_throws_bind {A B} (c : M A) (k : A -> M B) :
  never_throws c -> (forall a, never_throws (k a)) -> never_throws (bind c k).
Proof.
  intros Hc Hk st. unfold bind. destruct (Hc st) as [a Ha].
  destruct (c st) as [r st1]. simpl in Ha. subst r. apply Hk.
Qed.

Lemma never_throws_try_catch {A} (c : M A) (h : exn -> M A) :
  (forall e, never_throws (h e)) -> never_throws (try_catch c h).
Proof.
  intros Hh st. unfold try_catch.
  destruct (c st) as [[a | e] st1]; [exists a; reflexivity | apply Hh].
Qed.

End Steps.

Create HintDb agent discriminated.

#[export] Hint Resolve Step_ret Step_throw Step_lift Step_bind Step_try_catch Step_log
  never_throws_ret never_throws_log never_throws_bind never_throws_try_catch : agent.
#[export] Hint Extern 1 (keeps (Step _) (request _ _)) =>
  apply Step_request; [try exact I; reflexivity | reflexivity] : agent.
#[export] Hint Extern 1 (keeps (Step _) (emit _)) =>
  apply Step_emit; [try exact I; reflexivity | reflexivity] : agent.
#[export] Hint Extern 1 (inference_event _) => exact I : agent.
#[export] Hint Extern 1 (label_event _ _) => first [exact I | reflexivity] : agent.
#[export] Hint Extern 1 (tail_event _ _) => first [exact I | reflexivity] : agent.
#[export] Hint Extern 1 (header_event _) => exact I : agent.

(** ** Summaries of the four helpers *)

Section Helpers.

Variable w : World.

Lemma analyzeEmailContent_keeps (subject body : string) :
  keeps (Step inference_event) (analyzeEmailContent w subject body).
Proof. unfold analyzeEmailContent. cbv zeta. auto 10 with agent. Qed.

Lemma analyzeEmailContent_never_throws (subject body : string) :
  never_throws (analyzeEmailContent w subject body).
Proof. unfold analyzeEmailContent. cbv zeta. auto 10 with agent. Qed.

Lemma generateDraftResponse_keeps (email : InboundMessage) (isLead analysis : value) :
  keeps (Step inference_event) (generateDraftResponse w email isLead analysis).
Proof. unfold generateDraftResponse. cbv zeta. auto 10 with agent. Qed.

Lemma generateDraftResponse_never_throws (email : InboundMessage) (isLead analysis : value) :
  never_throws (generateDraftResponse w email isLead analysis).
Proof. unfold generateDraftResponse. cbv zeta. auto 10 with agent. Qed.

Lemma addLabelToEmail_keeps (messageId : option string) (labelName : string) :
  keeps (Step (label_event messageId)) (addLabelToEmail w messageId labelName).
Proof.
  unfold addLabelToEmail.
  apply Step_try_catch; [| auto with agent].
  apply Step_bind.
  - apply Step_try_catch; [| auto 10 with agent].
    apply Step_bind; [auto with agent |]. intros labels.
    apply Step_bind; [auto with agent |].
    intros [label |]; auto 10 with agent.
  - intros [labelId |]; auto 10 with agent.
Qed.

Lemma addLabelToEmail_never_throws (messageId : option string) (labelName : string) :
  never_throws (addLabelToEmail w messageId labelName).
Proof. unfold addLabelToEmail. auto 10 with agent. Qed.

End Helpers.

(* ===================================================================== *)
(** * The runs of the helpers and of [processEmail] *)
(* ===================================================================== *)

Section Runs.

Variable w : World.

Lemma effective_lead_reads (analysis l : value) (k : string) :
  effective_lead analysis = Return l -> exists c, Get analysis k = Return c.
Proof.
  unfold effective_lead. destruct analysis; simpl; try discriminate; eauto.
Qed.

Lemma never_throws_run {A} (c : M A) (st : State) :
  never_throws c -> exists a st', c st = (Return a, st').
Proof.
  intros H. destruct (H st) as [a Ha]. exists a, (snd (c st)).
  destruct (c st) as [r st']. simpl in *. congruence.
Qed.

Lemma createDraftResponse_run (originalMessageId : option string) (to subject : string)
      (body threadId : option string) (st : State) :
  let e := drafts_create threadId
             (url_safe (base64_encode (envelope originalMessageId to subject body))) in
  createDraftResponse w originalMessageId to subject body threadId st =
  match drafts_create_reply w (trace (record e st)) with
  | Return d => (Return d, record e st)
  | Throw err =>
      (Throw err, logged w ("Error creating draft response: " ++ message err) (record e st))
  end.
Proof.
  intros e. unfold createDraftResponse, try_catch, request, bind, log, throw.
  cbv zeta. fold e. change (trace st ++ [e])%list with (trace (record e st)).
  destruct (drafts_create_reply w (trace (record e st))); reflexivity.
Qed.

(** Every run of [processEmail] returns, in one of the six ways. *)
Lemma processEmail_runs (message : Message.t) (st : State) :
  exists result st',
    processEmail w message st = (Return result, st')
    /\ processEmail_outcome w message st result st'.
Proof.
  unfold processEmail, try_catch, processEmail_try.
  unfold bind at 1. unfold request at 1.
  change (trace st ++ [messages_get (Message.id message) "full"])%list
    with (trace (record (fetch message) st)).
  change (record (messages_get (Message.id message) "full") st)
    with (record (fetch message) st).
  destruct (messages_get_reply w (trace (record (fetch message) st)))
    as [fullMessage | e] eqn:Hget.
  2: { do 2 eexists. split; [reflexivity | apply fetch_failed; exact Hget]. }
  unfold bind at 1. unfold lift at 1.
  destruct (decode w fullMessage) as [email | e] eqn:Hdec.
  2: { do 2 eexists. split; [reflexivity | eapply decode_failed; eassumption]. }
  unfold bind at 1. unfold log at 1.
  change (logged w ("Processing email from " ++ from email ++ ": " ++ subject email)
                 (record (fetch message) st))
    with (announced w email (record (fetch message) st)).
  unfold bind at 1.
  destruct (never_throws_run _ (announced w email (record (fetch message) st))
              (analyzeEmailContent_never_throws w (subject email) (body email)))
    as [analysis [st3 Han]].
  rewrite Han.
  unfold bind at 1. unfold lift at 1.
  destruct (effective_lead analysis) as [isLead | e] eqn:Hlead.
  2: { do 2 eexists. split; [reflexivity | eapply verdict_failed; eassumption]. }
  destruct (effective_lead_reads _ _ "confidence" Hlead) as [confidence Hc].
  destruct (effective_lead_reads _ _ "reason" Hlead) as [reason Hr].
  unfold bind at 1. unfold lift at 1. rewrite Hc.
  unfold bind at 1. unfold lift at 1. rewrite Hr.
  unfold bind at 1. unfold lift at 1.
  destruct (analysis_line isLead confidence reason) as [line | e] eqn:Hline.
  2: { do 2 eexists. split; [reflexivity | eapply report_failed; eassumption]. }
  unfold bind at 1. unfold log at 1.
  change (logged w line st3) with (analysed w line st3).
  unfold bind at 1.
  destruct (never_throws_run _ (analysed w line st3)
              (generateDraftResponse_never_throws w email isLead analysis))
    as [draftBody [st5 Hgen]].
  rewrite Hgen.
  unfold bind at 1. rewrite createDraftResponse_run. cbv zeta.
  change (drafts_create (Message.threadId fullMessage) _)
    with (draft_request message fullMessage email draftBody).
  destruct (drafts_create_reply
              w (trace (record (draft_request message fullMessage email draftBody) st5)))
    as [d | e] eqn:Hdraft.
  2: { do 2 eexists. split; [reflexivity | eapply draft_failed; eassumption]. }
  change (if truthy isLead then "lead" else "other") with (label_of isLead).
  unfold bind at 1.
  destruct (never_throws_run
              _ (record (draft_request message fullMessage email draftBody) st5)
              (addLabelToEmail_never_throws w (Message.id message) (label_of isLead)))
    as [[] [st7 Hlab]].
  rewrite Hlab.
  do 2 eexists. split; [reflexivity | eapply dispatched; eassumption].
Qed.

(** Up to the verdict, and up to the draft text, a run only adds console
    and inference events after its fetch. *)
Lemma Step_to_verdict (P : Event -> Prop) (message : Message.t) (st : State)
      (email : InboundMessage) (analysis : value) (st3 : State) :
  (forall e, inference_event e -> P e) ->
  analyzeEmailContent w (subject email) (body email)
                      (announced w email (record (fetch message) st))
  = (Return analysis, st3) ->
  Step P (record (fetch message) st) st3.
Proof.
  intros HP Han.
  eapply Step_trans; [apply Step_logged; intros entry; apply HP; exact I |].
  eapply Step_weaken; [exact HP |].
  eapply keeps_run; [apply analyzeEmailContent_keeps | exact Han].
Qed.

Lemma Step_to_draft (P : Event -> Prop) (message : Message.t) (st : State)
      (email : InboundMessage) (analysis isLead : value) (line : string)
      (st3 : State) (draftBody : option string) (st5 : State) :
  (forall e, inference_event e -> P e) ->
  analyzeEmailContent w (subject email) (body email)
                      (announced w email (record (fetch message) st))
  = (Return analysis, st3) ->
  generateDraftResponse w email isLead analysis (analysed w line st3)
  = (Return draftBody, st5) ->
  Step P (record (fetch message) st) st5.
Proof.
  intros HP Han Hgen.
  eapply Step_trans; [eapply Step_to_verdict; eassumption |].
  eapply Step_trans; [apply Step_logged; intros entry; apply HP; exact I |].
  eapply Step_weaken; [exact HP |].
  eapply keeps_run; [apply generateDraftResponse_keeps | exact Hgen].
Qed.

End Runs.

(* ===================================================================== *)
(** * The poll cycle *)
(* ===================================================================== *)

Section Cycle.

Variable w : World.

Lemma inference_is_tail (i : option string) (e : Event) :
  inference_event e -> tail_event i e.
Proof. destruct e; simpl; tauto. Qed.

Lemma label_is_tail (i : option string) (e : Event) :
  label_event i e -> tail_event i e.
Proof. destruct e; simpl; tauto. Qed.

Lemma draft_request_is_tail (message fullMessage : Message.t) (email : InboundMessage)
      (draftBody : option string) :
  tail_event (Message.id message) (draft_request message fullMessage email draftBody).
Proof. simpl. eauto. Qed.

(** After the fetch, a run of [processEmail] only adds events on behalf of
    its candidate, and leaves the ledger alone. *)
Lemma processEmail_outcome_step (message : Message.t) (st : State)
      (result : ProcessingResult) (st' : State) :
  processEmail_outcome w message st result st' ->
  Step (tail_event (Message.id message)) (record (fetch message) st) st'.
Proof.
  pose proof (inference_is_tail (Message.id message)) as Hinf.
  assert (Hlog : forall m s, Step (tail_event (Message.id message)) s (logged w m s)).
  { intros m s. apply Step_logged. intros entry. exact I. }
  intros H. destruct H.
  - apply Hlog.
  - apply Hlog.
  - eapply Step_trans; [| apply Hlog].
    eapply Step_to_verdict; eassumption.
  - eapply Step_trans; [| apply Hlog].
    eapply Step_to_verdict; eassumption.
  - eapply Step_trans; [| apply Hlog].
    eapply Step_trans; [| apply Hlog].
    eapply Step_trans; [eapply Step_to_draft; eassumption |].
    apply Step_record; [apply draft_request_is_tail | reflexivity].
  - eapply Step_trans; [| apply Hlog].
    eapply Step_trans; [eapply Step_to_draft; eassumption |].
    eapply Step_trans;
      [apply Step_record; [apply draft_request_is_tail | reflexivity] |].
    eapply Step_weaken; [apply label_is_tail |].
    eapply keeps_run; [apply addLabelToEmail_keeps | eassumption].
Qed.

(** What one turn of the loop leaves behind. *)
Lemma processEmail_summary (message : Message.t) (st : State) :
  exists result st' evs,
    processEmail w message st = (Return result, st')
    /\ processEmail_outcome w message st result st'
    /\ processedEmails st' = processedEmails st
    /\ trace st' = (trace st ++ fetch message :: evs)%list
    /\ Forall (tail_event (Message.id message)) evs
    /\ (bounded st -> bounded st')
    /\ (consistent st -> consistent st').
Proof.
  destruct (processEmail_runs w message st) as [result [st' [Hrun Hout]]].
  destruct (processEmail_outcome_step _ _ _ _ Hout) as [L [evs [T F]] B C].
  assert (S0 : Step (fun _ => True) st (record (fetch message) st))
    by (apply Step_record; [exact I | reflexivity]).
  destruct S0 as [_ _ B0 C0].
  exists result, st', evs. repeat split; auto.
  rewrite T. simpl. rewrite <- List.app_assoc. reflexivity.
Qed.

Lemma process_each_runs (newEmails : list Message.t) :
  forall (results : list ProcessingResult) (st : State),
  exists rs st' evs,
    process_each w newEmails results st = (Return (results ++ rs)%list, st')
    /\ Forall2 (fun m r => exists sa sb, processEmail w m sa = (Return r, sb)
                                         /\ processEmail_outcome w m sa r sb)
               newEmails rs
    /\ processedEmails st' = processedEmails st ∪ list_to_set (ids newEmails)
    /\ trace st' = (trace st ++ evs)%list
    /\ cycle_trace newEmails evs
    /\ (bounded st -> bounded st')
    /\ (consistent st -> consistent st').
Proof.
  induction newEmails as [| email rest IH]; intros results st.
  - exists [], st, []. simpl. unfold ret. rewrite !List.app_nil_r.
    split; [reflexivity |]. split; [constructor |]. split; [set_solver |].
    split; [reflexivity |]. split; [constructor | auto].
  - destruct (processEmail_summary email st)
      as [result [st1 [evs1 [Hrun [Hout [L1 [T1 [F1 [B1 C1]]]]]]]]].
    set (st2 := record (setTimeout 1000)
                       (mkState ({[Message.id email]} ∪ processedEmails st1)
                                (logs st1) (trace st1))).
    destruct (IH (results ++ [result])%list st2)
      as [rs [st' [evs [Hrest [F2 [L2 [T2 [Cy [B2 C2]]]]]]]]].
    exists (result :: rs), st', (fetch email :: evs1 ++ setTimeout 1000 :: evs)%list.
    split; [| split; [| split; [| split; [| split; [| split]]]]].
    + simpl. unfold bind at 1. rewrite Hrun.
      unfold bind at 1, add_processed at 1. unfold bind at 1, emit at 1.
      fold st2. rewrite Hrest. rewrite <- List.app_assoc. reflexivity.
    + constructor; [eauto | exact F2].
    + rewrite L2. unfold st2. simpl. rewrite L1. set_solver.
    + rewrite T2. unfold st2. simpl. rewrite T1.
      rewrite <- !List.app_assoc. reflexivity.
    + constructor; assumption.
    + intros Hb. apply B2. unfold st2, bounded. simpl. apply B1. exact Hb.
    + intros Hc. apply C2. unfold st2, consistent. simpl.
      rewrite console_entries_app. simpl. rewrite List.app_nil_r.
      apply C1. exact Hc.
Qed.

Lemma unprocessed_fresh (ledger : gset (option string)) (messages : list Message.t) :
  forall m, In m (unprocessed ledger messages) -> Message.id m ∉ ledger.
Proof.
  intros m H. apply List.filter_In in H. destruct H as [_ H].
  apply negb_true_iff in H. apply bool_decide_eq_false in H. exact H.
Qed.

(** A cycle whose listing carries messages: the report counts the ones that
    are not in the ledger, the loop runs over exactly those, and the ledger
    gains exactly their ids. *)
Lemma monitorEmails_runs (st : State) (messages : list Message.t) :
  messages_list_reply w (trace (listing_state w st)) = Return (Some messages) ->
  let newEmails := unprocessed (processedEmails st) messages in
  exists results st' hdr evs,
    monitorEmails w st = (Return (mkReport (List.length newEmails) results), st')
    /\ Forall2 (fun m r => exists sa sb, processEmail w m sa = (Return r, sb)
                                         /\ processEmail_outcome w m sa r sb)
               newEmails results
    /\ processedEmails st' = processedEmails st ∪ list_to_set (ids newEmails)
    /\ trace st' = (trace st ++ hdr ++ evs)%list
    /\ Forall header_event hdr
    /\ cycle_trace newEmails evs
    /\ (bounded st -> bounded st')
    /\ (consistent st -> consistent st').
Proof.
  intros Hlist. cbv zeta.
  assert (S1 : Step header_event st (listing_state w st)).
  { eapply Step_trans; [apply Step_logged; intros ?; exact I |].
    apply Step_record; [exact I | reflexivity]. }
  unfold monitorEmails, try_catch.
  unfold bind at 1, log at 1. unfold bind at 1, request at 1.
  change (record (messages_list "is:unread" 10) (logged w "Checking for new emails..." st))
    with (listing_state w st).
  change (trace (logged w "Checking for new emails..." st)
            ++ [messages_list "is:unread" 10])%list
    with (trace (listing_state w st)).
  rewrite Hlist.
  unfold bind at 1, get_state at 1.
  change (processedEmails (listing_state w st)) with (processedEmails st).
  destruct (unprocessed (processedEmails st) messages) as [| m ms].
  - unfold bind at 1, log at 1, ret.
    set (st' := logged w "No new unprocessed emails found" (listing_state w st)).
    assert (S2 : Step header_event st st').
    { eapply Step_trans; [exact S1 | apply Step_logged; intros ?; exact I]. }
    destruct S2 as [L [hdr [T F]] B C].
    exists [], st', hdr, []. rewrite List.app_nil_r.
    split; [reflexivity |]. split; [constructor |].
    split; [rewrite L; set_solver |]. split; [exact T |].
    split; [exact F |]. split; [constructor | auto].
  - unfold bind at 1, log at 1.
    set (st1 := logged w _ (listing_state w st)).
    assert (S2 : Step header_event st st1).
    { eapply Step_trans; [exact S1 | apply Step_logged; intros ?; exact I]. }
    destruct S2 as [L [hdr [T F]] B C].
    destruct (process_each_runs (m :: ms) [] st1)
      as [rs [st' [evs [Hrun [F2 [L2 [T2 [Cy [B2 C2]]]]]]]]].
    exists rs, st', hdr, evs.
    split; [| split; [| split; [| split; [| split; [| split; [| split]]]]]].
    + unfold bind at 1. rewrite Hrun. reflexivity.
    + exact F2.
    + rewrite L2, L. reflexivity.
    + rewrite T2, T. symmetry. apply List.app_assoc.
    + exact F.
    + exact Cy.
    + auto.
    + auto.
Qed.

Lemma tail_event_not_fetch (i : option string) (evs : list Event) :
  Forall (tail_event i) evs -> fetched evs = [].
Proof.
  induction 1 as [| e evs He _ IH]; [reflexivity |].
  destruct e; simpl in *; try exact IH; contradiction.
Qed.

Lemma cycle_trace_fetched (ms : list Message.t) (evs : list Event) :
  cycle_trace ms evs -> fetched evs = ids ms.
Proof.
  induction 1 as [| m ms evs rest Ht _ IH]; [reflexivity |].
  simpl. f_equal. unfold fetched in *. rewrite List.flat_map_app. simpl.
  fold (fetched evs). rewrite (tail_event_not_fetch _ _ Ht). exact IH.
Qed.

Lemma cycle_trace_addressed (ms : list Message.t) (evs : list Event) :
  cycle_trace ms evs -> Forall (addressed_to (ids ms)) evs.
Proof.
  induction 1 as [| m ms evs rest Ht _ IH]; [constructor |].
  assert (Mono : forall e, addressed_to (ids ms) e -> addressed_to (ids (m :: ms)) e).
  { intros e. destruct e; simpl; auto.
    intros [i [t [s [b [Hi Hr]]]]]. exists i, t, s, b. auto. }
  constructor; [simpl; auto |].
  apply Forall_app. split.
  - eapply List.Forall_impl; [| exact Ht].
    intros e. destruct e; simpl; auto; try tauto.
    intros [t [s [b Hr]]]. exists (Message.id m), t, s, b. auto.
  - constructor; [exact I |].
    eapply List.Forall_impl; [| exact IH]. exact Mono.
Qed.

End Cycle.

(* ===================================================================== *)
(** * The routing decision *)
(* ===================================================================== *)

(** C1.  For a verdict whose [isLead] is a boolean and whose [confidence]
    is a number, the effective-lead flag of line 218 is the boolean
    [isLead && confidence > 0.6]: it is [true] if and only if [isLead] is
    [true] and the confidence is strictly greater than 0.6, and a verdict
    whose confidence is exactly 0.6 is not an effective lead. *)
Theorem effective_lead_threshold (analysis : value) (isLead : bool) (confidence : float) :
  Get analysis "isLead" = Return (JBool isLead) ->
  Get analysis "confidence" = Return (JNum confidence) ->
  effective_lead analysis = Return (JBool (isLead && PrimFloat.ltb 0.6 confidence))
  /\ (effective_lead analysis = Return (JBool true)
      <-> isLead = true /\ PrimFloat.ltb 0.6 confidence = true)
  /\ (confidence = 0.6%float -> effective_lead analysis = Return (JBool false)).
Proof.
  intros Hl Hc.
  assert (E : effective_lead analysis
              = Return (JBool (isLead && PrimFloat.ltb 0.6 confidence))).
  { unfold effective_lead. rewrite Hl. simpl truthy.
    destruct isLead; [| reflexivity]. rewrite Hc. reflexivity. }
  split; [exact E |]. split.
  - rewrite E. split.
    + intros H. injection H as H. apply andb_true_iff in H. exact H.
    + intros [H1 H2]. rewrite H1, H2. reflexivity.
  - intros ->. rewrite E. rewrite andb_comm. reflexivity.
Qed.

Lemma effective_lead_threshold_witness :
  effective_lead (JObj [("isLead", JBool true); ("confidence", JNum 0.6)])
  = Return (JBool false)
  /\ effective_lead (JObj [("isLead", JBool true); ("confidence", JNum 0.61)])
     = Return (JBool true).
Proof.
  split.
  - exact (proj2 (proj2 (effective_lead_threshold
                           (JObj [("isLead", JBool true); ("confidence", JNum 0.6)])
                           true 0.6 eq_refl eq_refl)) eq_refl).
  - exact (proj1 (effective_lead_threshold
                    (JObj [("isLead", JBool true); ("confidence", JNum 0.61)])
                    true 0.61 eq_refl eq_refl)).
Defined.

(** Without the types: for any parsed reply the flag is [true] exactly
    when [isLead] is truthy and the confidence, as a number, exceeds 0.6
    (so [isLead: "yes"] with [confidence: "0.9"] is a lead too). *)
Lemma effective_lead_true_iff (analysis isLead confidence : value) :
  Get analysis "isLead" = Return isLead ->
  Get analysis "confidence" = Return confidence ->
  effective_lead analysis = Return (JBool true)
  <-> truthy isLead = true /\ greater_than confidence 0.6 = Return true.
Proof.
  intros Hl Hc. unfold effective_lead. rewrite Hl.
  destruct (truthy isLead) eqn:Ht.
  - rewrite Hc. destruct (greater_than confidence 0.6) as [b | e].
    + split.
      * intros H. injection H as ->. auto.
      * intros [_ H]. injection H as ->. reflexivity.
    + split.
      * discriminate.
      * intros [_ H]. discriminate.
  - split.
    + intros H. injection H as ->. discriminate.
    + intros [H _]. discriminate.
Qed.

Example effective_lead_untyped :
  effective_lead (JObj [("isLead", JStr "yes"); ("confidence", JStr "0.9")])
  = Return (JBool true)
  /\ effective_lead (JObj [("confidence", JNum 0.9)]) = Return JUndefined
  /\ effective_lead JNull = Throw (TypeError_read "null" "isLead")
  /\ effective_lead (JObj [("isLead", JBool true);
                           ("confidence", JObj [("toString", JNum 1)])])
     = Throw TypeError_primitive
  /\ effective_lead (JObj [("isLead", JBool true);
                           ("confidence", JObj [("valueOf", JNum 1)])])
     = Return (JBool false).
Proof. repeat split; vm_compute; reflexivity. Qed.

(** ToString of what a reply can hold: an own [toString] member leaves an
    object without a primitive value, an own [valueOf] does not; an array
    converts its elements in turn. *)
Example ToString_examples :
  ToString (JObj [("a", JNum 1)]) = Return "[object Object]"
  /\ ToString (JObj [("valueOf", JNum 1)]) = Return "[object Object]"
  /\ ToString (JObj [("toString", JStr "x")]) = Throw TypeError_primitive
  /\ ToString (JArr [JNum 1; JNull; JArr [JBool true; JStr "b"]; JObj []])
     = Return "1,,true,b,[object Object]"
  /\ ToString (JArr [JNum 1; JObj [("toString", JNull)]]) = Throw TypeError_primitive
  /\ ToNumber (JArr [JStr "0.9"]) = Return 0.9%float
  /\ ToNumber (JObj [("toString", JNum 1)]) = Throw TypeError_primitive.
Proof. repeat split; vm_compute; reflexivity. Qed.

(** A verdict whose confidence cannot be written into the log line of line
    220 fails the message, although it is not a lead and nothing was
    compared. *)
Example unprintable_confidence_fails :
  fst (processEmail
         (scripted (with_classifying
                      (completes (Some ("{" ++ quoted "isLead" ++ ":false,"
                                            ++ quoted "confidence" ++ ":{"
                                            ++ quoted "toString" ++ ":1}}")))
                      happy))
         (stub "a") initial)
  = Return (Failure "Cannot convert object to primitive value").
Proof. vm_compute. reflexivity. Qed.

(** The flag decides the label: ["lead"] for a truthy flag, ["other"]
    otherwise. *)
Lemma label_of_flag (b : bool) :
  label_of (JBool b) = if b then "lead" else "other".
Proof. destruct b; reflexivity. Qed.

(* ===================================================================== *)
(** * The lead classifier *)
(* ===================================================================== *)

Section Classifier.

Variable w : World.

(** The run of [analyzeEmailContent], by what the gateway answers. *)
Lemma analyzeEmailContent_run (subject body : string) (st : State) :
  let st1 := record (chat_completions_create "gpt-3.5-turbo"
                       (analysis_prompt subject body) 0.3 None) st in
  let failed (e : exn) :=
    (Return fallback_verdict,
     logged w ("Error analyzing email content: " ++ message e) st1) in
  analyzeEmailContent w subject body st =
  match chat_completions_reply w (trace st1) with
  | Throw e => failed e
  | Return response =>
      match first_content response with
      | Throw e => failed e
      | Return content =>
          match JSON_parse (text_of content) with
          | Throw e => failed e
          | Return analysis => (Return analysis, st1)
          end
      end
  end.
Proof.
  cbv zeta. unfold analyzeEmailContent, try_catch, bind, request, lift, log, ret.
  cbv zeta.
  change (trace st ++ [?e])%list with (trace (record e st)).
  destruct (chat_completions_reply w _) as [response | e]; [| reflexivity].
  destruct (first_content response) as [content | e]; [| reflexivity].
  destruct (JSON_parse _); reflexivity.
Qed.

(** C5, as the code has it.  [analyzeEmailContent] never throws.  When the
    gateway call rejects (an error, a timeout), when the reply has no
    [choices[0]], or when the reply text is not JSON, it logs the error and
    returns [{isLead:false, confidence:0, reason:"Analysis failed",
    keywords:[]}]; a reply text that parses is returned as parsed, whatever
    its shape. *)
Theorem analyzeEmailContent_fallback (subject body : string) (st : State) :
  let st1 := record (chat_completions_create "gpt-3.5-turbo"
                       (analysis_prompt subject body) 0.3 None) st in
  let failed (e : exn) :=
    (Return (JObj [("isLead", JBool false); ("confidence", JNum 0);
                   ("reason", JStr "Analysis failed"); ("keywords", JArr [])]),
     logged w ("Error analyzing email content: " ++ message e) st1) in
  never_throws (analyzeEmailContent w subject body)
  /\ analyzeEmailContent w subject body st =
     match chat_completions_reply w (trace st1) with
     | Throw e => failed e
     | Return response =>
         match OpenAI.ChatCompletion.choices response with
         | [] => failed (TypeError_read "undefined" "message")
         | choice :: _ =>
             match JSON_parse (text_of (OpenAI.Message.content
                                          (OpenAI.Choice.message choice))) with
             | Throw e => failed e
             | Return analysis => (Return analysis, st1)
             end
         end
     end.
Proof.
  cbv zeta. split; [apply analyzeEmailContent_never_throws |].
  rewrite analyzeEmailContent_run. cbv zeta.
  destruct (chat_completions_reply w _) as [response | e]; [| reflexivity].
  unfold first_content.
  destruct (OpenAI.ChatCompletion.choices response) as [| choice rest]; reflexivity.
Qed.

(** C2, as the code has it.  The verdict that reaches the threshold
    comparison is either the object parsed from the gateway's reply,
    unchanged, or the fallback verdict, whose confidence is 0: nothing
    clamps or rejects a confidence.  The flag and the confidence that a
    successful result reports are read from that verdict as it is.  So the
    confidence compared against 0.6 lies in [0,1] whenever the one the
    gateway sent does. *)
Theorem confidence_passed_through (subject body : string) (st : State) :
  let st1 := record (chat_completions_create "gpt-3.5-turbo"
                       (analysis_prompt subject body) 0.3 None) st in
  (exists analysis st',
      analyzeEmailContent w subject body st = (Return analysis, st')
      /\ ((exists response content,
              chat_completions_reply w (trace st1) = Return response
              /\ first_content response = Return content
              /\ JSON_parse (text_of content) = Return analysis)
          \/ (analysis = fallback_verdict
              /\ Get analysis "confidence" = Return (JNum 0))))
  /\ (forall message st0 i sender title isLead confidence label st',
         processEmail w message st0
         = (Return (Success i sender title isLead confidence label), st') ->
         exists title' text sa analysis sb,
           analyzeEmailContent w title' text sa = (Return analysis, sb)
           /\ effective_lead analysis = Return isLead
           /\ Get analysis "confidence" = Return confidence
           /\ label = label_of isLead).
Proof.
  cbv zeta. split.
  - rewrite analyzeEmailContent_run. cbv zeta.
    destruct (chat_completions_reply w _) as [response | e] eqn:Hreply.
    2: { do 2 eexists. split; [reflexivity | right; split; reflexivity]. }
    destruct (first_content response) as [content | e] eqn:Hc.
    2: { do 2 eexists. split; [reflexivity | right; split; reflexivity]. }
    destruct (JSON_parse _) as [analysis | e] eqn:Hparse.
    2: { do 2 eexists. split; [reflexivity | right; split; reflexivity]. }
    do 2 eexists. split; [reflexivity |]. left.
    exists response, content. auto.
  - intros message st0 i sender title isLead confidence label st' Hrun.
    destruct (processEmail_runs w message st0) as [result [st2 [Hrun' Hout]]].
    rewrite Hrun in Hrun'. injection Hrun' as <- <-.
    inversion Hout; subst. eauto 10.
Qed.

(* ===================================================================== *)
(** * The response drafter *)
(* ===================================================================== *)

(** C6, as the code has it.  When the gateway call fails (it rejects, or
    the reply has no [choices[0]]), the draft is the fixed fallback text of
    the branch; the two texts are not empty and differ.  When the call
    succeeds, the draft is the content of the completion, whatever it is. *)
Theorem generateDraftResponse_draft (originalEmail : InboundMessage)
        (isLead analysis : value) (st : State) :
  let prompt := if truthy isLead then lead_prompt originalEmail
                else other_prompt originalEmail in
  let st1 := record (chat_completions_create "gpt-3.5-turbo" prompt 0.7 (Some 300%Z)) st in
  let fallback := if truthy isLead then lead_fallback else other_fallback in
  let failed (e : exn) :=
    (Return (Some fallback),
     logged w ("Error generating draft response: " ++ message e) st1) in
  generateDraftResponse w originalEmail isLead analysis st =
  match chat_completions_reply w (trace st1) with
  | Throw e => failed e
  | Return response =>
      match OpenAI.ChatCompletion.choices response with
      | [] => failed (TypeError_read "undefined" "message")
      | choice :: _ =>
          (Return (OpenAI.Message.content (OpenAI.Choice.message choice)), st1)
      end
  end
  /\ fallback <> "" /\ lead_fallback <> other_fallback.
Proof.
  cbv zeta. split; [| split].
  - unfold generateDraftResponse, try_catch, bind, request, lift, log, ret.
    cbv zeta.
    change (trace st ++ [?e])%list with (trace (record e st)).
    destruct (chat_completions_reply w _) as [response | e]; [| reflexivity].
    unfold first_content.
    destruct (OpenAI.ChatCompletion.choices response); reflexivity.
  - destruct (truthy isLead); discriminate.
  - discriminate.
Qed.

End Classifier.

(** The gateway sends a confidence of 1.5: the verdict is taken as it is,
    the message is routed as a lead, and 1.5 is what the result reports. *)
Lemma confidence_not_clamped :
  fst (processEmail
         (scripted (with_classifying (completes (Some (verdict_text "1.5"))) happy))
         (stub "m1") initial)
  = Return (Success (Some "m1") "ann@example.com" "Pricing"
                    (JBool true) (JNum 1.5) "lead")
  /\ PrimFloat.leb 1.5 1 = false.
Proof. split; vm_compute; reflexivity. Qed.

(** Three classifier failures that do not end as the specification says: a
    reply of the wrong shape is returned as parsed; a reply [null] makes
    the processing of the message fail; and the fallback the code returns
    carries the reason ["Analysis failed"], not ["analysis failed"]. *)
Lemma classifier_failure_not_collapsed :
  fst (analyzeEmailContent
         (scripted (with_classifying
                      (completes (Some ("{" ++ quoted "lead" ++ ":" ++ quoted "yes" ++ "}")))
                      happy))
         "Pricing" "Hello" initial)
  = Return (JObj [("lead", JStr "yes")])
  /\ fst (processEmail (scripted (with_classifying (completes None) happy))
                       (stub "m1") initial)
     = Return (Failure "Cannot read properties of null (reading 'isLead')")
  /\ fst (analyzeEmailContent
            (scripted (with_classifying (Throw (mkExn "Error" "Request timed out.")) happy))
            "Pricing" "Hello" initial)
     <> Return (JObj [("isLead", JBool false); ("confidence", JNum 0);
                      ("reason", JStr "analysis failed"); ("keywords", JArr [])]).
Proof.
  split; [vm_compute; reflexivity |].
  split; [vm_compute; reflexivity |].
  vm_compute. discriminate.
Qed.

(** The gateway answers with an empty completion: the draft is the empty
    string. *)
Lemma draft_may_be_empty :
  fst (generateDraftResponse
         (scripted (with_drafting (completes (Some "")) happy))
         (mkInbound "Pricing" "ann@example.com" "me@example.com" "Hello")
         (JBool true) fallback_verdict initial)
  = Return (Some "").
Proof. vm_compute. reflexivity. Qed.

(* ===================================================================== *)
(** * The message decoder *)
(* ===================================================================== *)

Section Decoder.

Variable w : World.

Lemma header_absent (n : string) (hs : list Header.t) :
  (forall h, In h hs -> Header.name h <> Some n) -> header n hs = "".
Proof.
  intros H. unfold header.
  destruct (List.find _ hs) as [h |] eqn:E; [| reflexivity].
  apply List.find_some in E. destruct E as [Hin Hn]. exfalso.
  apply (H h Hin). destruct (Header.name h) as [x |]; [| discriminate].
  apply String.eqb_eq in Hn. congruence.
Qed.

Lemma header_first (n : string) (pre post : list Header.t) (h : Header.t) :
  (forall x, In x pre -> Header.name x <> Some n) ->
  Header.name h = Some n ->
  header n (pre ++ h :: post) = joined (Header.value h).
Proof.
  intros Hpre Hh. unfold header.
  induction pre as [| x pre IH]; simpl.
  - rewrite Hh, String.eqb_refl. reflexivity.
  - assert (Hx : Header.name x <> Some n) by (apply Hpre; left; reflexivity).
    destruct (Header.name x) as [y |] eqn:Ey.
    + destruct (String.eqb_spec y n) as [-> | _]; [congruence |].
      apply IH. intros z Hz. apply Hpre. right. exact Hz.
    + apply IH. intros z Hz. apply Hpre. right. exact Hz.
Qed.

(** C7, as the code has it.  For a message whose payload carries [headers]
    and [body] (and whose selected text part carries a [body]) decoding
    does not raise.  [Subject], [From] and [To] are looked up by exact name,
    first match, and are the empty string when no header has the name (or
    the header has no value).  The body is the inline payload if there is
    one, else that of the first sub-part whose content type is exactly
    [text/plain], else the empty string. *)
Theorem decode_well_shaped (fullMessage : Message.t) (payload : Payload.t) :
  Message.payload fullMessage = Some payload ->
  well_shaped (Payload.headers payload) (Payload.body payload) (Payload.parts payload) ->
  exists hs b,
    Payload.headers payload = Some hs /\ Payload.body payload = Some b
    /\ decode w fullMessage
       = Return (mkInbound (header "Subject" hs) (header "From" hs) (header "To" hs)
                           (selected_body w b (Payload.parts payload)))
    /\ (forall n, (forall h, In h hs -> Header.name h <> Some n) -> header n hs = "")
    /\ (forall n pre h post,
           hs = (pre ++ h :: post)%list ->
           (forall x, In x pre -> Header.name x <> Some n) ->
           Header.name h = Some n ->
           header n hs = joined (Header.value h)).
Proof.
  intros Hp [Hhs [Hb Hpart]].
  destruct (Payload.headers payload) as [hs |] eqn:Ehs; [| congruence].
  destruct (Payload.body payload) as [b |] eqn:Eb; [| congruence].
  exists hs, b. split; [reflexivity |]. split; [reflexivity |].
  split; [| split].
  - unfold decode, selected_body. rewrite Hp, Ehs, Eb.
    destruct (truthy_data (Body.data b)) as [d |] eqn:Ed; [reflexivity |].
    destruct (Payload.parts payload) as [l |] eqn:El; [| reflexivity].
    destruct (List.find is_text_plain l) as [p |] eqn:Ef; [| reflexivity].
    specialize (Hpart b l p eq_refl Ed eq_refl Ef).
    destruct (Part.body p) as [pb |]; [| congruence].
    destruct (truthy_data (Body.data pb)); reflexivity.
  - intros n H. apply header_absent. exact H.
  - intros n pre h post ->. apply header_first.
Qed.

End Decoder.

Lemma decode_well_shaped_witness :
  decode (scripted happy) (sample_message (Some "m1"))
  = Return (mkInbound "Pricing" "ann@example.com" "me@example.com" "Hello").
Proof.
  destruct (decode_well_shaped
              (scripted happy) (sample_message (Some "m1"))
              (Payload.mk (Some sample_headers) (Some (Body.mk None))
                 (Some [ Part.mk (Some "text/html") (Some (Body.mk (Some "PGI+SGk8L2I+")));
                         Part.mk (Some "text/plain") (Some (Body.mk (Some "SGVsbG8="))) ]))
              eq_refl)
    as [hs [b [Ehs [Eb [Hdec _]]]]].
  - split; [discriminate |]. split; [discriminate |].
    intros b0 l p _ _ El Ef. injection El as <-. vm_compute in Ef.
    injection Ef as <-. discriminate.
  - injection Ehs as <-. injection Eb as <-. rewrite Hdec. vm_compute. reflexivity.
Defined.

(** A payload without its [body] container, and a text part without one:
    decoding raises a [TypeError], and the message is reported as failed.
    A header is not found under another case of its name. *)
Lemma decode_raises :
  decode (scripted happy)
         (Message.mk (Some "m1") (Some "thread-1")
            (Some (Payload.mk (Some sample_headers) None None)))
  = Throw (TypeError_read "undefined" "data")
  /\ decode (scripted happy)
            (Message.mk (Some "m1") (Some "thread-1")
               (Some (Payload.mk (Some sample_headers) (Some (Body.mk None))
                        (Some [Part.mk (Some "text/plain") None]))))
     = Throw (TypeError_read "undefined" "data")
  /\ fst (processEmail
            (scripted (with_fetching
                         (fun i => Return (Message.mk i (Some "thread-1")
                                             (Some (Payload.mk (Some sample_headers)
                                                               None None))))
                         happy))
            (stub "m1") initial)
     = Return (Failure "Cannot read properties of undefined (reading 'data')").
Proof. repeat split; vm_compute; reflexivity. Qed.

Example header_case_sensitive :
  header "Subject" [Header.mk (Some "subject") (Some "Pricing")] = "".
Proof. reflexivity. Qed.

(* ===================================================================== *)
(** * The log store and [GET /logs] *)
(* ===================================================================== *)

Section Logs.

Variable w : World.

Lemma LogStep_refl (st : State) : LogStep st st.
Proof. split; auto. Qed.

Lemma LogStep_trans (a b c : State) : LogStep a b -> LogStep b c -> LogStep a c.
Proof. intros [B1 C1] [B2 C2]. split; auto. Qed.

Lemma Step_LogStep (P : Event -> Prop) (a b : State) : Step P a b -> LogStep a b.
Proof. intros [_ _ B C]. split; assumption. Qed.

Lemma processEmail_LogStep (message : Message.t) :
  keeps LogStep (processEmail w message).
Proof.
  intros st.
  destruct (processEmail_summary w message st)
    as [result [st' [evs [Hrun [_ [_ [_ [_ [B C]]]]]]]]].
  rewrite Hrun. split; assumption.
Qed.

Lemma process_each_LogStep (newEmails : list Message.t)
      (results : list ProcessingResult) :
  keeps LogStep (process_each w newEmails results).
Proof.
  intros st.
  destruct (process_each_runs w newEmails results st)
    as [rs [st' [evs [Hrun [_ [_ [_ [_ [B C]]]]]]]]].
  rewrite Hrun. split; assumption.
Qed.

Lemma log_LogStep (message : string) : keeps LogStep (log w message).
Proof.
  intros st. eapply Step_LogStep. apply (Step_logged w (fun _ => True)). auto.
Qed.

Lemma request_LogStep {A} (e : Event) (reply : list Event -> completion A) :
  is_console e = false -> keeps LogStep (request e reply).
Proof.
  intros H st. eapply Step_LogStep. apply (Step_record (fun _ => True)); auto.
Qed.

(** Every cycle, however it ends, keeps the two properties of the log
    store. *)
Lemma monitorEmails_LogStep : keeps LogStep (monitorEmails w).
Proof.
  pose proof LogStep_refl as Rr. pose proof LogStep_trans as Rt.
  unfold monitorEmails.
  apply keeps_try_catch; [exact Rt | |].
  - apply keeps_bind; [exact Rt | apply log_LogStep |]. intros _.
    apply keeps_bind; [exact Rt | apply request_LogStep; reflexivity |].
    intros [messages |].
    + apply keeps_bind; [exact Rt | apply keeps_get_state; exact Rr |].
      intros st0. cbv zeta.
      destruct (unprocessed (processedEmails st0) messages) as [| m ms].
      * apply keeps_bind; [exact Rt | apply log_LogStep |]. intros _.
        apply keeps_ret. exact Rr.
      * apply keeps_bind; [exact Rt | apply log_LogStep |]. intros _.
        apply keeps_bind; [exact Rt | apply process_each_LogStep |]. intros rs.
        apply keeps_ret. exact Rr.
    + apply keeps_bind; [exact Rt | apply log_LogStep |]. intros _.
      apply keeps_ret. exact Rr.
  - intros e.
    apply keeps_bind; [exact Rt | apply log_LogStep |]. intros _.
    apply keeps_throw. exact Rr.
Qed.

Lemma initial_consistent : bounded initial /\ consistent initial.
Proof. split; [unfold bounded; simpl; lia | reflexivity]. Qed.

(** C9.  A log insertion into a store of at most 100 entries leaves a store
    of at most 100 entries: below 100 the entry is appended; at 100 the
    oldest entry is dropped and the others keep their order, the new entry
    last.  The store starts empty, and a run of [processEmail] or a whole
    cycle keeps the bound too. *)
Theorem log_store_bounded (message : string) (st : State) :
  bounded st ->
  let entry := "[" ++ Date_toISOString w (trace st) ++ "] " ++ message in
  let st' := snd (log w message st) in
  fst (log w message st) = Return tt
  /\ bounded st'
  /\ (List.length (logs st) < 100 -> logs st' = (logs st ++ [entry])%list)
  /\ (List.length (logs st) = 100 -> logs st' = (List.tl (logs st) ++ [entry])%list)
  /\ bounded initial
  /\ (forall m, bounded (snd (processEmail w m st)))
  /\ bounded (snd (monitorEmails w st)).
Proof.
  intros Hb. cbv zeta. split; [reflexivity |].
  split; [apply push_log_bounded; exact Hb |].
  split; [apply push_log_below |].
  split; [apply push_log_full |].
  split; [apply initial_consistent |].
  split.
  - intros m. apply (processEmail_LogStep m st). exact Hb.
  - apply (monitorEmails_LogStep st). exact Hb.
Qed.

Lemma slice_last_slice_last {A} (n k : nat) (l : list A) :
  n <= k -> slice_last n (slice_last k l) = slice_last n l.
Proof.
  intros H. unfold slice_last at 1 3. rewrite length_slice_last.
  unfold slice_last. rewrite List.skipn_skipn. f_equal. lia.
Qed.

(** C10, as the code has it.  [GET /logs] returns the last 50 entries ever
    logged (all of them while there are fewer), never more than 50, and a
    [total] that is the number of entries the store holds: the all-time
    count capped at 100. *)
Theorem GET_logs_recent (st : State) :
  consistent st ->
  let history := console_entries (trace st) in
  logs_field (GET_logs st) = slice_last 50 history
  /\ List.length (logs_field (GET_logs st)) = Nat.min 50 (List.length history)
  /\ total (GET_logs st) = Nat.min 100 (List.length history).
Proof.
  intros Hc. cbv zeta. unfold GET_logs. simpl. rewrite Hc.
  rewrite slice_last_slice_last by lia.
  rewrite !length_slice_last. auto.
Qed.

End Logs.

Lemma log_store_bounded_witness :
  List.length (logs (snd (log (scripted happy) "one more"
                              (log_many (scripted happy) 100 initial)))) <= 100.
Proof.
  assert (H : bounded (log_many (scripted happy) 100 initial)).
  { unfold bounded. vm_compute. lia. }
  exact (proj1 (proj2 (log_store_bounded
                         (scripted happy) "one more"
                         (log_many (scripted happy) 100 initial) H))).
Defined.

Lemma GET_logs_recent_witness :
  total (GET_logs (log_many (scripted happy) 101 initial)) = 100.
Proof.
  assert (H : consistent (log_many (scripted happy) 101 initial)).
  { vm_compute. reflexivity. }
  exact (proj2 (proj2 (GET_logs_recent (log_many (scripted happy) 101 initial) H))).
Defined.

(** After 101 entries the [total] of [GET /logs] is 100, not 101. *)
Lemma total_is_not_all_time :
  total (GET_logs (log_many (scripted happy) 101 initial)) = 100
  /\ List.length (console_entries (trace (log_many (scripted happy) 101 initial))) = 101.
Proof. split; vm_compute; reflexivity. Qed.

(* ===================================================================== *)
(** * Labelling failures *)
(* ===================================================================== *)

Section Labelling.

Variable w : World.

Lemma split_unique (pre post before after : list Event) (x y : Event) :
  (pre ++ x :: post = before ++ y :: after)%list ->
  is_draft y = true ->
  Forall no_draft pre -> Forall no_draft post ->
  before = pre /\ y = x /\ after = post.
Proof.
  intros E Hy Hpre Hpost. revert before E.
  induction Hpre as [| p pre Hp _ IH]; intros [| b before] E; simpl in E.
  - injection E as -> ->. auto.
  - injection E as -> E. exfalso.
    assert (Hin : In y post) by (rewrite E; apply List.in_elt).
    rewrite List.Forall_forall in Hpost. specialize (Hpost y Hin).
    unfold no_draft in Hpost. congruence.
  - injection E as -> E. unfold no_draft in Hp. congruence.
  - injection E as -> E. destruct (IH before E) as [-> [-> ->]]. auto.
Qed.

Lemma inference_no_draft (e : Event) : inference_event e -> no_draft e.
Proof. destruct e; simpl; try contradiction; reflexivity. Qed.

Lemma label_no_draft (i : option string) (e : Event) : label_event i e -> no_draft e.
Proof. destruct e; simpl; try contradiction; reflexivity. Qed.

(** Where the draft request stands in a run of [processEmail]: nowhere
    when the run failed before it; otherwise once, answered with an error
    when the run failed and with a draft when it succeeded, and followed by
    labelling events only. *)
Lemma processEmail_outcome_draft (message : Message.t) (st : State)
      (result : ProcessingResult) (st' : State) :
  processEmail_outcome w message st result st' ->
  (exists evs, trace st' = (trace st ++ evs)%list /\ Forall no_draft evs
               /\ success result = false)
  \/ (exists pre dc post,
         trace st' = (trace st ++ pre ++ dc :: post)%list
         /\ Forall no_draft pre /\ is_draft dc = true
         /\ Forall (label_event (Message.id message)) post
         /\ match drafts_create_reply w (trace st ++ pre ++ [dc])%list with
            | Return _ => success result = true
            | Throw _ => success result = false
            end).
Proof.
  assert (Hlog : forall m s, Step no_draft s (logged w m s)).
  { intros m s. apply Step_logged. intros entry. reflexivity. }
  assert (Hfetch : Step no_draft st (record (fetch message) st)).
  { apply Step_record; reflexivity. }
  assert (Hlabel : forall m s, Step (label_event (Message.id message)) s (logged w m s)).
  { intros m s. apply Step_logged. intros entry. exact I. }
  intros H. destruct H as [e Hget | fm e Hget Hdec | fm email analysis st3 e Hget Hdec Han Hlead
                           | fm email analysis st3 isLead confidence reason e
                                Hget Hdec Han Hlead Hc Hr Hline
                           | fm email analysis st3 isLead confidence reason line draftBody
                                st5 e Hget Hdec Han Hlead Hc Hr Hline Hgen Hdraft
                           | fm email analysis st3 isLead confidence reason line draftBody
                                st5 d st7 Hget Hdec Han Hlead Hc Hr Hline Hgen Hdraft Hlab].
  - left.
    assert (S : Step no_draft st (caught w message e (record (fetch message) st)))
      by (eapply Step_trans; [exact Hfetch | apply Hlog]).
    destruct S as [_ [evs [T F]] _ _]. exists evs. auto.
  - left.
    assert (S : Step no_draft st (caught w message e (record (fetch message) st)))
      by (eapply Step_trans; [exact Hfetch | apply Hlog]).
    destruct S as [_ [evs [T F]] _ _]. exists evs. auto.
  - left.
    assert (S : Step no_draft st (caught w message e st3)).
    { eapply Step_trans; [| apply Hlog].
      eapply Step_trans; [exact Hfetch |].
      eapply Step_to_verdict; [apply inference_no_draft | exact Han]. }
    destruct S as [_ [evs [T F]] _ _]. exists evs. auto.
  - left.
    assert (S : Step no_draft st (caught w message e st3)).
    { eapply Step_trans; [| apply Hlog].
      eapply Step_trans; [exact Hfetch |].
      eapply Step_to_verdict; [apply inference_no_draft | exact Han]. }
    destruct S as [_ [evs [T F]] _ _]. exists evs. auto.
  - right.
    assert (S : Step no_draft st st5).
    { eapply Step_trans; [exact Hfetch |].
      eapply Step_to_draft; [apply inference_no_draft | exact Han | exact Hgen]. }
    destruct S as [_ [pre [T F]] _ _].
    exists pre, (draft_request message fm email draftBody).
    eexists [_; _].
    split; [simpl; rewrite T, <- !List.app_assoc; reflexivity |].
    split; [exact F |]. split; [reflexivity |].
    split; [repeat constructor |].
    rewrite List.app_assoc, <- T.
    simpl in Hdraft. rewrite Hdraft. reflexivity.
  - right.
    assert (S : Step no_draft st st5).
    { eapply Step_trans; [exact Hfetch |].
      eapply Step_to_draft; [apply inference_no_draft | exact Han | exact Hgen]. }
    destruct S as [_ [pre [T F]] _ _].
    assert (S' : Step (label_event (Message.id message))
                      (record (draft_request message fm email draftBody) st5)
                      (logged w ("Successfully processed email "
                                   ++ show (Message.id message)
                                   ++ " - Created draft and added " ++ dq
                                   ++ label_of isLead ++ dq ++ " label") st7)).
    { eapply Step_trans; [| apply Hlabel].
      eapply keeps_run; [apply addLabelToEmail_keeps | exact Hlab]. }
    destruct S' as [_ [post [T' F']] _ _].
    exists pre, (draft_request message fm email draftBody), post.
    split; [rewrite T'; simpl; rewrite T, <- !List.app_assoc; reflexivity |].
    split; [exact F |]. split; [reflexivity |]. split; [exact F' |].
    rewrite List.app_assoc, <- T.
    simpl in Hdraft. rewrite Hdraft. reflexivity.
Qed.

(** Where a run stands with respect to its draft request, in detail. *)
Lemma processEmail_outcome_draft_detail (message : Message.t) (st : State)
      (result : ProcessingResult) (st' : State) :
  processEmail_outcome w message st result st' ->
  (exists evs, trace st' = (trace st ++ evs)%list /\ Forall no_draft evs)
  \/ (exists st5 pre fullMessage email draftBody,
         let dc := draft_request message fullMessage email draftBody in
         messages_get_reply w (trace (record (fetch message) st)) = Return fullMessage
         /\ decode w fullMessage = Return email
         /\ trace st5 = (trace st ++ pre)%list /\ Forall no_draft pre
         /\ ((exists e,
                 drafts_create_reply w (trace st5 ++ [dc])%list = Throw e
                 /\ result = Failure (JS.message e)
                 /\ st' = caught w message e
                                 (logged w ("Error creating draft response: "
                                              ++ JS.message e) (record dc st5)))
             \/ (exists d post isLead,
                    drafts_create_reply w (trace st5 ++ [dc])%list = Return d
                    /\ success result = true
                    /\ trace st' = (trace st5 ++ dc :: post)%list
                    /\ Forall no_draft post
                    /\ st' = logged w ("Successfully processed email "
                                         ++ show (Message.id message)
                                         ++ " - Created draft and added " ++ dq
                                         ++ label_of isLead ++ dq ++ " label")
                                    (snd (addLabelToEmail w (Message.id message)
                                                          (label_of isLead)
                                                          (record dc st5)))))).
Proof.
  assert (Hlog : forall m s, Step no_draft s (logged w m s)).
  { intros m s. apply Step_logged. intros entry. reflexivity. }
  assert (Hfetch : Step no_draft st (record (fetch message) st)).
  { apply Step_record; reflexivity. }
  intros H.
  destruct H as [e Hget | fm e Hget Hdec | fm email analysis st3 e Hget Hdec Han Hlead
                 | fm email analysis st3 isLead confidence reason e
                      Hget Hdec Han Hlead Hc Hr Hline
                 | fm email analysis st3 isLead confidence reason line draftBody st5 e
                      Hget Hdec Han Hlead Hc Hr Hline Hgen Hdraft
                 | fm email analysis st3 isLead confidence reason line draftBody st5 d st7
                      Hget Hdec Han Hlead Hc Hr Hline Hgen Hdraft Hlab].
  - left.
    assert (S : Step no_draft st (caught w message e (record (fetch message) st)))
      by (eapply Step_trans; [exact Hfetch | apply Hlog]).
    destruct S as [_ [evs [T F]] _ _]. eauto.
  - left.
    assert (S : Step no_draft st (caught w message e (record (fetch message) st)))
      by (eapply Step_trans; [exact Hfetch | apply Hlog]).
    destruct S as [_ [evs [T F]] _ _]. eauto.
  - left.
    assert (S : Step no_draft st (caught w message e st3)).
    { eapply Step_trans; [| apply Hlog].
      eapply Step_trans; [exact Hfetch |].
      eapply Step_to_verdict; [apply inference_no_draft | exact Han]. }
    destruct S as [_ [evs [T F]] _ _]. eauto.
  - left.
    assert (S : Step no_draft st (caught w message e st3)).
    { eapply Step_trans; [| apply Hlog].
      eapply Step_trans; [exact Hfetch |].
      eapply Step_to_verdict; [apply inference_no_draft | exact Han]. }
    destruct S as [_ [evs [T F]] _ _]. eauto.
  - right.
    assert (S : Step no_draft st st5).
    { eapply Step_trans; [exact Hfetch |].
      eapply Step_to_draft; [apply inference_no_draft | exact Han | exact Hgen]. }
    destruct S as [_ [pre [T F]] _ _].
    exists st5, pre, fm, email, draftBody. cbv zeta.
    split; [exact Hget |]. split; [exact Hdec |].
    split; [exact T |]. split; [exact F |].
    left. exists e. auto.
  - right.
    assert (S : Step no_draft st st5).
    { eapply Step_trans; [exact Hfetch |].
      eapply Step_to_draft; [apply inference_no_draft | exact Han | exact Hgen]. }
    destruct S as [_ [pre [T F]] _ _].
    assert (S' : Step no_draft
                      (record (draft_request message fm email draftBody) st5)
                      (logged w ("Successfully processed email "
                                   ++ show (Message.id message)
                                   ++ " - Created draft and added " ++ dq
                                   ++ label_of isLead ++ dq ++ " label") st7)).
    { eapply Step_trans; [| apply Hlog].
      eapply Step_weaken; [apply (label_no_draft (Message.id message)) |].
      eapply keeps_run; [apply addLabelToEmail_keeps | exact Hlab]. }
    destruct S' as [_ [post [T' F']] _ _].
    exists st5, pre, fm, email, draftBody. cbv zeta.
    split; [exact Hget |]. split; [exact Hdec |].
    split; [exact T |]. split; [exact F |].
    right. exists d, post, isLead. split; [exact Hdraft |]. split; [reflexivity |].
    split; [| split; [exact F' |]].
    + rewrite T'. simpl. rewrite <- List.app_assoc. reflexivity.
    + rewrite Hlab. reflexivity.
Qed.

(** The run of [addLabelToEmail], by what the mailbox answers. *)
Lemma addLabelToEmail_run (messageId : option string) (labelName : string) (st : State) :
  let managing (e : exn) (s : State) :=
    (Return tt, logged w ("Error managing label: " ++ message e) s) in
  let applying (labelId : option string) (s : State) :=
    let s' := record (messages_modify messageId [labelId]) s in
    match messages_modify_reply w (trace s') with
    | Throw e => (Return tt, logged w ("Error adding label to email: " ++ message e) s')
    | Return _ =>
        (Return tt, logged w ("Added label " ++ dq ++ labelName ++ dq ++ " to message "
                                ++ show messageId) s')
    end in
  let s1 := record labels_list st in
  addLabelToEmail w messageId labelName st =
  match labels_list_reply w (trace s1) with
  | Throw e => managing e s1
  | Return None => managing (TypeError_read "undefined" "find") s1
  | Return (Some labels) =>
      match find_label labelName labels with
      | Some label => applying (Label.id label) s1
      | None =>
          let s2 := record (labels_create labelName "labelShow" "show") s1 in
          match labels_create_reply w (trace s2) with
          | Throw e => managing e s2
          | Return newLabel => applying (Label.id newLabel) s2
          end
      end
  end.
Proof.
  cbv zeta.
  unfold addLabelToEmail, try_catch, bind, request, lift, log, ret, existing_label.
  change (trace st ++ [labels_list])%list with (trace (record labels_list st)).
  destruct (labels_list_reply w _) as [[labels |] | e]; try reflexivity.
  destruct (find_label labelName labels) as [label |].
  - change (trace (record labels_list st) ++ [?e])%list
      with (trace (record e (record labels_list st))).
    destruct (messages_modify_reply w _); reflexivity.
  - change (trace (record labels_list st) ++ [?e])%list
      with (trace (record e (record labels_list st))).
    destruct (labels_create_reply w _) as [newLabel | e]; [| reflexivity].
    change (trace (record ?a (record labels_list st)) ++ [?e])%list
      with (trace (record e (record a (record labels_list st)))).
    destruct (messages_modify_reply w _); reflexivity.
Qed.

(** C8.  [addLabelToEmail] returns normally whatever the label lookup, the
    label creation and the label application answer.  Every failure is
    logged and nothing else happens after it: a failed lookup, a lookup
    without a list of labels and a failed creation are logged as [Error
    managing label] and nothing is applied; a failed application, of a
    label that existed or of one just created, is logged as [Error adding
    label to email]; only an application that succeeded is logged as
    [Added label].  All the function ever does is log, list labels, create
    a label and add a label to its message.  In a run of [processEmail],
    once the draft has been created (the gateway answered the draft
    request with a draft), the result has [success: true], what follows
    the draft request is that run of [addLabelToEmail] and the line of
    success, so only labelling events follow: nothing undoes the draft. *)
Theorem labelling_failure_swallowed (message : Message.t) (st : State) :
  (forall labelName st0,
      exists st1,
        addLabelToEmail w (Message.id message) labelName st0 = (Return tt, st1)
        /\ Step (label_event (Message.id message)) st0 st1
        /\ (forall e,
               labels_list_reply w (trace (record labels_list st0)) = Throw e ->
               st1 = logged w ("Error managing label: " ++ JS.message e)
                            (record labels_list st0))
        /\ (forall label labels e,
               labels_list_reply w (trace (record labels_list st0))
               = Return (Some labels) ->
               find_label labelName labels = Some label ->
               messages_modify_reply
                 w (trace (record (messages_modify (Message.id message) [Label.id label])
                                  (record labels_list st0))) = Throw e ->
               st1 = logged w ("Error adding label to email: " ++ JS.message e)
                            (record (messages_modify (Message.id message) [Label.id label])
                                    (record labels_list st0)))
        /\ (labels_list_reply w (trace (record labels_list st0)) = Return None ->
            st1 = logged w ("Error managing label: "
                              ++ JS.message (TypeError_read "undefined" "find"))
                         (record labels_list st0))
        /\ (forall labels e,
               labels_list_reply w (trace (record labels_list st0))
               = Return (Some labels) ->
               find_label labelName labels = None ->
               labels_create_reply
                 w (trace (record (labels_create labelName "labelShow" "show")
                                  (record labels_list st0))) = Throw e ->
               st1 = logged w ("Error managing label: " ++ JS.message e)
                            (record (labels_create labelName "labelShow" "show")
                                    (record labels_list st0)))
        /\ (forall labels newLabel e,
               labels_list_reply w (trace (record labels_list st0))
               = Return (Some labels) ->
               find_label labelName labels = None ->
               labels_create_reply
                 w (trace (record (labels_create labelName "labelShow" "show")
                                  (record labels_list st0))) = Return newLabel ->
               messages_modify_reply
                 w (trace (record (messages_modify (Message.id message)
                                                   [Label.id newLabel])
                                  (record (labels_create labelName "labelShow" "show")
                                          (record labels_list st0)))) = Throw e ->
               st1 = logged w ("Error adding label to email: " ++ JS.message e)
                            (record (messages_modify (Message.id message)
                                                     [Label.id newLabel])
                                    (record (labels_create labelName "labelShow" "show")
                                            (record labels_list st0))))
        /\ (forall labels label,
               labels_list_reply w (trace (record labels_list st0))
               = Return (Some labels) ->
               find_label labelName labels = Some label ->
               messages_modify_reply
                 w (trace (record (messages_modify (Message.id message) [Label.id label])
                                  (record labels_list st0))) = Return tt ->
               st1 = logged w ("Added label " ++ dq ++ labelName ++ dq ++ " to message "
                                 ++ show (Message.id message))
                            (record (messages_modify (Message.id message) [Label.id label])
                                    (record labels_list st0)))
        /\ (forall labels newLabel,
               labels_list_reply w (trace (record labels_list st0))
               = Return (Some labels) ->
               find_label labelName labels = None ->
               labels_create_reply
                 w (trace (record (labels_create labelName "labelShow" "show")
                                  (record labels_list st0))) = Return newLabel ->
               messages_modify_reply
                 w (trace (record (messages_modify (Message.id message)
                                                   [Label.id newLabel])
                                  (record (labels_create labelName "labelShow" "show")
                                          (record labels_list st0)))) = Return tt ->
               st1 = logged w ("Added label " ++ dq ++ labelName ++ dq ++ " to message "
                                 ++ show (Message.id message))
                            (record (messages_modify (Message.id message)
                                                     [Label.id newLabel])
                                    (record (labels_create labelName "labelShow" "show")
                                            (record labels_list st0)))))
  /\ (forall before threadId raw after d,
         trace (snd (processEmail w message st))
         = (trace st ++ before ++ drafts_create threadId raw :: after)%list ->
         drafts_create_reply w (trace st ++ before ++ [drafts_create threadId raw])%list
         = Return d ->
         (exists result, fst (processEmail w message st) = Return result
                         /\ success result = true)
         /\ Forall (label_event (Message.id message)) after
         /\ exists st5 labelName,
              trace st5 = (trace st ++ before ++ [drafts_create threadId raw])%list
              /\ snd (processEmail w message st)
                 = logged w ("Successfully processed email " ++ show (Message.id message)
                               ++ " - Created draft and added " ++ dq ++ labelName ++ dq
                               ++ " label")
                          (snd (addLabelToEmail w (Message.id message) labelName st5))).
Proof.
  split.
  - intros labelName st0.
    destruct (never_throws_run _ st0
                (addLabelToEmail_never_throws w (Message.id message) labelName))
      as [[] [st1 Hrun]].
    exists st1. split; [exact Hrun |].
    split; [eapply keeps_run; [apply addLabelToEmail_keeps | exact Hrun] |].
    rewrite addLabelToEmail_run in Hrun. cbv zeta in Hrun.
    split; [| split; [| split; [| split; [| split; [| split]]]]].
    + intros e He. rewrite He in Hrun. congruence.
    + intros label labels e Hl Hf Hm. rewrite Hl, Hf, Hm in Hrun. congruence.
    + intros Hl. rewrite Hl in Hrun. congruence.
    + intros labels e Hl Hf Hc. rewrite Hl, Hf, Hc in Hrun. congruence.
    + intros labels newLabel e Hl Hf Hc Hm. rewrite Hl, Hf, Hc, Hm in Hrun. congruence.
    + intros labels label Hl Hf Hm. rewrite Hl, Hf, Hm in Hrun. congruence.
    + intros labels newLabel Hl Hf Hc Hm. rewrite Hl, Hf, Hc, Hm in Hrun. congruence.
  - intros before threadId raw after d Htrace Hreply.
    destruct (processEmail_runs w message st) as [result [st' [Hrun Hout]]].
    rewrite Hrun in *. cbn [fst snd] in *.
    split; [| split].
    + destruct (processEmail_outcome_draft _ _ _ _ Hout)
        as [[evs [T [F _]]] | [pre [dc [post [T [Fpre [Hdc [Fpost Hans]]]]]]]].
      * exfalso. rewrite T in Htrace. apply List.app_inv_head in Htrace.
        rewrite List.Forall_forall in F.
        assert (Hin : In (drafts_create threadId raw) evs)
          by (rewrite Htrace; apply List.in_elt).
        specialize (F _ Hin). discriminate.
      * rewrite T in Htrace. apply List.app_inv_head in Htrace.
        destruct (split_unique _ _ _ _ _ _ Htrace eq_refl Fpre) as [-> [<- ->]].
        { eapply List.Forall_impl; [| exact Fpost]. apply label_no_draft. }
        rewrite Hreply in Hans. exists result. split; [reflexivity | exact Hans].
    + destruct (processEmail_outcome_draft _ _ _ _ Hout)
        as [[evs [T [F _]]] | [pre [dc [post [T [Fpre [Hdc [Fpost Hans]]]]]]]].
      * exfalso. rewrite T in Htrace. apply List.app_inv_head in Htrace.
        rewrite List.Forall_forall in F.
        assert (Hin : In (drafts_create threadId raw) evs)
          by (rewrite Htrace; apply List.in_elt).
        specialize (F _ Hin). discriminate.
      * rewrite T in Htrace. apply List.app_inv_head in Htrace.
        destruct (split_unique _ _ _ _ _ _ Htrace eq_refl Fpre) as [-> [<- ->]].
        { eapply List.Forall_impl; [| exact Fpost]. apply label_no_draft. }
        exact Fpost.
    + destruct (processEmail_outcome_draft_detail _ _ _ _ Hout)
        as [[evs [T F]] | [st5 [pre [fm [email [draftBody [_ [_ [T [F Hcase]]]]]]]]]].
      * exfalso. rewrite T in Htrace. apply List.app_inv_head in Htrace.
        rewrite List.Forall_forall in F.
        assert (Hin : In (drafts_create threadId raw) evs)
          by (rewrite Htrace; apply List.in_elt).
        specialize (F _ Hin). discriminate.
      * set (dc := draft_request message fm email draftBody) in *.
        destruct Hcase as [[e0 [Hans [Hres Hst]]]
                          | [d0 [post [isLead [Hans [_ [T' [F' Hst]]]]]]]].
        -- exfalso.
           assert (E : (pre ++ dc :: [console_log
                                   ("[" ++ Date_toISOString w (trace (record dc st5))
                                        ++ "] " ++ "Error creating draft response: "
                                        ++ JS.message e0);
                                 console_log
                                   ("[" ++ Date_toISOString
                                             w (trace (logged w ("Error creating draft response: "
                                                                   ++ JS.message e0)
                                                              (record dc st5)))
                                        ++ "] " ++ "Error processing email "
                                        ++ show (Message.id message) ++ ": "
                                        ++ JS.message e0)])%list
                    = (before ++ drafts_create threadId raw :: after)%list).
           { apply (List.app_inv_head (trace st)). rewrite <- Htrace, Hst. simpl.
             rewrite T, <- !List.app_assoc. reflexivity. }
           destruct (split_unique _ _ _ _ _ _ E eq_refl F) as [-> [Hy ->]].
           { repeat constructor. }
           rewrite Hy in *.
           rewrite List.app_assoc, <- T, Hans in Hreply. discriminate.
        -- assert (E : (pre ++ dc :: post
                        = before ++ drafts_create threadId raw :: after)%list).
           { apply (List.app_inv_head (trace st)). rewrite <- Htrace, T', T.
             rewrite <- !List.app_assoc. reflexivity. }
           destruct (split_unique _ _ _ _ _ _ E eq_refl F F') as [-> [Hy ->]].
           exists (record dc st5), (label_of isLead). split; [| exact Hst].
           simpl. rewrite T, Hy, <- List.app_assoc. reflexivity.
Qed.

End Labelling.

Lemma labelling_failure_swallowed_witness :
  labels_list_reply (scripted labels_unavailable) [] = Throw (mkExn "Error" "Backend Error")
  /\ addLabelToEmail (scripted label_creation_refused) (Some "m1") "lead" initial
     = (Return tt,
        logged (scripted label_creation_refused) "Error managing label: Quota exceeded"
               (record (labels_create "lead" "labelShow" "show")
                       (record labels_list initial)))
  /\ exists result,
       fst (processEmail (scripted labels_unavailable) (stub "m1") initial) = Return result
       /\ success result = true.
Proof.
  split; [reflexivity |]. split.
  { destruct (proj1 (labelling_failure_swallowed
                       (scripted label_creation_refused) (stub "m1") initial)
                    "lead" initial)
      as [st1 [Hrun [_ [_ [_ [_ [Hcreate _]]]]]]].
    change (Message.id (stub "m1")) with (Some "m1") in Hrun.
    rewrite Hrun.
    rewrite (Hcreate [] (mkExn "Error" "Quota exceeded") eq_refl eq_refl eq_refl).
    reflexivity. }
  refine (proj1 (proj2 (labelling_failure_swallowed
                          (scripted labels_unavailable) (stub "m1") initial)
                       (List.firstn 5 (trace (snd (processEmail (scripted labels_unavailable)
                                                                (stub "m1") initial))))
                       (Some "thread-1")
                       (url_safe (base64_encode
                                    (envelope (Some "m1") "ann@example.com" "Pricing"
                                              (Some "Thank you for reaching out."))))
                       (List.skipn 6 (trace (snd (processEmail (scripted labels_unavailable)
                                                               (stub "m1") initial))))
                       (Draft.mk (Some "draft-1")) _ _)).
  - vm_compute. reflexivity.
  - reflexivity.
Defined.

(* ===================================================================== *)
(** * The poll cycle: the ledger and the candidate boundary *)
(* ===================================================================== *)

Section Ledger.

Variable w : World.

Lemma unprocessed_iff (ledger : gset (option string)) (messages : list Message.t)
      (m : Message.t) :
  In m (unprocessed ledger messages) <-> In m messages /\ Message.id m ∉ ledger.
Proof.
  unfold unprocessed. rewrite List.filter_In, negb_true_iff, bool_decide_eq_false.
  reflexivity.
Qed.

Lemma header_event_not_fetch (hdr : list Event) :
  Forall header_event hdr -> fetched hdr = [].
Proof.
  induction 1 as [| e hdr He _ IH]; [reflexivity |].
  destruct e; simpl in *; try exact IH; contradiction.
Qed.

Lemma fetched_app (a b : list Event) : fetched (a ++ b) = (fetched a ++ fetched b)%list.
Proof. unfold fetched. apply List.flat_map_app. Qed.

Lemma ids_unprocessed_three (a b c : option string) (messages : list Message.t) :
  ids messages = [a; b; c] -> a <> b -> a <> c ->
  ids (unprocessed {[ a ]} messages) = [b; c].
Proof.
  intros Hids Hab Hac.
  destruct messages as [| ma [| mb [| mc [| ? ?]]]]; try discriminate.
  injection Hids as <- <- <-. unfold unprocessed. simpl.
  rewrite bool_decide_eq_true_2 by set_solver.
  rewrite !bool_decide_eq_false_2 by set_solver.
  reflexivity.
Qed.

(** C3.  In a cycle whose listing carries messages, the loop runs over
    exactly the listed messages whose id is not in the ledger: they are the
    ones counted, fetched (in order) and added to the ledger; every
    inference call, draft and label of the cycle is made on behalf of one
    of them; no request fetches or labels a message whose id was in the
    ledger.  With a listing of ids [a; b; c] and the ledger [{a}]: the
    messages fetched are [b; c], the count is 2 and the ledger ends as
    [{a; b; c}]. *)
Theorem ledger_ids_skipped (st : State) (messages : list Message.t) :
  messages_list_reply w (trace (listing_state w st)) = Return (Some messages) ->
  let newEmails := unprocessed (processedEmails st) messages in
  exists results st' hdr evs,
    monitorEmails w st = (Return (mkReport (List.length newEmails) results), st')
    /\ List.length results = List.length newEmails
    /\ (forall m, In m newEmails <-> In m messages /\ Message.id m ∉ processedEmails st)
    /\ trace st' = (trace st ++ hdr ++ evs)%list
    /\ Forall header_event hdr
    /\ cycle_trace newEmails evs
    /\ Forall (addressed_to (ids newEmails)) evs
    /\ fetched (hdr ++ evs) = ids newEmails
    /\ (forall i e, i ∈ processedEmails st -> In e (hdr ++ evs)%list -> ~ mentions i e)
    /\ processedEmails st' = processedEmails st ∪ list_to_set (ids newEmails)
    /\ (forall a b c,
           ids messages = [a; b; c] -> processedEmails st = {[ a ]} ->
           a <> b -> a <> c ->
           fetched (hdr ++ evs) = [b; c]
           /\ List.length newEmails = 2
           /\ processedEmails st' = {[ a; b; c ]}).
Proof.
  intros Hlist newEmails.
  destruct (monitorEmails_runs w st messages Hlist)
    as [results [st' [hdr [evs [Hrun [F2 [L [T [Fh [Cy _]]]]]]]]]].
  fold newEmails in Hrun, F2, L, Cy.
  assert (Hf : fetched (hdr ++ evs) = ids newEmails).
  { rewrite fetched_app, (header_event_not_fetch _ Fh). simpl.
    apply cycle_trace_fetched. exact Cy. }
  pose proof (cycle_trace_addressed _ _ Cy) as Ha.
  exists results, st', hdr, evs.
  split; [exact Hrun |].
  split; [symmetry; eapply Forall2_length; exact F2 |].
  split; [intros m; apply unprocessed_iff |].
  split; [exact T |]. split; [exact Fh |]. split; [exact Cy |].
  split; [exact Ha |]. split; [exact Hf |].
  split; [| split; [exact L |]].
  - intros i e Hi Hin Hm. apply List.in_app_or in Hin. destruct Hin as [Hin | Hin].
    + rewrite List.Forall_forall in Fh. specialize (Fh e Hin).
      destruct e; simpl in *; contradiction.
    + rewrite List.Forall_forall in Ha. specialize (Ha e Hin).
      assert (Hcand : In i (ids newEmails)).
      { destruct e; simpl in *; try contradiction; subst; exact Ha. }
      unfold ids in Hcand. apply List.in_map_iff in Hcand.
      destruct Hcand as [m [<- Hm']].
      apply (unprocessed_fresh _ _ _ Hm'). exact Hi.
  - intros a b c Hids Hled Hab Hac.
    assert (Hnew : ids newEmails = [b; c]).
    { unfold newEmails. rewrite Hled. apply ids_unprocessed_three; assumption. }
    split; [rewrite Hf; exact Hnew |].
    split.
    + unfold ids in Hnew. apply (f_equal (@List.length _)) in Hnew.
      rewrite List.length_map in Hnew. exact Hnew.
    + rewrite L, Hnew, Hled. set_solver.
Qed.


End Ledger.

Lemma ledger_ids_skipped_witness :
  exists results st',
    monitorEmails (scripted happy) (mkState {[ Some "a" ]} [] [])
    = (Return (mkReport 2 results), st')
    /\ processedEmails st' = {[ Some "a"; Some "b"; Some "c" ]}.
Proof.
  destruct (ledger_ids_skipped (scripted happy) (mkState {[ Some "a" ]} [] [])
                               [stub "a"; stub "b"; stub "c"] eq_refl)
    as [results [st' [hdr [evs [Hrun [_ [_ [_ [_ [_ [_ [_ [_ [_ Hsc]]]]]]]]]]]]]].
  destruct (Hsc (Some "a") (Some "b") (Some "c") eq_refl eq_refl)
    as [_ [Hlen Hled]]; [discriminate | discriminate |].
  exists results, st'. split; [| exact Hled].
  rewrite Hrun. do 3 f_equal; exact Hlen.
Defined.


(* ===================================================================== *)
(** * Whole cycles *)
(* ===================================================================== *)

Lemma calls_app (a b : list Event) : calls (a ++ b) = (calls a ++ calls b)%list.
Proof.
  induction a as [| e a IH]; [reflexivity |].
  simpl. destruct (call_of e); rewrite IH; reflexivity.
Qed.

Section WholeCycles.

Variable w : World.

(** The run of [monitorEmails], by what the listing answers. *)
Lemma monitorEmails_run (st : State) :
  monitorEmails w st =
  match messages_list_reply w (trace (listing_state w st)) with
  | Throw e =>
      (Throw e, logged w ("Error monitoring emails: " ++ message e) (listing_state w st))
  | Return None =>
      (Return (mkReport 0 []), logged w "No new emails found" (listing_state w st))
  | Return (Some messages) =>
      match unprocessed (processedEmails st) messages with
      | [] =>
          (Return (mkReport 0 []),
           logged w "No new unprocessed emails found" (listing_state w st))
      | m :: ms =>
          match process_each
                  w (m :: ms) []
                  (logged w ("Found " ++ string_of_nat (List.length (m :: ms))
                               ++ " new emails to process") (listing_state w st)) with
          | (Return results, st') =>
              (Return (mkReport (List.length (m :: ms)) results), st')
          | (Throw e, st') =>
              (Throw e, logged w ("Error monitoring emails: " ++ message e) st')
          end
      end
  end.
Proof.
  unfold monitorEmails, try_catch.
  unfold bind at 1, log at 1. unfold bind at 1, request at 1.
  change (record (messages_list "is:unread" 10) (logged w "Checking for new emails..." st))
    with (listing_state w st).
  change (trace (logged w "Checking for new emails..." st)
            ++ [messages_list "is:unread" 10])%list
    with (trace (listing_state w st)).
  destruct (messages_list_reply w (trace (listing_state w st)))
    as [[messages |] | e]; try reflexivity.
  unfold bind at 1, get_state at 1.
  change (processedEmails (listing_state w st)) with (processedEmails st).
  destruct (unprocessed (processedEmails st) messages) as [| m ms]; [reflexivity |].
  unfold bind at 1, log at 1. unfold bind at 1.
  destruct (process_each w (m :: ms) [] _) as [[results | e] st']; reflexivity.
Qed.

(** X1.  A cycle fails as a whole exactly when the listing call fails: it
    then logs the error and rethrows it, having asked for nothing but the
    listing and with the ledger as it was.  Whatever happens to the
    candidates, a cycle whose listing succeeded returns a report. *)
Theorem monitorEmails_fails_only_on_listing (st : State) :
  match messages_list_reply w (trace (listing_state w st)) with
  | Throw e =>
      monitorEmails w st
      = (Throw e,
         logged w ("Error monitoring emails: " ++ message e) (listing_state w st))
      /\ processedEmails (snd (monitorEmails w st)) = processedEmails st
      /\ calls (trace (snd (monitorEmails w st))) = (calls (trace st) ++ [Listing])%list
  | Return _ => exists report st', monitorEmails w st = (Return report, st')
  end.
Proof.
  destruct (messages_list_reply w (trace (listing_state w st)))
    as [[messages |] | e] eqn:Hlist.
  - destruct (monitorEmails_runs w st messages Hlist) as [results [st' [_ [_ [H _]]]]].
    eauto.
  - rewrite monitorEmails_run, Hlist. eauto.
  - rewrite monitorEmails_run, Hlist. split; [reflexivity |].
    split; [reflexivity |]. simpl.
    rewrite !calls_app. simpl. rewrite !List.app_nil_r. reflexivity.
Qed.

Lemma unprocessed_nil (ledger : gset (option string)) (messages : list Message.t) :
  (forall m, In m messages -> Message.id m ∈ ledger) ->
  unprocessed ledger messages = [].
Proof.
  intros H. unfold unprocessed. induction messages as [| m ms IH]; [reflexivity |].
  simpl. rewrite bool_decide_eq_true_2 by (apply H; left; reflexivity).
  simpl. apply IH. intros x Hx. apply H. right. exact Hx.
Qed.

(** A cycle with nothing to do. *)
Lemma idle_cycle (st : State) (listed : option (list Message.t)) :
  messages_list_reply w (trace (listing_state w st)) = Return listed ->
  (forall messages m, listed = Some messages -> In m messages ->
                      Message.id m ∈ processedEmails st) ->
  exists st',
    monitorEmails w st = (Return (mkReport 0 []), st')
    /\ processedEmails st' = processedEmails st
    /\ logs st' = push_log ("[" ++ Date_toISOString w (trace (listing_state w st)) ++ "] "
                              ++ match listed with
                                 | None => "No new emails found"
                                 | Some _ => "No new unprocessed emails found"
                                 end)
                           (logs (listing_state w st))
    /\ calls (trace st') = (calls (trace st) ++ [Listing])%list.
Proof.
  intros Hlist Hall. rewrite monitorEmails_run, Hlist.
  destruct listed as [messages |].
  - rewrite unprocessed_nil by (intros m Hm; eapply Hall; [reflexivity | exact Hm]).
    eexists. split; [reflexivity |]. split; [reflexivity |]. split; [reflexivity |].
    simpl. rewrite !calls_app. simpl. rewrite !List.app_nil_r. reflexivity.
  - eexists. split; [reflexivity |]. split; [reflexivity |]. split; [reflexivity |].
    simpl. rewrite !calls_app. simpl. rewrite !List.app_nil_r. reflexivity.
Qed.

(** X2.  A cycle has nothing to do when the listing carries no [messages]
    field, or when every listed id (if any) is in the ledger: it reports
    [{processed: 0, results: []}], leaves the ledger as it was and asks for
    nothing but the listing; the log line tells the two cases apart. *)
Theorem monitorEmails_idle (st : State) (listed : option (list Message.t)) :
  messages_list_reply w (trace (listing_state w st)) = Return listed ->
  (forall messages m, listed = Some messages -> In m messages ->
                      Message.id m ∈ processedEmails st) ->
  exists st',
    monitorEmails w st = (Return (mkReport 0 []), st')
    /\ processedEmails st' = processedEmails st
    /\ logs st' = push_log ("[" ++ Date_toISOString w (trace (listing_state w st)) ++ "] "
                              ++ match listed with
                                 | None => "No new emails found"
                                 | Some _ => "No new unprocessed emails found"
                                 end)
                           (logs (listing_state w st))
    /\ calls (trace st') = (calls (trace st) ++ [Listing])%list.
Proof.
  intros Hlist Hall. rewrite monitorEmails_run, Hlist.
  assert (Hcalls : forall m,
             calls (trace (logged w m (listing_state w st)))
             = (calls (trace st) ++ [Listing])%list).
  { intros m. simpl. rewrite !calls_app. simpl. rewrite !List.app_nil_r. reflexivity. }
  destruct listed as [messages |].
  - rewrite unprocessed_nil by (intros m Hm; eapply Hall; [reflexivity | exact Hm]).
    eexists. split; [reflexivity |]. split; [reflexivity |]. split; [reflexivity |].
    apply Hcalls.
  - eexists. split; [reflexivity |]. split; [reflexivity |]. split; [reflexivity |].
    apply Hcalls.
Qed.

(** After a cycle every listed id is in the ledger. *)
Lemma listed_ids_recorded (st : State) (messages : list Message.t) :
  messages_list_reply w (trace (listing_state w st)) = Return (Some messages) ->
  forall m, In m messages -> Message.id m ∈ processedEmails (snd (monitorEmails w st)).
Proof.
  intros Hlist m Hm.
  destruct (monitorEmails_runs w st messages Hlist)
    as [results [st' [hdr [evs [Hrun [_ [L _]]]]]]].
  rewrite Hrun. simpl. rewrite L.
  destruct (decide (Message.id m ∈ processedEmails st)) as [Hin | Hout].
  - apply elem_of_union_l. exact Hin.
  - apply elem_of_union_r, elem_of_list_to_set, list_elem_of_In.
    unfold ids. apply List.in_map. apply unprocessed_iff. auto.
Qed.

(** X3.  Cycles compose: after a cycle every listed id is in the ledger,
    so a later cycle that lists only ids listed before (the ledger never
    having lost an id in between) has nothing to do: it fetches, classifies,
    drafts and labels nothing again. *)
Theorem monitorEmails_again (st : State) (messages : list Message.t) :
  messages_list_reply w (trace (listing_state w st)) = Return (Some messages) ->
  let st1 := snd (monitorEmails w st) in
  (forall m, In m messages -> Message.id m ∈ processedEmails st1)
  /\ forall st2 messages2,
       processedEmails st1 ⊆ processedEmails st2 ->
       messages_list_reply w (trace (listing_state w st2)) = Return (Some messages2) ->
       (forall m, In m messages2 -> In (Message.id m) (ids messages)) ->
       exists st3,
         monitorEmails w st2 = (Return (mkReport 0 []), st3)
         /\ processedEmails st3 = processedEmails st2
         /\ calls (trace st3) = (calls (trace st2) ++ [Listing])%list.
Proof.
  intros Hlist st1. split; [apply listed_ids_recorded; exact Hlist |].
  intros st2 messages2 Hsub Hlist2 Hids.
  destruct (idle_cycle st2 (Some messages2) Hlist2) as [st3 [Hrun [L [_ C]]]].
  - intros ms m Hms Hm. injection Hms as <-. apply Hsub.
    specialize (Hids m Hm). unfold ids in Hids. apply List.in_map_iff in Hids.
    destruct Hids as [m' [<- Hm']]. exact (listed_ids_recorded st messages Hlist m' Hm').
  - exists st3. auto.
Qed.

End WholeCycles.

Lemma monitorEmails_idle_witness :
  fst (monitorEmails (scripted happy)
                     (mkState {[ Some "a"; Some "b"; Some "c" ]} [] []))
  = Return (mkReport 0 []).
Proof.
  destruct (monitorEmails_idle
              (scripted happy) (mkState {[ Some "a"; Some "b"; Some "c" ]} [] [])
              (Some [stub "a"; stub "b"; stub "c"]) eq_refl)
    as [st' [Hrun _]].
  - intros messages m Hms Hm. injection Hms as <-.
    simpl in Hm. destruct Hm as [<- | [<- | [<- | []]]]; simpl; set_solver.
  - rewrite Hrun. reflexivity.
Defined.

Lemma monitorEmails_again_witness :
  fst (monitorEmails (scripted happy) (snd (monitorEmails (scripted happy) initial)))
  = Return (mkReport 0 []).
Proof.
  destruct (monitorEmails_again (scripted happy) initial
                                [stub "a"; stub "b"; stub "c"] eq_refl)
    as [_ H].
  destruct (H (snd (monitorEmails (scripted happy) initial))
              [stub "a"; stub "b"; stub "c"])
    as [st3 [Hrun _]].
  - reflexivity.
  - reflexivity.
  - intros m Hm. unfold ids. apply List.in_map. exact Hm.
  - rewrite Hrun. reflexivity.
Defined.

(* ===================================================================== *)
(** * The requests of a message and of a cycle *)
(* ===================================================================== *)

Section Requests.

Variable w : World.

Lemma calls_logged (message : string) (st : State) :
  calls (trace (logged w message st)) = calls (trace st).
Proof. simpl. rewrite calls_app. simpl. apply List.app_nil_r. Qed.

Lemma calls_record (e : Event) (c : Call) (st : State) :
  call_of e = Some c -> calls (trace (record e st)) = (calls (trace st) ++ [c])%list.
Proof. intros H. simpl. rewrite calls_app. simpl. rewrite H. reflexivity. Qed.

(** The run of [generateDraftResponse], by what the gateway answers. *)
Lemma generateDraftResponse_run (originalEmail : InboundMessage)
      (isLead analysis : value) (st : State) :
  let st1 := record (drafting_request originalEmail isLead) st in
  let failed (e : exn) :=
    (Return (Some (if truthy isLead then lead_fallback else other_fallback)),
     logged w ("Error generating draft response: " ++ message e) st1) in
  generateDraftResponse w originalEmail isLead analysis st =
  match chat_completions_reply w (trace st1) with
  | Throw e => failed e
  | Return response =>
      match first_content response with
      | Throw e => failed e
      | Return content => (Return content, st1)
      end
  end.
Proof.
  cbv zeta. unfold generateDraftResponse, try_catch, bind, request, lift, log, ret.
  cbv zeta. fold (drafting_request originalEmail isLead).
  change (trace st ++ [?e])%list with (trace (record e st)).
  destruct (chat_completions_reply w _) as [response | e]; [| reflexivity].
  destruct (first_content response); reflexivity.
Qed.

Lemma analyzeEmailContent_calls (subject body : string) (st : State) :
  calls (trace (snd (analyzeEmailContent w subject body st)))
  = (calls (trace st) ++ [Inference])%list.
Proof.
  rewrite analyzeEmailContent_run. cbv zeta.
  destruct (chat_completions_reply w _) as [response | e].
  - destruct (first_content response) as [content | e].
    + destruct (JSON_parse _); cbn [snd]; rewrite ?calls_logged;
        apply calls_record; reflexivity.
    + cbn [snd]. rewrite calls_logged. apply calls_record. reflexivity.
  - cbn [snd]. rewrite calls_logged. apply calls_record. reflexivity.
Qed.

Lemma generateDraftResponse_calls (email : InboundMessage) (isLead analysis : value)
      (st : State) :
  calls (trace (snd (generateDraftResponse w email isLead analysis st)))
  = (calls (trace st) ++ [Inference])%list.
Proof.
  rewrite generateDraftResponse_run. cbv zeta.
  destruct (chat_completions_reply w _) as [response | e].
  - destruct (first_content response) as [content | e]; cbn [snd];
      rewrite ?calls_logged; apply calls_record; reflexivity.
  - cbn [snd]. rewrite calls_logged. apply calls_record. reflexivity.
Qed.

Lemma addLabelToEmail_calls (messageId : option string) (labelName : string)
      (st : State) :
  exists k,
    calls (trace (snd (addLabelToEmail w messageId labelName st)))
    = (calls (trace st) ++ LabelList :: k)%list
    /\ In k [[]; [LabelApply]; [LabelCreate]; [LabelCreate; LabelApply]].
Proof.
  rewrite addLabelToEmail_run. cbv zeta.
  destruct (labels_list_reply w _) as [[labels |] | e].
  - destruct (find_label labelName labels) as [label |].
    + exists [LabelApply]. split; [| simpl; auto].
      destruct (messages_modify_reply w _); cbn [snd];
        rewrite calls_logged, (calls_record _ LabelApply) by reflexivity;
        rewrite (calls_record _ LabelList) by reflexivity;
        rewrite <- List.app_assoc; reflexivity.
    + destruct (labels_create_reply w _) as [newLabel | e].
      * exists [LabelCreate; LabelApply]. split; [| simpl; auto].
        destruct (messages_modify_reply w _); cbn [snd];
          rewrite calls_logged, (calls_record _ LabelApply) by reflexivity;
          rewrite (calls_record _ LabelCreate) by reflexivity;
          rewrite (calls_record _ LabelList) by reflexivity;
          rewrite <- !List.app_assoc; reflexivity.
      * exists [LabelCreate]. split; [| simpl; auto].
        cbn [snd]. rewrite calls_logged, (calls_record _ LabelCreate) by reflexivity.
        rewrite (calls_record _ LabelList) by reflexivity.
        rewrite <- !List.app_assoc. reflexivity.
  - exists []. split; [| simpl; auto].
    cbn [snd]. rewrite calls_logged. apply calls_record. reflexivity.
  - exists []. split; [| simpl; auto].
    cbn [snd]. rewrite calls_logged. apply calls_record. reflexivity.
Qed.

Lemma processEmail_outcome_calls (message : Message.t) (st : State)
      (result : ProcessingResult) (st' : State) :
  processEmail_outcome w message st result st' ->
  exists k,
    calls (trace st') = (calls (trace st) ++ k)%list
    /\ In k message_calls
    /\ (success result = true <-> In LabelList k).
Proof.
  assert (F : calls (trace (record (fetch message) st))
              = (calls (trace st) ++ [Fetch])%list)
    by (apply calls_record; reflexivity).
  intros H.
  destruct H as [e Hget | fm e Hget Hdec | fm email analysis st3 e Hget Hdec Han Hlead
                 | fm email analysis st3 isLead confidence reason e
                      Hget Hdec Han Hlead Hc Hr Hline
                 | fm email analysis st3 isLead confidence reason line draftBody st5 e
                      Hget Hdec Han Hlead Hc Hr Hline Hgen Hdraft
                 | fm email analysis st3 isLead confidence reason line draftBody st5 d st7
                      Hget Hdec Han Hlead Hc Hr Hline Hgen Hdraft Hlab].
  - exists [Fetch]. unfold caught. rewrite calls_logged, F.
    split; [reflexivity |]. split; [simpl; auto |].
    simpl. split; [discriminate | intros [H | []]; discriminate].
  - exists [Fetch]. unfold caught. rewrite calls_logged, F.
    split; [reflexivity |]. split; [simpl; auto |].
    simpl. split; [discriminate | intros [H | []]; discriminate].
  - exists [Fetch; Inference]. unfold caught. rewrite calls_logged.
    pose proof (analyzeEmailContent_calls
                  (subject email) (body email)
                  (announced w email (record (fetch message) st))) as A.
    rewrite Han in A. cbn [snd] in A. unfold announced in A.
    rewrite calls_logged, F in A. rewrite A, <- List.app_assoc.
    split; [reflexivity |]. split; [simpl; auto |].
    simpl. split; [discriminate | intros [H | [H | []]]; discriminate].
  - exists [Fetch; Inference]. unfold caught. rewrite calls_logged.
    pose proof (analyzeEmailContent_calls
                  (subject email) (body email)
                  (announced w email (record (fetch message) st))) as A.
    rewrite Han in A. cbn [snd] in A. unfold announced in A.
    rewrite calls_logged, F in A. rewrite A, <- List.app_assoc.
    split; [reflexivity |]. split; [simpl; auto |].
    simpl. split; [discriminate | intros [H | [H | []]]; discriminate].
  - exists [Fetch; Inference; Inference; DraftCreate].
    pose proof (analyzeEmailContent_calls
                  (subject email) (body email)
                  (announced w email (record (fetch message) st))) as A.
    rewrite Han in A. cbn [snd] in A. unfold announced in A.
    rewrite calls_logged, F in A.
    pose proof (generateDraftResponse_calls
                  email isLead analysis (analysed w line st3)) as G.
    rewrite Hgen in G. cbn [snd] in G. unfold analysed in G.
    rewrite calls_logged, A in G.
    unfold caught. rewrite !calls_logged.
    rewrite (calls_record _ DraftCreate) by reflexivity.
    rewrite G, <- !List.app_assoc.
    split; [reflexivity |]. split; [simpl; auto |].
    simpl. split; [discriminate |].
    intros [H | [H | [H | [H | []]]]]; discriminate.
  - pose proof (analyzeEmailContent_calls
                  (subject email) (body email)
                  (announced w email (record (fetch message) st))) as A.
    rewrite Han in A. cbn [snd] in A. unfold announced in A.
    rewrite calls_logged, F in A.
    pose proof (generateDraftResponse_calls
                  email isLead analysis (analysed w line st3)) as G.
    rewrite Hgen in G. cbn [snd] in G. unfold analysed in G.
    rewrite calls_logged, A in G.
    destruct (addLabelToEmail_calls
                (Message.id message) (label_of isLead)
                (record (draft_request message fm email draftBody) st5))
      as [k [L Hk]].
    rewrite Hlab in L. cbn [snd] in L.
    rewrite (calls_record _ DraftCreate) in L by reflexivity.
    rewrite G in L.
    exists ([Fetch; Inference; Inference; DraftCreate] ++ LabelList :: k)%list.
    rewrite calls_logged, L, <- !List.app_assoc.
    split; [reflexivity |].
    split.
    + simpl in Hk. destruct Hk as [<- | [<- | [<- | [<- | []]]]]; simpl; auto 10.
    + simpl. split; auto 10.
Qed.

(** What every request sequence of a message keeps to. *)
Lemma message_calls_budget (k : list Call) :
  In k message_calls ->
  tally Fetch k = 1 /\ tally Inference k <= 2 /\ tally DraftCreate k <= 1
  /\ tally LabelList k <= 1 /\ tally LabelCreate k <= 1 /\ tally LabelApply k <= 1
  /\ tally Listing k = 0 /\ tally Timer k = 0
  /\ (In LabelList k -> tally Inference k = 2 /\ tally DraftCreate k = 1)
  /\ (In LabelApply k -> In LabelList k).
Proof.
  unfold message_calls. simpl.
  intros [<- | [<- | [<- | [<- | [<- | [<- | [<- | []]]]]]]];
    vm_compute; repeat split; try lia; intuition discriminate.
Qed.

(** X4.  The requests of one message are a prefix of the pipeline: the
    fetch, the classification, the draft text, the draft, the label
    listing, the label creation (only when the label is missing), the label
    application.  One of seven sequences, so never more than one fetch, two
    inference calls, one draft and one request of each kind for the label.
    The result is a success exactly when the labelling step was reached: a
    failed message is never labelled. *)
Theorem processEmail_calls (message : Message.t) (st : State) :
  exists result st' k,
    processEmail w message st = (Return result, st')
    /\ calls (trace st') = (calls (trace st) ++ k)%list
    /\ In k [ [Fetch];
              [Fetch; Inference];
              [Fetch; Inference; Inference; DraftCreate];
              [Fetch; Inference; Inference; DraftCreate; LabelList];
              [Fetch; Inference; Inference; DraftCreate; LabelList; LabelApply];
              [Fetch; Inference; Inference; DraftCreate; LabelList; LabelCreate];
              [Fetch; Inference; Inference; DraftCreate; LabelList; LabelCreate;
               LabelApply] ]
    /\ (success result = true <-> In LabelList k)
    /\ (success result = false ->
        tally LabelList k = 0 /\ tally LabelCreate k = 0 /\ tally LabelApply k = 0).
Proof.
  destruct (processEmail_runs w message st) as [result [st' [Hrun Hout]]].
  destruct (processEmail_outcome_calls _ _ _ _ Hout) as [k [C [Hk Hs]]].
  exists result, st', k. split; [exact Hrun |]. split; [exact C |].
  split; [exact Hk |]. split; [exact Hs |].
  intros Hf.
  assert (Hn : ~ In LabelList k) by (rewrite <- Hs; congruence).
  unfold message_calls in Hk. simpl in Hk.
  destruct Hk as [<- | [<- | [<- | [<- | [<- | [<- | [<- | []]]]]]]];
    try (vm_compute; auto; fail); exfalso; apply Hn; simpl; auto 10.
Qed.

End Requests.

Section Budget.

Variable w : World.

Lemma tally_app (c : Call) (a b : list Call) :
  tally c (a ++ b) = tally c a + tally c b.
Proof. unfold tally. rewrite List.filter_app, List.length_app. reflexivity. Qed.

Lemma process_each_calls (newEmails : list Message.t) :
  forall (results : list ProcessingResult) (st : State),
  exists ks,
    calls (trace (snd (process_each w newEmails results st)))
    = (calls (trace st) ++ paced ks)%list
    /\ List.length ks = List.length newEmails
    /\ Forall (fun k => In k message_calls) ks.
Proof.
  induction newEmails as [| email rest IH]; intros results st.
  - exists []. simpl. rewrite List.app_nil_r. auto.
  - destruct (processEmail_runs w email st) as [result [st1 [Hrun Hout]]].
    destruct (processEmail_outcome_calls w _ _ _ _ Hout) as [k [C [Hk _]]].
    set (st2 := record (setTimeout 1000)
                       (mkState ({[Message.id email]} ∪ processedEmails st1)
                                (logs st1) (trace st1))).
    destruct (IH (results ++ [result])%list st2) as [ks [Cs [Hlen Hks]]].
    exists (k :: ks). split; [| split; [simpl; congruence | constructor; assumption]].
    simpl process_each. unfold bind at 1. rewrite Hrun.
    unfold bind at 1, add_processed at 1. unfold bind at 1, emit at 1.
    fold st2. rewrite Cs.
    unfold st2. rewrite (calls_record _ Timer) by reflexivity. cbn [trace].
    rewrite C. unfold paced. simpl. rewrite <- !List.app_assoc. reflexivity.
Qed.

Lemma paced_budget (ks : list (list Call)) :
  Forall (fun k => In k message_calls) ks ->
  let n := List.length ks in
  tally Fetch (paced ks) = n /\ tally Timer (paced ks) = n
  /\ tally Inference (paced ks) <= 2 * n /\ tally DraftCreate (paced ks) <= n
  /\ tally LabelList (paced ks) <= n /\ tally LabelCreate (paced ks) <= n
  /\ tally LabelApply (paced ks) <= n /\ tally Listing (paced ks) = 0.
Proof.
  induction 1 as [| k ks Hk _ IH]; [cbv; repeat split; lia |].
  cbv zeta in *. unfold paced in *. simpl List.concat. simpl List.length.
  rewrite !tally_app.
  destruct (message_calls_budget k Hk) as [B1 [B2 [B3 [B4 [B5 [B6 [B7 [B8 _]]]]]]]].
  destruct IH as [I1 [I2 [I3 [I4 [I5 [I6 [I7 I8]]]]]]].
  change (tally Fetch [Timer]) with 0. change (tally Timer [Timer]) with 1.
  change (tally Inference [Timer]) with 0. change (tally DraftCreate [Timer]) with 0.
  change (tally LabelList [Timer]) with 0. change (tally LabelCreate [Timer]) with 0.
  change (tally LabelApply [Timer]) with 0. change (tally Listing [Timer]) with 0.
  repeat split; lia.
Qed.

(** X5.  The requests of a cycle whose listing succeeded: the listing,
    then for each of the [n] candidates one fetch and one pacing timer, at
    most two inference calls, at most one draft and at most one request of
    each kind for the label; no second listing.  [n] is the [processed]
    count of the report. *)
Theorem monitorEmails_budget (st : State) (messages : list Message.t) :
  messages_list_reply w (trace (listing_state w st)) = Return (Some messages) ->
  let n := List.length (unprocessed (processedEmails st) messages) in
  exists results k,
    fst (monitorEmails w st) = Return (mkReport n results)
    /\ calls (trace (snd (monitorEmails w st)))
       = (calls (trace st) ++ Listing :: k)%list
    /\ tally Fetch k = n /\ tally Timer k = n
    /\ tally Inference k <= 2 * n /\ tally DraftCreate k <= n
    /\ tally LabelList k <= n /\ tally LabelCreate k <= n
    /\ tally LabelApply k <= n /\ tally Listing k = 0.
Proof.
  intros Hlist n. subst n. rewrite monitorEmails_run, Hlist.
  assert (Hl : forall m, calls (trace (logged w m (listing_state w st)))
                         = (calls (trace st) ++ [Listing])%list).
  { intros m. rewrite calls_logged. unfold listing_state.
    rewrite (calls_record _ Listing) by reflexivity. rewrite calls_logged.
    reflexivity. }
  destruct (unprocessed (processedEmails st) messages) as [| m ms].
  - exists [], []. cbn [fst snd]. rewrite Hl.
    split; [reflexivity |]. split; [reflexivity |]. cbv. repeat split; lia.
  - destruct (process_each_runs w (m :: ms) []
                (logged w ("Found " ++ string_of_nat (List.length (m :: ms))
                             ++ " new emails to process") (listing_state w st)))
      as [rs [st' [evs [Hrun _]]]].
    destruct (process_each_calls (m :: ms) []
                (logged w ("Found " ++ string_of_nat (List.length (m :: ms))
                             ++ " new emails to process") (listing_state w st)))
      as [ks [C [Hlen Hks]]].
    rewrite Hrun in *. cbn [fst snd] in *.
    exists rs, (paced ks). split; [reflexivity |].
    split; [rewrite C, Hl, <- List.app_assoc; reflexivity |].
    rewrite <- Hlen. apply paced_budget. exact Hks.
Qed.

End Budget.

Lemma monitorEmails_budget_witness :
  exists k,
    calls (trace (snd (monitorEmails (scripted fetch_fails_for_b) initial)))
    = Listing :: k
    /\ tally Fetch k = 3 /\ tally Inference k <= 6.
Proof.
  destruct (monitorEmails_budget (scripted fetch_fails_for_b) initial
                                 [stub "a"; stub "b"; stub "c"] eq_refl)
    as [results [k [_ [C [F [_ [I _]]]]]]].
  exists k. split; [exact C |]. split; [exact F | exact I].
Defined.

(* ===================================================================== *)
(** * Failures inside a message *)
(* ===================================================================== *)

Section MessageFailures.

Variable w : World.

(** X6.  When the mailbox answers the draft request of a message with an
    error, the message fails with that error's message: the error is logged
    by [createDraftResponse] and again by [processEmail], the result is
    [{success: false, error}], and nothing is requested afterwards (no
    label is looked up, created or applied). *)
Theorem draft_failure_reported (message : Message.t) (st : State) :
  forall before threadId raw after e,
    trace (snd (processEmail w message st))
    = (trace st ++ before ++ drafts_create threadId raw :: after)%list ->
    drafts_create_reply w (trace st ++ before ++ [drafts_create threadId raw])%list
    = Throw e ->
    fst (processEmail w message st) = Return (Failure (JS.message e))
    /\ calls after = []
    /\ exists st5,
         trace st5 = (trace st ++ before)%list
         /\ snd (processEmail w message st)
            = caught w message e
                     (logged w ("Error creating draft response: " ++ JS.message e)
                             (record (drafts_create threadId raw) st5)).
Proof.
  intros before threadId raw after e Htrace Hreply.
  destruct (processEmail_runs w message st) as [result [st' [Hrun Hout]]].
  rewrite Hrun in *. cbn [fst snd] in *.
  destruct (processEmail_outcome_draft_detail w _ _ _ _ Hout)
    as [[evs [T F]] | [st5 [pre [fm [email [draftBody [_ [_ [T [F Hcase]]]]]]]]]].
  - exfalso. rewrite T in Htrace. apply List.app_inv_head in Htrace.
    rewrite List.Forall_forall in F.
    assert (Hin : In (drafts_create threadId raw) evs)
      by (rewrite Htrace; apply List.in_elt).
    specialize (F _ Hin). discriminate.
  - set (dc := draft_request message fm email draftBody) in *.
    destruct Hcase as [[e0 [Hans [Hres Hst]]] | [d [post [isLead [Hans [_ [T' [F' _]]]]]]]].
    + assert (E : (pre ++ dc :: [console_log
                                   ("[" ++ Date_toISOString w (trace (record dc st5))
                                        ++ "] " ++ "Error creating draft response: "
                                        ++ JS.message e0);
                                 console_log
                                   ("[" ++ Date_toISOString
                                             w (trace (logged w ("Error creating draft response: "
                                                                   ++ JS.message e0)
                                                              (record dc st5)))
                                        ++ "] " ++ "Error processing email "
                                        ++ show (Message.id message) ++ ": "
                                        ++ JS.message e0)])%list
                    = (before ++ drafts_create threadId raw :: after)%list).
      { apply (List.app_inv_head (trace st)). rewrite <- Htrace, Hst. simpl.
        rewrite T, <- !List.app_assoc. reflexivity. }
      destruct (split_unique _ _ _ _ _ _ E eq_refl F) as [-> [Hy ->]].
      { repeat constructor. }
      rewrite Hy in *.
      rewrite List.app_assoc, <- T, Hans in Hreply. injection Hreply as <-.
      split; [rewrite Hres; reflexivity |]. split; [reflexivity |].
      exists st5. split; [exact T | exact Hst].
    + exfalso.
      assert (E : (pre ++ dc :: post = before ++ drafts_create threadId raw :: after)%list).
      { apply (List.app_inv_head (trace st)). rewrite <- Htrace, T', T.
        rewrite <- !List.app_assoc. reflexivity. }
      destruct (split_unique _ _ _ _ _ _ E eq_refl F F') as [-> [Hy ->]].
      rewrite Hy in *.
      rewrite List.app_assoc, <- T, Hans in Hreply. discriminate.
Qed.

Lemma analyzeEmailContent_fails (subject body : string) (st : State) (e : exn) :
  classification
    w (trace (record (chat_completions_create "gpt-3.5-turbo"
                        (analysis_prompt subject body) 0.3 None) st)) = Throw e ->
  analyzeEmailContent w subject body st
  = (Return fallback_verdict,
     logged w ("Error analyzing email content: " ++ JS.message e)
            (record (chat_completions_create "gpt-3.5-turbo"
                       (analysis_prompt subject body) 0.3 None) st)).
Proof.
  intros H. rewrite analyzeEmailContent_run. cbv zeta. unfold classification in H.
  destruct (chat_completions_reply w _) as [response | e0]; [| congruence].
  destruct (first_content response) as [content | e0]; [| congruence].
  destruct (JSON_parse _); congruence.
Qed.

Lemma Step_In (P : Event -> Prop) (a b : State) (x : Event) :
  Step P a b -> In x (trace a) -> In x (trace b).
Proof.
  intros [_ [evs [T _]] _ _] H. rewrite T. apply List.in_or_app. left. exact H.
Qed.

Lemma generateDraftResponse_requested (email : InboundMessage) (isLead analysis : value)
      (st : State) :
  In (drafting_request email isLead)
     (trace (snd (generateDraftResponse w email isLead analysis st))).
Proof.
  rewrite generateDraftResponse_run. cbv zeta.
  assert (H : In (drafting_request email isLead)
                 (trace (record (drafting_request email isLead) st)))
    by (simpl; apply List.in_or_app; right; left; reflexivity).
  destruct (chat_completions_reply w _) as [response | e].
  - destruct (first_content response) as [content | e]; cbn [snd]; [exact H |].
    simpl. apply List.in_or_app. left. exact H.
  - cbn [snd]. simpl. apply List.in_or_app. left. exact H.
Qed.

(** X7.  A classification that fails does not stop the message.  When the
    message was fetched and decoded and the classifier call fails (the call
    rejects, the reply has no choice, or its text is not JSON), the error
    is logged, the draft text is requested with the prompt for messages
    that are not leads, and the message ends either as a success with
    [isLead: false], [confidence: 0] and the label ["other"], or as the
    failure of its draft request. *)
Theorem classification_failure_routes_other (message fullMessage : Message.t)
        (email : InboundMessage) (st : State) (e : exn) :
  messages_get_reply w (trace (record (fetch message) st)) = Return fullMessage ->
  decode w fullMessage = Return email ->
  classification
    w (trace (record (analysis_request email)
                     (announced w email (record (fetch message) st)))) = Throw e ->
  exists result st',
    processEmail w message st = (Return result, st')
    /\ In (console_log
             ("[" ++ Date_toISOString
                       w (trace (record (analysis_request email)
                                        (announced w email (record (fetch message) st))))
                  ++ "] Error analyzing email content: " ++ JS.message e))
          (trace st')
    /\ In (chat_completions_create "gpt-3.5-turbo" (other_prompt email) 0.7 (Some 300%Z))
          (trace st')
    /\ (result = Success (Message.id message) (from email) (subject email)
                         (JBool false) (JNum 0) "other"
        \/ exists before e',
             drafts_create_reply w (trace st ++ before)%list = Throw e'
             /\ result = Failure (JS.message e')).
Proof.
  intros Hget Hdec Hcls.
  destruct (processEmail_runs w message st) as [result [st' [Hrun Hout]]].
  exists result, st'. split; [exact Hrun |].
  pose proof (analyzeEmailContent_fails (subject email) (body email)
                (announced w email (record (fetch message) st)) e Hcls) as Hfail.
  assert (Hlogged : forall s,
             Step (fun _ => True)
                  (logged w ("Error analyzing email content: " ++ JS.message e)
                          (record (analysis_request email)
                                  (announced w email (record (fetch message) st)))) s ->
             In (console_log
                   ("[" ++ Date_toISOString
                             w (trace (record (analysis_request email)
                                              (announced w email
                                                         (record (fetch message) st))))
                        ++ "] Error analyzing email content: " ++ JS.message e))
                (trace s)).
  { intros s S. eapply Step_In; [exact S |].
    simpl. apply List.in_or_app. right. left. reflexivity. }
  assert (Any : forall P a b, Step P a b -> Step (fun _ => True) a b).
  { intros P a b. apply Step_weaken. auto. }
  assert (Hlog : forall m s, Step (fun _ => True) s (logged w m s)).
  { intros m s. apply Step_logged. auto. }
  destruct Hout as [e0 Hget0 | fm e0 Hget0 Hdec0
                    | fm email0 analysis st3 e0 Hget0 Hdec0 Han Hlead
                    | fm email0 analysis st3 isLead confidence reason e0
                         Hget0 Hdec0 Han Hlead Hc Hr Hline
                    | fm email0 analysis st3 isLead confidence reason line draftBody st5 e0
                         Hget0 Hdec0 Han Hlead Hc Hr Hline Hgen Hdraft
                    | fm email0 analysis st3 isLead confidence reason line draftBody st5 d
                         st7 Hget0 Hdec0 Han Hlead Hc Hr Hline Hgen Hdraft Hlab].
  - congruence.
  - rewrite Hget in Hget0. injection Hget0 as <-. congruence.
  - rewrite Hget in Hget0. injection Hget0 as <-.
    rewrite Hdec in Hdec0. injection Hdec0 as <-.
    rewrite Hfail in Han. injection Han as <- <-. discriminate.
  - rewrite Hget in Hget0. injection Hget0 as <-.
    rewrite Hdec in Hdec0. injection Hdec0 as <-.
    rewrite Hfail in Han. injection Han as <- <-.
    injection Hlead as <-. injection Hc as <-. injection Hr as <-.
    vm_compute in Hline. discriminate.
  - rewrite Hget in Hget0. injection Hget0 as <-.
    rewrite Hdec in Hdec0. injection Hdec0 as <-.
    rewrite Hfail in Han. injection Han as <- <-.
    injection Hlead as <-. injection Hc as <-.
    pose proof (generateDraftResponse_requested
                  email (JBool false) fallback_verdict
                  (analysed w line
                            (logged w ("Error analyzing email content: " ++ JS.message e)
                                    (record (analysis_request email)
                                            (announced w email
                                                       (record (fetch message) st))))))
      as Hreq.
    unfold analysis_request in Hreq. rewrite Hgen in Hreq. cbn [snd] in Hreq.
    assert (S5 : Step (fun _ => True)
                      (logged w ("Error analyzing email content: " ++ JS.message e)
                              (record (analysis_request email)
                                      (announced w email (record (fetch message) st))))
                      st5).
    { eapply Step_trans; [apply Hlog |].
      eapply Any, keeps_run; [apply generateDraftResponse_keeps | exact Hgen]. }
    assert (Send : Step (fun _ => True) st5
                        (caught w message e0
                                (logged w ("Error creating draft response: "
                                             ++ JS.message e0)
                                        (record (draft_request message fullMessage email
                                                               draftBody) st5)))).
    { eapply Step_trans; [| apply Hlog]. eapply Step_trans; [| apply Hlog].
      apply Step_record; [exact I | reflexivity]. }
    split; [apply Hlogged; eapply Step_trans; eassumption |].
    split; [eapply Step_In; [exact Send | exact Hreq] |].
    right.
    assert (S0 : Step (fun _ => True) st
                      (record (draft_request message fullMessage email draftBody) st5)).
    { eapply Step_trans; [| apply Step_record; [exact I | reflexivity]].
      eapply Step_trans; [| exact S5].
      eapply Step_trans; [| apply Hlog].
      eapply Step_trans; [| apply Step_record; [exact I | reflexivity]].
      eapply Step_trans; [| apply Hlog].
      apply Step_record; [exact I | reflexivity]. }
    destruct S0 as [_ [before [T _]] _ _].
    exists before, e0. rewrite <- T. auto.
  - rewrite Hget in Hget0. injection Hget0 as <-.
    rewrite Hdec in Hdec0. injection Hdec0 as <-.
    rewrite Hfail in Han. injection Han as <- <-.
    injection Hlead as <-. injection Hc as <-.
    pose proof (generateDraftResponse_requested
                  email (JBool false) fallback_verdict
                  (analysed w line
                            (logged w ("Error analyzing email content: " ++ JS.message e)
                                    (record (analysis_request email)
                                            (announced w email
                                                       (record (fetch message) st))))))
      as Hreq.
    unfold analysis_request in Hreq. rewrite Hgen in Hreq. cbn [snd] in Hreq.
    assert (S5 : Step (fun _ => True)
                      (logged w ("Error analyzing email content: " ++ JS.message e)
                              (record (analysis_request email)
                                      (announced w email (record (fetch message) st))))
                      st5).
    { eapply Step_trans; [apply Hlog |].
      eapply Any, keeps_run; [apply generateDraftResponse_keeps | exact Hgen]. }
    assert (Send : Step (fun _ => True) st5
                        (logged w ("Successfully processed email "
                                     ++ show (Message.id message)
                                     ++ " - Created draft and added " ++ dq
                                     ++ label_of (JBool false) ++ dq ++ " label") st7)).
    { eapply Step_trans; [| apply Hlog].
      apply (Step_trans _ _ (record (draft_request message fullMessage email draftBody)
                                    st5));
        [apply Step_record; [exact I | reflexivity] |].
      eapply Any, keeps_run; [apply addLabelToEmail_keeps | exact Hlab]. }
    split; [apply Hlogged; eapply Step_trans; eassumption |].
    split; [eapply Step_In; [exact Send | exact Hreq] |].
    left. reflexivity.
Qed.

End MessageFailures.

(* ===================================================================== *)
(** * The HTTP handlers and the scheduler *)
(* ===================================================================== *)

Section Service.

Variable w : World.

(** A cycle, whatever the listing answers: the candidates it ran over (none
    when the listing failed or carried no messages), the ledger and the
    trace it leaves. *)
Lemma monitorEmails_cycle (st : State) :
  exists newEmails hdr evs,
    processedEmails (snd (monitorEmails w st))
    = processedEmails st ∪ list_to_set (ids newEmails)
    /\ trace (snd (monitorEmails w st)) = (trace st ++ hdr ++ evs)%list
    /\ Forall header_event hdr
    /\ cycle_trace newEmails evs
    /\ (forall m, In m newEmails -> Message.id m ∉ processedEmails st)
    /\ (newEmails = []
        \/ exists messages,
             messages_list_reply w (trace (listing_state w st)) = Return (Some messages)
             /\ newEmails = unprocessed (processedEmails st) messages).
Proof.
  assert (S1 : Step header_event st (listing_state w st)).
  { eapply Step_trans; [apply Step_logged; intros ?; exact I |].
    apply Step_record; [exact I | reflexivity]. }
  assert (Idle : forall m, Step header_event st (logged w m (listing_state w st))).
  { intros m. eapply Step_trans; [exact S1 | apply Step_logged; intros ?; exact I]. }
  destruct (messages_list_reply w (trace (listing_state w st)))
    as [[messages |] | e] eqn:Hlist.
  - destruct (monitorEmails_runs w st messages Hlist)
      as [results [st' [hdr [evs [Hrun [_ [L [T [F [Cy _]]]]]]]]]].
    rewrite Hrun. cbn [snd].
    exists (unprocessed (processedEmails st) messages), hdr, evs.
    split; [exact L |]. split; [exact T |]. split; [exact F |]. split; [exact Cy |].
    split; [apply unprocessed_fresh |]. right. eauto.
  - rewrite monitorEmails_run, Hlist. cbn [snd].
    destruct (Idle "No new emails found") as [L [hdr [T F]] _ _].
    exists [], hdr, []. rewrite List.app_nil_r.
    split; [rewrite L; set_solver |]. split; [exact T |]. split; [exact F |].
    split; [constructor |]. split; [intros m [] | left; reflexivity].
  - rewrite monitorEmails_run, Hlist. cbn [snd].
    destruct (Idle ("Error monitoring emails: " ++ message e)) as [L [hdr [T F]] _ _].
    exists [], hdr, []. rewrite List.app_nil_r.
    split; [rewrite L; set_solver |]. split; [exact T |]. split; [exact F |].
    split; [constructor |]. split; [intros m [] | left; reflexivity].
Qed.

Lemma NoDup_ids_unprocessed (ledger : gset (option string)) (messages : list Message.t) :
  NoDup (ids messages) -> NoDup (ids (unprocessed ledger messages)).
Proof.
  unfold ids, unprocessed. induction messages as [| m ms IH]; [auto |].
  simpl. intros H. apply NoDup_cons in H. destruct H as [Hm Hms].
  destruct (negb _); [| auto].
  simpl. apply NoDup_cons. split; [| auto].
  intros Hin. apply Hm. apply list_elem_of_In. apply list_elem_of_In in Hin.
  apply List.in_map_iff in Hin. destruct Hin as [x [Hx Hin]].
  apply List.filter_In in Hin. destruct Hin as [Hin _].
  apply List.in_map_iff. eauto.
Qed.

Lemma logged_ledger_exact (m : string) (st : State) :
  ledger_exact st -> ledger_exact (logged w m st).
Proof.
  unfold ledger_exact. simpl. rewrite fetched_app. simpl.
  rewrite List.app_nil_r. auto.
Qed.

Lemma monitorEmails_ledger_exact (st : State) :
  listings_distinct w -> ledger_exact st -> ledger_exact (snd (monitorEmails w st)).
Proof.
  intros Hd [HL HN].
  destruct (monitorEmails_cycle st) as [new [hdr [evs [L [T [F [Cy [Fresh Hnew]]]]]]]].
  assert (Hf : fetched (trace (snd (monitorEmails w st)))
               = (fetched (trace st) ++ ids new)%list).
  { rewrite T, !fetched_app, (header_event_not_fetch hdr F),
      (cycle_trace_fetched _ _ Cy). reflexivity. }
  unfold ledger_exact. rewrite Hf, L, HL. split.
  - rewrite list_to_set_app_L. reflexivity.
  - apply NoDup_app. split; [exact HN |]. split.
    + intros x Hx Hin. apply list_elem_of_In, List.in_map_iff in Hin.
      destruct Hin as [m [<- Hm]]. apply (Fresh m Hm).
      rewrite HL. apply elem_of_list_to_set. exact Hx.
    + destruct Hnew as [-> | [messages [Hlist ->]]]; [constructor |].
      apply NoDup_ids_unprocessed. eapply Hd. exact Hlist.
Qed.

(** The states the handlers leave. *)
Lemma POST_test_state (st : State) :
  snd (POST_test w st) = snd (monitorEmails w (logged w "Manual test triggered" st)).
Proof.
  unfold POST_test, try_catch. unfold bind at 1, log at 1. unfold bind at 1.
  destruct (monitorEmails w _) as [[r | e] st']; reflexivity.
Qed.

Lemma POST_monitor_state (st : State) :
  snd (POST_monitor w st)
  = match fst (monitorEmails w st) with
    | Return _ => snd (monitorEmails w st)
    | Throw e => logged w ("Monitor endpoint error: " ++ message e)
                        (snd (monitorEmails w st))
    end.
Proof.
  unfold POST_monitor, try_catch. unfold bind at 1.
  destruct (monitorEmails w st) as [[r | e] st']; reflexivity.
Qed.

Lemma interval_tick_state (st : State) :
  snd (interval_tick w st)
  = match fst (monitorEmails w st) with
    | Return _ => snd (monitorEmails w st)
    | Throw e => logged w ("Scheduled monitoring error: " ++ message e)
                        (snd (monitorEmails w st))
    end.
Proof.
  unfold interval_tick, try_catch. unfold bind at 1.
  destruct (monitorEmails w st) as [[r | e] st']; reflexivity.
Qed.

Lemma logged_LogStep (m : string) (st : State) : LogStep st (logged w m st).
Proof. exact (log_LogStep w m st). Qed.

Lemma LogStep_apply (a b : State) :
  LogStep a b -> bounded a /\ consistent a -> bounded b /\ consistent b.
Proof. intros [B C] [Hb Hc]. auto. Qed.

(** An invariant of the state after start-up that logging and cycles keep
    holds in every state of the running service. *)
Lemma running_invariant (Inv : State -> Prop) (env_PORT : option string) :
  Inv (snd (on_listen w env_PORT initial)) ->
  (forall m st, Inv st -> Inv (logged w m st)) ->
  (forall st, Inv st -> Inv (snd (monitorEmails w st))) ->
  forall st, running w env_PORT st -> Inv st.
Proof.
  intros H0 Hlog Hcycle st H.
  induction H as [| st _ IH | st _ IH | st _ IH].
  - exact H0.
  - rewrite interval_tick_state. destruct (fst (monitorEmails w st)); auto.
  - rewrite POST_test_state. auto.
  - rewrite POST_monitor_state. destruct (fst (monitorEmails w st)); auto.
Qed.

(** X8.  While the service runs (start, then timer ticks and POST requests
    one after the other) and no listing repeats an id, the ledger holds
    exactly the ids of the messages fetched so far and no message is
    fetched twice; the [processedEmails] count of [GET /] and of
    [GET /health] is the number of fetches made since the start. *)
Theorem service_fetches_once (env_PORT : option string) (st : State) :
  listings_distinct w ->
  running w env_PORT st ->
  processedEmails st = list_to_set (fetched (trace st))
  /\ NoDup (fetched (trace st))
  /\ health_processedEmails (GET_health w st) = List.length (fetched (trace st))
  /\ fst (root_stats (GET_root st)) = List.length (fetched (trace st)).
Proof.
  intros Hd Hrun.
  assert (H : ledger_exact st).
  { revert st Hrun. apply running_invariant.
    - apply (logged_ledger_exact _ (logged w _ initial)), logged_ledger_exact.
      split; [reflexivity | constructor].
    - intros m st. apply logged_ledger_exact.
    - intros st. apply monitorEmails_ledger_exact. exact Hd. }
  destruct H as [HL HN].
  assert (Hsize : size (processedEmails st) = List.length (fetched (trace st))).
  { rewrite HL. apply size_list_to_set. exact HN. }
  auto.
Qed.

Lemma running_logs (env_PORT : option string) (st : State) :
  running w env_PORT st ->
  (bounded st /\ consistent st) /\ started_with w env_PORT st.
Proof.
  revert st. apply running_invariant.
  - split.
    + eapply LogStep_apply; [apply logged_LogStep |].
      eapply LogStep_apply; [apply logged_LogStep |].
      apply initial_consistent.
    + exists []. reflexivity.
  - intros m st [H [rest E]]. split.
    + eapply LogStep_apply; [apply logged_LogStep | exact H].
    + unfold started_with. simpl. rewrite console_entries_app, E. eexists. reflexivity.
  - intros st [H [rest E]]. split.
    + eapply LogStep_apply; [apply (monitorEmails_LogStep w st) | exact H].
    + destruct (monitorEmails_cycle st) as [new [hdr [evs [_ [T _]]]]].
      unfold started_with. rewrite T, console_entries_app, E. eexists. reflexivity.
Qed.

(** X9.  In every state of the running service the [logs] array holds the
    last 100 lines written to the console since the start, so [totalLogs]
    of [GET /] is the number of lines logged, capped at 100, and
    [GET /logs] shows the last 50 of them; the first two lines ever logged
    are the start-up lines, which name the port. *)
Theorem service_logs_recent (env_PORT : option string) (st : State) :
  running w env_PORT st ->
  logs st = slice_last 100 (console_entries (trace st))
  /\ snd (root_stats (GET_root st))
     = Nat.min 100 (List.length (console_entries (trace st)))
  /\ logs_field (GET_logs st) = slice_last 50 (console_entries (trace st))
  /\ exists t1 t2 rest,
       console_entries (trace st)
       = ("[" ++ t1 ++ "] Email Lead Monitor agent started on port " ++ PORT env_PORT)
           :: ("[" ++ t2 ++ "] Monitoring emails every 2 minutes...") :: rest.
Proof.
  intros Hrun. destruct (running_logs env_PORT st Hrun) as [[_ C] [rest E]].
  unfold consistent in C.
  split; [exact C |]. split; [| split].
  - unfold GET_root, stats. cbn [root_stats snd]. rewrite C. apply length_slice_last.
  - unfold GET_logs. cbn [logs_field]. rewrite C. apply slice_last_slice_last. lia.
  - eauto.
Qed.

(** The runs of the handlers, by the outcome of the cycle. *)
Lemma POST_test_run (st : State) :
  POST_test w st
  = match monitorEmails w (logged w "Manual test triggered" st) with
    | (Return report, st') =>
        (Return (Completed (Date_toISOString w (trace st'))
                           (processed report) (results report)), st')
    | (Throw e, st') => (Return (Failed (message e) (Date_toISOString w (trace st'))), st')
    end.
Proof.
  unfold POST_test, try_catch. unfold bind at 1, log at 1. unfold bind at 1.
  destruct (monitorEmails w _) as [[r | e] st']; reflexivity.
Qed.

Lemma POST_monitor_run (st : State) :
  POST_monitor w st
  = match monitorEmails w st with
    | (Return report, st') =>
        (Return (Completed (Date_toISOString w (trace st'))
                           (processed report) (results report)), st')
    | (Throw e, st') =>
        let st'' := logged w ("Monitor endpoint error: " ++ message e) st' in
        (Return (Failed (message e) (Date_toISOString w (trace st''))), st'')
    end.
Proof.
  unfold POST_monitor, try_catch. unfold bind at 1.
  destruct (monitorEmails w st) as [[r | e] st']; reflexivity.
Qed.

Lemma interval_tick_run (st : State) :
  interval_tick w st
  = match monitorEmails w st with
    | (Return _, st') => (Return tt, st')
    | (Throw e, st') =>
        (Return tt, logged w ("Scheduled monitoring error: " ++ message e) st')
    end.
Proof.
  unfold interval_tick, try_catch. unfold bind at 1.
  destruct (monitorEmails w st) as [[r | e] st']; reflexivity.
Qed.

(** What a cycle returns, by what the listing answers. *)
Lemma monitorEmails_result (st : State) :
  match messages_list_reply w (trace (listing_state w st)) with
  | Throw e =>
      monitorEmails w st
      = (Throw e,
         logged w ("Error monitoring emails: " ++ message e) (listing_state w st))
  | Return listed =>
      exists results st',
        monitorEmails w st
        = (Return (mkReport (List.length results) results), st')
        /\ List.length results
           = match listed with
             | None => 0
             | Some messages => List.length (unprocessed (processedEmails st) messages)
             end
  end.
Proof.
  destruct (messages_list_reply w (trace (listing_state w st)))
    as [[messages |] | e] eqn:Hlist.
  - destruct (monitorEmails_runs w st messages Hlist)
      as [results [st' [hdr [evs [Hrun [F2 _]]]]]].
    apply List.Forall2_length in F2.
    exists results, st'. rewrite <- F2. auto.
  - rewrite monitorEmails_run, Hlist. eexists [], _. split; reflexivity.
  - rewrite monitorEmails_run, Hlist. reflexivity.
Qed.

(** X10.  [POST /test] logs that it was triggered, runs one cycle and
    always answers: with status 500 and the listing's error message
    exactly when the listing call of that cycle fails, and otherwise with
    status 200 and the cycle's report, whose [processed] is the number of
    its [results]. *)
Theorem POST_test_responds (st : State) :
  let st1 := logged w "Manual test triggered" st in
  exists response st',
    POST_test w st = (Return response, st')
    /\ st' = snd (monitorEmails w st1)
    /\ match messages_list_reply w (trace (listing_state w st1)) with
       | Throw e =>
           response = Failed (message e) (Date_toISOString w (trace st'))
           /\ http_status response = 500
           /\ processedEmails st' = processedEmails st
       | Return listed =>
           exists results,
             response = Completed (Date_toISOString w (trace st'))
                                  (List.length results) results
             /\ http_status response = 200
             /\ fst (monitorEmails w st1) = Return (mkReport (List.length results) results)
       end.
Proof.
  cbv zeta. rewrite POST_test_run.
  pose proof (monitorEmails_result (logged w "Manual test triggered" st)) as H.
  destruct (messages_list_reply w _) as [listed | e].
  - destruct H as [results [st' [Hrun _]]]. rewrite Hrun.
    eexists _, _. split; [reflexivity |]. split; [reflexivity |].
    exists results. auto.
  - rewrite H. eexists _, _. split; [reflexivity |]. split; [reflexivity |].
    auto.
Qed.

(** X11.  [POST /monitor] runs one cycle and always answers.  When the
    listing call fails it logs [Monitor endpoint error] after the cycle's
    own error line, takes the timestamp after that, and answers status 500
    with the error message; otherwise it answers status 200 with the
    cycle's report and logs nothing of its own. *)
Theorem POST_monitor_responds (st : State) :
  exists response st',
    POST_monitor w st = (Return response, st')
    /\ match messages_list_reply w (trace (listing_state w st)) with
       | Throw e =>
           st' = logged w ("Monitor endpoint error: " ++ message e)
                        (logged w ("Error monitoring emails: " ++ message e)
                                (listing_state w st))
           /\ response = Failed (message e) (Date_toISOString w (trace st'))
           /\ http_status response = 500
           /\ processedEmails st' = processedEmails st
       | Return listed =>
           exists results,
             monitorEmails w st = (Return (mkReport (List.length results) results), st')
             /\ response = Completed (Date_toISOString w (trace st'))
                                     (List.length results) results
             /\ http_status response = 200
       end.
Proof.
  rewrite POST_monitor_run.
  pose proof (monitorEmails_result st) as H.
  destruct (messages_list_reply w _) as [listed | e].
  - destruct H as [results [st' [Hrun _]]]. rewrite Hrun.
    eexists _, _. split; [reflexivity |]. exists results. auto.
  - rewrite H. cbv zeta. eexists _, _. split; [reflexivity |]. auto.
Qed.

(** X12.  The timer callback never throws, so a failed cycle does not stop
    the schedule: when the listing call fails, the callback logs
    [Scheduled monitoring error] after the cycle's own error line and
    leaves the ledger as it was; otherwise it leaves the state of the
    cycle. *)
Theorem interval_tick_contained (st : State) :
  fst (interval_tick w st) = Return tt
  /\ match messages_list_reply w (trace (listing_state w st)) with
     | Throw e =>
         snd (interval_tick w st)
         = logged w ("Scheduled monitoring error: " ++ message e)
                  (logged w ("Error monitoring emails: " ++ message e)
                          (listing_state w st))
         /\ processedEmails (snd (interval_tick w st)) = processedEmails st
     | Return _ =>
         snd (interval_tick w st) = snd (monitorEmails w st)
     end.
Proof.
  pose proof (monitorEmails_result st) as H.
  rewrite !interval_tick_run.
  destruct (messages_list_reply w _) as [listed | e].
  - destruct H as [results [st' [Hrun _]]]. rewrite Hrun. split; reflexivity.
  - rewrite H. split; [reflexivity |]. split; reflexivity.
Qed.

End Service.

(* ===================================================================== *)
(** * The encoding of the draft *)
(* ===================================================================== *)

Section Base64.

Local Open Scope Z_scope.

Lemma sextet_char (v : Z) :
  0 <= v < 64 ->
  exists c, url_safe (sextet v) = String c EmptyString
            /\ code c <> 61
            /\ unbase64 c = Some v
            /\ url_safe_text (String c EmptyString) = true.
Proof.
  intros Hv.
  pose (check := fun n : nat =>
                   match url_safe (sextet (Z.of_nat n)) with
                   | String c EmptyString =>
                       negb (code c =? 61)
                       && match unbase64 c with
                          | Some u => u =? Z.of_nat n
                          | None => false
                          end
                       && url_safe_text (String c EmptyString)
                   | _ => false
                   end).
  assert (Hall : forallb check (seq 0 64) = true) by (vm_compute; reflexivity).
  rewrite List.forallb_forall in Hall.
  specialize (Hall (Z.to_nat v)).
  assert (Hin : In (Z.to_nat v) (seq 0 64)) by (apply List.in_seq; lia).
  specialize (Hall Hin). unfold check in Hall.
  rewrite Z2Nat.id in Hall by lia.
  destruct (url_safe (sextet v)) as [| c [| ? ?]]; try discriminate.
  apply andb_true_iff in Hall. destruct Hall as [Hall Hsafe].
  apply andb_true_iff in Hall. destruct Hall as [Hpad Hval].
  exists c. split; [reflexivity |].
  split; [apply negb_true_iff, Z.eqb_neq in Hpad; exact Hpad |].
  split; [| exact Hsafe].
  destruct (unbase64 c) as [u |]; [| discriminate].
  apply Z.eqb_eq in Hval. congruence.
Qed.

Lemma url_safe_app (a b : string) :
  url_safe (a ++ b) = (url_safe a ++ url_safe b)%string.
Proof.
  induction a as [| c a IH]; [reflexivity |].
  simpl. rewrite IH.
  destruct (code c =? 43); [reflexivity |].
  destruct (code c =? 47); reflexivity.
Qed.

Lemma url_safe_text_app (a b : string) :
  url_safe_text (a ++ b) = url_safe_text a && url_safe_text b.
Proof.
  induction a as [| c a IH]; [reflexivity |].
  simpl. rewrite IH. apply andb_assoc.
Qed.

Lemma append_char (c : ascii) (r : string) : (String c EmptyString ++ r)%string = String c r.
Proof. reflexivity. Qed.

Lemma sextets_cons (c : ascii) (v : Z) (r : string) :
  code c <> 61 -> unbase64 c = Some v -> sextets (String c r) = v :: sextets r.
Proof.
  intros Hc Hv. simpl. apply Z.eqb_neq in Hc. rewrite Hc, Hv. reflexivity.
Qed.

Lemma chr_code (a : ascii) : chr (Z.to_nat (code a)) = String a EmptyString.
Proof.
  unfold chr, code. rewrite Nat2Z.id, ascii_nat_embedding. reflexivity.
Qed.

Lemma code_range (a : ascii) : 0 <= code a < 256.
Proof.
  unfold code. pose proof (nat_ascii_bounded a). lia.
Qed.

Lemma sextet_arith (x y z : Z) :
  0 <= x < 256 -> 0 <= y < 256 -> 0 <= z < 256 ->
  0 <= x / 4 < 64
  /\ 0 <= (x mod 4) * 16 + y / 16 < 64
  /\ 0 <= (y mod 16) * 4 + z / 64 < 64
  /\ 0 <= z mod 64 < 64
  /\ (x / 4) * 4 + ((x mod 4) * 16 + y / 16) / 16 = x
  /\ (((x mod 4) * 16 + y / 16) mod 16) * 16 + ((y mod 16) * 4 + z / 64) / 4 = y
  /\ (((y mod 16) * 4 + z / 64) mod 4) * 64 + z mod 64 = z.
Proof.
  intros Hx Hy Hz. repeat split; Z.to_euclidean_division_equations; lia.
Qed.

(** Encoding then decoding, for any fuel that covers the input. *)
Lemma base64_fuel_round_trip (f : nat) :
  forall s : string,
    (String.length s < f)%nat ->
    (forall g, (List.length (sextets (url_safe (base64_encode_fuel f s))) < g)%nat ->
               octets g (sextets (url_safe (base64_encode_fuel f s))) = s)
    /\ url_safe_text (url_safe (base64_encode_fuel f s)) = true.
Proof.
  induction f as [| f IH]; intros s Hlen; [lia |].
  destruct s as [| a [| b [| c r]]].
  - split; [| reflexivity]. intros [| g] Hg; [simpl in Hg; lia | reflexivity].
  - pose proof (code_range a) as Ha.
    destruct (sextet_arith (code a) 0 0 Ha) as [H1 [H2 [_ [_ [E1 _]]]]]; try lia.
    rewrite Z.add_0_r in H2, E1.
    destruct (sextet_char _ H1) as [c1 [U1 [P1 [V1 S1]]]].
    destruct (sextet_char _ H2) as [c2 [U2 [P2 [V2 S2]]]].
    cbn [base64_encode_fuel]. cbv zeta.
    rewrite !url_safe_app, U1, U2.
    change (url_safe "==") with "=="%string.
    rewrite !append_char.
    rewrite (sextets_cons c1 _ _ P1 V1), (sextets_cons c2 _ _ P2 V2).
    change (sextets "==") with (@nil Z).
    split.
    + intros [| g] Hg; [simpl in Hg; lia |].
      cbn [octets]. rewrite E1. apply chr_code.
    + simpl in S1, S2. simpl.
      rewrite andb_true_r in S1, S2. rewrite S1, S2. reflexivity.
  - pose proof (code_range a) as Ha. pose proof (code_range b) as Hb.
    destruct (sextet_arith (code a) (code b) 0 Ha Hb) as [H1 [H2 [H3 [_ [E1 [E2 _]]]]]];
      try lia.
    rewrite Z.add_0_r in H3, E2.
    destruct (sextet_char _ H1) as [c1 [U1 [P1 [V1 S1]]]].
    destruct (sextet_char _ H2) as [c2 [U2 [P2 [V2 S2]]]].
    destruct (sextet_char _ H3) as [c3 [U3 [P3 [V3 S3]]]].
    cbn [base64_encode_fuel]. cbv zeta.
    rewrite !url_safe_app, U1, U2, U3.
    change (url_safe "=") with "="%string.
    rewrite !append_char.
    rewrite (sextets_cons c1 _ _ P1 V1), (sextets_cons c2 _ _ P2 V2),
      (sextets_cons c3 _ _ P3 V3).
    change (sextets "=") with (@nil Z).
    split.
    + intros [| g] Hg; [simpl in Hg; lia |].
      cbn [octets]. rewrite E1, E2, !chr_code. reflexivity.
    + simpl in S1, S2, S3. simpl.
      rewrite andb_true_r in S1, S2, S3. rewrite S1, S2, S3. reflexivity.
  - pose proof (code_range a) as Ha. pose proof (code_range b) as Hb.
    pose proof (code_range c) as Hc.
    destruct (sextet_arith (code a) (code b) (code c) Ha Hb Hc)
      as [H1 [H2 [H3 [H4 [E1 [E2 E3]]]]]].
    destruct (sextet_char _ H1) as [c1 [U1 [P1 [V1 S1]]]].
    destruct (sextet_char _ H2) as [c2 [U2 [P2 [V2 S2]]]].
    destruct (sextet_char _ H3) as [c3 [U3 [P3 [V3 S3]]]].
    destruct (sextet_char _ H4) as [c4 [U4 [P4 [V4 S4]]]].
    assert (Hr : (String.length r < f)%nat) by (simpl in Hlen; lia).
    destruct (IH r Hr) as [IHd IHs].
    cbn [base64_encode_fuel]. cbv zeta.
    rewrite !url_safe_app, U1, U2, U3, U4.
    rewrite !append_char.
    rewrite (sextets_cons c1 _ _ P1 V1), (sextets_cons c2 _ _ P2 V2),
      (sextets_cons c3 _ _ P3 V3), (sextets_cons c4 _ _ P4 V4).
    split.
    + intros [| g] Hg; [simpl in Hg; lia |].
      cbn [octets]. rewrite E1, E2, E3, !chr_code.
      rewrite !append_char. rewrite IHd by (simpl in Hg; lia). reflexivity.
    + simpl in S1, S2, S3, S4. cbn [url_safe_text] in *.
      rewrite andb_true_r in S1, S2, S3, S4. rewrite S1, S2, S3, S4, IHs. reflexivity.
Qed.

Lemma base64_fuel_length (f : nat) :
  forall s : string,
    (String.length s < f)%nat ->
    String.length (url_safe (base64_encode_fuel f s))
    = (4 * ((String.length s + 2) / 3))%nat.
Proof.
  induction f as [| f IH]; intros s Hlen; [lia |].
  destruct s as [| a [| b [| c r]]].
  - reflexivity.
  - pose proof (code_range a) as Ha.
    destruct (sextet_arith (code a) 0 0 Ha) as [H1 [H2 _]]; try lia.
    rewrite Z.add_0_r in H2.
    destruct (sextet_char _ H1) as [c1 [U1 _]].
    destruct (sextet_char _ H2) as [c2 [U2 _]].
    cbn [base64_encode_fuel]. cbv zeta.
    rewrite !url_safe_app, U1, U2. reflexivity.
  - pose proof (code_range a) as Ha. pose proof (code_range b) as Hb.
    destruct (sextet_arith (code a) (code b) 0 Ha Hb) as [H1 [H2 [H3 _]]]; try lia.
    rewrite Z.add_0_r in H3.
    destruct (sextet_char _ H1) as [c1 [U1 _]].
    destruct (sextet_char _ H2) as [c2 [U2 _]].
    destruct (sextet_char _ H3) as [c3 [U3 _]].
    cbn [base64_encode_fuel]. cbv zeta.
    rewrite !url_safe_app, U1, U2, U3. reflexivity.
  - pose proof (code_range a) as Ha. pose proof (code_range b) as Hb.
    pose proof (code_range c) as Hc.
    destruct (sextet_arith (code a) (code b) (code c) Ha Hb Hc) as [H1 [H2 [H3 [H4 _]]]].
    destruct (sextet_char _ H1) as [c1 [U1 _]].
    destruct (sextet_char _ H2) as [c2 [U2 _]].
    destruct (sextet_char _ H3) as [c3 [U3 _]].
    destruct (sextet_char _ H4) as [c4 [U4 _]].
    assert (Hr : (String.length r < f)%nat) by (simpl in Hlen; lia).
    cbn [base64_encode_fuel]. cbv zeta.
    rewrite !url_safe_app, U1, U2, U3, U4. rewrite !append_char.
    cbn [String.length]. rewrite (IH r Hr).
    replace (S (S (S (String.length r))) + 2)%nat
      with (1 * 3 + (String.length r + 2))%nat by lia.
    rewrite Nat.div_add_l by lia. lia.
Qed.

(** Decoding the [raw] of [s] gives the bytes of the buffer back. *)
Lemma base64_round_trip (s : string) :
  base64_decode (url_safe (base64_encode s)) = Buffer_from s
  /\ url_safe_text (url_safe (base64_encode s)) = true
  /\ String.length (url_safe (base64_encode s))
     = (4 * ((String.length (Buffer_from s) + 2) / 3))%nat.
Proof.
  unfold base64_decode, base64_encode. cbv zeta.
  destruct (base64_fuel_round_trip (S (String.length (Buffer_from s))) (Buffer_from s))
    as [D T]; [lia |].
  split; [apply D; lia |]. split; [exact T |].
  apply base64_fuel_length. lia.
Qed.

Lemma Buffer_from_plain (a : ascii) (t : string) :
  surrogate_at (String a t) = None ->
  Buffer_from (String a t) = String a (Buffer_from t).
Proof.
  destruct t as [| b [| c r]]; simpl; intros H; try reflexivity.
  rewrite H. reflexivity.
Qed.

(** A string that keeps no surrogate is its own UTF-8. *)
Lemma Buffer_from_no_surrogate (s : string) :
  no_surrogate s = true -> Buffer_from s = s.
Proof.
  induction s as [| a t IH]; [reflexivity |].
  intros H. cbn [no_surrogate] in H.
  destruct (surrogate_at (String a t)) eqn:E; [discriminate |].
  rewrite (Buffer_from_plain _ _ E), (IH H). reflexivity.
Qed.

End Base64.

(** Two unpaired surrogates are both written as U+FFFD, so the strings
    that differ only there share their bytes; a high surrogate followed by
    a low one is the code point of the pair. *)
Example Buffer_from_surrogates :
  Buffer_from (utf8 55296) = replacement_character
  /\ Buffer_from (utf8 56832) = replacement_character
  /\ base64_encode ("a" ++ utf8 55296) = base64_encode ("a" ++ utf8 56832)
  /\ Buffer_from (utf8 55357 ++ utf8 56832) = utf8 128512
  /\ Buffer_from (utf8 128512 ++ utf8 233) = (utf8 128512 ++ utf8 233)%string.
Proof. repeat split; vm_compute; reflexivity. Qed.

(** X13.  The [raw] field of a draft is base64url text: letters, digits,
    [-], [_] and the padding [=] only (no [+], no [/]), four characters for
    every three bytes.  It determines the bytes [Buffer.from] gives for
    the envelope: two envelopes with the same [raw] have the same bytes,
    and they are the same envelope when neither holds a surrogate.  (An
    unpaired surrogate is written as U+FFFD, so envelopes that differ only
    in one share their [raw].) *)
Theorem draft_encoding_lossless (s t : string) :
  url_safe_text (url_safe (base64_encode s)) = true
  /\ String.length (url_safe (base64_encode s))
     = 4 * ((String.length (Buffer_from s) + 2) / 3)
  /\ (url_safe (base64_encode s) = url_safe (base64_encode t) ->
      Buffer_from s = Buffer_from t)
  /\ (no_surrogate s = true -> no_surrogate t = true ->
      url_safe (base64_encode s) = url_safe (base64_encode t) -> s = t).
Proof.
  destruct (base64_round_trip s) as [D [T L]].
  assert (Inj : url_safe (base64_encode s) = url_safe (base64_encode t) ->
                Buffer_from s = Buffer_from t).
  { intros E. rewrite <- D, E. apply base64_round_trip. }
  split; [exact T |]. split; [exact L |]. split; [exact Inj |].
  intros Hs Ht E.
  rewrite <- (Buffer_from_no_surrogate s Hs), <- (Buffer_from_no_surrogate t Ht).
  exact (Inj E).
Qed.

Section Drafts.

Variable w : World.

(** X14.  A message gets at most one draft, and the draft answers the
    message that was fetched: it is filed in the thread of the fetched
    message, and its [raw] field is the base64url text of the envelope
    addressed to the message's [From] header, with the subject [Re: ]
    followed by the message's [Subject] header, and with the listed id
    (not a [Message-ID] header) as [In-Reply-To] and [References]. *)
Theorem draft_answers_sender (message : Message.t) (st : State) :
  forall before threadId raw after,
    trace (snd (processEmail w message st))
    = (trace st ++ before ++ drafts_create threadId raw :: after)%list ->
    exists fullMessage email draftBody,
      messages_get_reply w (trace (record (fetch message) st)) = Return fullMessage
      /\ decode w fullMessage = Return email
      /\ threadId = Message.threadId fullMessage
      /\ raw = url_safe (base64_encode
                          (join CRLF [ "To: " ++ from email;
                                       "Subject: Re: " ++ subject email;
                                       "In-Reply-To: " ++ show (Message.id message);
                                       "References: " ++ show (Message.id message);
                                       "";
                                       joined draftBody ]))
      /\ Forall no_draft before /\ Forall no_draft after.
Proof.
  intros before threadId raw after Htrace.
  destruct (processEmail_runs w message st) as [result [st' [Hrun Hout]]].
  rewrite Hrun in *. cbn [fst snd] in *.
  destruct (processEmail_outcome_draft_detail w _ _ _ _ Hout)
    as [[evs [T F]] | [st5 [pre [fm [email [draftBody [Hget [Hdec [T [F Hcase]]]]]]]]]].
  - exfalso. rewrite T in Htrace. apply List.app_inv_head in Htrace.
    rewrite List.Forall_forall in F.
    assert (Hin : In (drafts_create threadId raw) evs)
      by (rewrite Htrace; apply List.in_elt).
    specialize (F _ Hin). discriminate.
  - set (dc := draft_request message fm email draftBody) in *.
    assert (Hsplit : exists post, trace st' = (trace st ++ pre ++ dc :: post)%list
                                  /\ Forall no_draft post).
    { destruct Hcase as [[e0 [Hans [Hres Hst]]] | [d [post [isLead [Hans [_ [T' [F' _]]]]]]]].
      - eexists. split.
        + rewrite Hst. simpl. rewrite T, <- !List.app_assoc. reflexivity.
        + repeat constructor.
      - exists post. split; [| exact F'].
        rewrite T', T, <- !List.app_assoc. reflexivity. }
    destruct Hsplit as [post [T' F']].
    assert (E : (pre ++ dc :: post = before ++ drafts_create threadId raw :: after)%list).
    { apply (List.app_inv_head (trace st)). rewrite <- Htrace, T'. reflexivity. }
    destruct (split_unique _ _ _ _ _ _ E eq_refl F F') as [-> [Hy ->]].
    assert (Ht : threadId = Message.threadId fm).
    { exact (f_equal (fun e => match e with
                               | drafts_create t _ => t
                               | _ => None
                               end) Hy). }
    assert (Hr : raw = url_safe (base64_encode
                                   (envelope (Message.id message) (from email)
                                             (subject email) draftBody))).
    { exact (f_equal (fun e => match e with
                               | drafts_create _ r => r
                               | _ => ""
                               end) Hy). }
    exists fm, email, draftBody.
    split; [exact Hget |]. split; [exact Hdec |]. split; [exact Ht |].
    split; [exact Hr | split; assumption].
Qed.

Lemma find_label_first (labelName : string) (labels : list Label.t) :
  match find_label labelName labels with
  | Some label =>
      exists earlier later,
        labels = (earlier ++ label :: later)%list
        /\ Label.name label = Some labelName
        /\ forall l, In l earlier -> Label.name l <> Some labelName
  | None => forall l, In l labels -> Label.name l <> Some labelName
  end.
Proof.
  unfold find_label. induction labels as [| l labels IH]; simpl.
  - intros l [].
  - destruct (Label.name l) as [n |] eqn:Hn.
    + destruct (String.eqb n labelName) eqn:Heq.
      * apply String.eqb_eq in Heq. subst n.
        exists [], labels. split; [reflexivity |]. split; [exact Hn |]. intros x [].
      * apply String.eqb_neq in Heq.
        destruct (List.find _ labels) as [label |].
        -- destruct IH as [earlier [later [-> [Hname Hearlier]]]].
           exists (l :: earlier), later. split; [reflexivity |]. split; [exact Hname |].
           intros x [<- | Hx]; [congruence | auto].
        -- intros x [<- | Hx]; [congruence | auto].
    + destruct (List.find _ labels) as [label |].
      * destruct IH as [earlier [later [-> [Hname Hearlier]]]].
        exists (l :: earlier), later. split; [reflexivity |]. split; [exact Hname |].
        intros x [<- | Hx]; [congruence | auto].
      * intros x [<- | Hx]; [congruence | auto].
Qed.

(** X15.  When the labels are listed, [addLabelToEmail] applies the first
    listed label whose name is exactly the wanted name and creates
    nothing; only when no listed label has that name does it create the
    label (shown in the label list and in the message list) and apply the
    label the mailbox returns; a failed creation ends the labelling with
    nothing applied. *)
Theorem label_reused_or_created (messageId : option string) (labelName : string)
        (st : State) (labels : list Label.t) :
  labels_list_reply w (trace (record labels_list st)) = Return (Some labels) ->
  let st' := snd (addLabelToEmail w messageId labelName st) in
  match find_label labelName labels with
  | Some label =>
      (exists earlier later,
          labels = (earlier ++ label :: later)%list
          /\ Label.name label = Some labelName
          /\ forall l, In l earlier -> Label.name l <> Some labelName)
      /\ exists entry,
           trace st' = (trace st ++ [ labels_list;
                                      messages_modify messageId [Label.id label];
                                      console_log entry ])%list
  | None =>
      (forall l, In l labels -> Label.name l <> Some labelName)
      /\ match labels_create_reply
                 w (trace st ++ [labels_list; labels_create labelName "labelShow" "show"])%list
         with
         | Return newLabel =>
             exists entry,
               trace st' = (trace st ++ [ labels_list;
                                          labels_create labelName "labelShow" "show";
                                          messages_modify messageId [Label.id newLabel];
                                          console_log entry ])%list
         | Throw e =>
             exists entry,
               trace st' = (trace st ++ [ labels_list;
                                          labels_create labelName "labelShow" "show";
                                          console_log entry ])%list
         end
  end.
Proof.
  intros Hlist. cbv zeta.
  rewrite addLabelToEmail_run. cbv zeta. rewrite Hlist.
  pose proof (find_label_first labelName labels) as Hfirst.
  destruct (find_label labelName labels) as [label |].
  - split; [exact Hfirst |].
    destruct (messages_modify_reply w _); eexists; cbn [snd]; simpl;
      rewrite <- !List.app_assoc; reflexivity.
  - split; [exact Hfirst |].
    change (trace (record (labels_create labelName "labelShow" "show")
                          (record labels_list st)))
      with ((trace st ++ [labels_list]) ++ [labels_create labelName "labelShow" "show"])%list.
    rewrite <- List.app_assoc. cbn [List.app].
    destruct (labels_create_reply w _) as [newLabel | e].
    + destruct (messages_modify_reply w _); eexists; cbn [snd]; simpl;
        rewrite <- !List.app_assoc; reflexivity.
    + eexists. cbn [snd]. simpl. rewrite <- !List.app_assoc. reflexivity.
Qed.


End Drafts.

(* ===================================================================== *)
(** * Instances *)
(* ===================================================================== *)

Lemma draft_failure_reported_witness :
  fst (processEmail (scripted drafts_unavailable) (stub "a") initial)
  = Return (Failure "Insufficient Permission").
Proof.
  pose (tr := trace (snd (processEmail (scripted drafts_unavailable) (stub "a") initial))).
  refine (proj1 (draft_failure_reported
                   (scripted drafts_unavailable) (stub "a") initial
                   (List.firstn 5 tr) (Some "thread-1")
                   (match List.nth_error tr 5 with
                    | Some (drafts_create _ raw) => raw
                    | _ => ""
                    end)
                   (List.skipn 6 tr) (mkExn "Error" "Insufficient Permission") _ _));
    vm_compute; reflexivity.
Defined.

Lemma classification_failure_routes_other_witness :
  exists st',
    processEmail (scripted classifier_down) (stub "a") initial
    = (Return (Success (Some "a") "ann@example.com" "Pricing" (JBool false) (JNum 0)
                       "other"), st').
Proof.
  destruct (classification_failure_routes_other
              (scripted classifier_down) (stub "a") (sample_message (Some "a"))
              sample_email initial (mkExn "Error" "429 Rate limit reached")
              eq_refl eq_refl eq_refl)
    as [result [st' [Hrun [_ [_ [Hres | [before [e' [Hd _]]]]]]]]].
  - exists st'. rewrite Hrun, Hres. reflexivity.
  - discriminate Hd.
Defined.

Lemma service_fetches_once_witness :
  NoDup (fetched (trace (after_one_tick (scripted happy))))
  /\ health_processedEmails (GET_health (scripted happy) (after_one_tick (scripted happy)))
     = List.length (fetched (trace (after_one_tick (scripted happy)))).
Proof.
  destruct (service_fetches_once (scripted happy) None (after_one_tick (scripted happy)))
    as [_ [N [H _]]].
  - intros tr messages Hl. injection Hl as <-.
    unfold ids. simpl.
    repeat (constructor; [rewrite list_elem_of_In; simpl; intuition discriminate |]).
    constructor.
  - apply ticked, started.
  - split; [exact N | exact H].
Defined.

Lemma service_logs_recent_witness :
  logs (after_one_tick (scripted happy))
  = slice_last 100 (console_entries (trace (after_one_tick (scripted happy)))).
Proof.
  exact (proj1 (service_logs_recent
                  (scripted happy) None (after_one_tick (scripted happy))
                  (ticked _ _ _ (started _ _)))).
Defined.

Lemma draft_answers_sender_witness :
  exists raw draftBody,
    In (drafts_create (Some "thread-1") raw)
       (trace (snd (processEmail (scripted happy) (stub "a") initial)))
    /\ raw = url_safe (base64_encode
                        (join CRLF [ "To: ann@example.com"; "Subject: Re: Pricing";
                                     "In-Reply-To: a"; "References: a"; "";
                                     joined draftBody ])).
Proof.
  pose (tr := trace (snd (processEmail (scripted happy) (stub "a") initial))).
  pose (raw := match List.nth_error tr 5 with
               | Some (drafts_create _ r) => r
               | _ => ""
               end).
  assert (Htr : tr = (trace initial ++ List.firstn 5 tr
                        ++ drafts_create (Some "thread-1") raw :: List.skipn 6 tr)%list)
    by (vm_compute; reflexivity).
  destruct (draft_answers_sender (scripted happy) (stub "a") initial
                                 (List.firstn 5 tr) (Some "thread-1") raw
                                 (List.skipn 6 tr) Htr)
    as [fm [email [draftBody [Hget [Hdec [_ [Hraw _]]]]]]].
  vm_compute in Hget. injection Hget as <-.
  vm_compute in Hdec. injection Hdec as <-.
  exists raw, draftBody. split; [| exact Hraw].
  fold tr. rewrite Htr. apply List.in_or_app. right.
  apply List.in_or_app. right. left. reflexivity.
Defined.

Lemma label_reused_or_created_witness :
  exists entry,
    trace (snd (addLabelToEmail (scripted happy) (Some "a") "lead" initial))
    = [ labels_list; messages_modify (Some "a") [Some "Label_1"]; console_log entry ].
Proof.
  exact (proj2 (label_reused_or_created
                  (scripted happy) (Some "a") "lead" initial
                  [Label.mk (Some "Label_1") (Some "lead")] eq_refl)).
Defined.

